(** * Flatcar Linux Update Operator: reboot coordination

    A shallow embedding of the operator's reconciliation loop
    (package [operator]) and of the node helpers of package [k8sutil],
    together with the properties the specification states about them.

    Go maps are modelled as optional finite maps: [None] is the nil map.
    Reading and [delete] are defined on the nil map, assignment panics.
    The cluster API is a state threaded through every call; the other
    actors of the cluster (agents, hook operators, transient failures) are
    a script consumed one entry per API call. *)

From Stdlib Require Import ZArith Lia.
From stdpp Require Import gmap strings list fin_maps.

Open Scope string_scope.
Open Scope nat_scope.
Open Scope list_scope.

(** ** Go maps *)

Module gomap.

(** A [map[string]string]; [None] is the nil map. *)
Definition t : Type := option (gmap string string).

(** [v, ok := m[k]]: defined on the nil map, which has no key. *)
Definition get (m : t) (k : string) : option string :=
  match m with
  | None => None
  | Some g => g !! k
  end.

(** [m[k]]: the zero value (the empty string) when the key is absent. *)
Definition index (m : t) (k : string) : string :=
  match get m k with
  | Some v => v
  | None => ""
  end.

(** [delete(m, k)]: a no-op on the nil map. *)
Definition del (k : string) (m : t) : t :=
  match m with
  | None => None
  | Some g => Some (delete k g)
  end.

(** [m[k] = v]: panics on the nil map, which is the outer [None]. *)
Definition assign (k v : string) (m : t) : option t :=
  match m with
  | None => None
  | Some g => Some (Some (<[k:=v]> g))
  end.

End gomap.

(** ** Protocol vocabulary *)

Module constants.

(** Modelled from the spec: package [constants] is not part of the
    sources at hand.  The names are those of the vocabulary table of the
    specification (section 6), without the common prefix. *)
Definition True : string := "true".
Definition False : string := "false".
Definition AnnotationRebootNeeded : string := "reboot-needed".
Definition AnnotationRebootInProgress : string := "reboot-in-progress".
Definition AnnotationRebootPaused : string := "reboot-paused".
Definition AnnotationOkToReboot : string := "ok-to-reboot".
Definition LabelBeforeReboot : string := "before-reboot".
Definition LabelAfterReboot : string := "after-reboot".

End constants.

(** ** Nodes *)

Module corev1.

(** The part of [corev1.Node] the operator reads or writes. *)
Record Node : Type := mkNode {
  Name : string;
  ResourceVersion : nat;
  Labels : gomap.t;
  Annotations : gomap.t;
  Unschedulable : bool
}.

(** [&v1.Node{}]: the zero value. *)
Definition zero : Node := mkNode "" 0 None None false.

Definition withLabels (n : Node) (l : gomap.t) : Node :=
  mkNode (Name n) (ResourceVersion n) l (Annotations n) (Unschedulable n).

Definition withAnnotations (n : Node) (a : gomap.t) : Node :=
  mkNode (Name n) (ResourceVersion n) (Labels n) a (Unschedulable n).

Definition withUnschedulable (n : Node) (b : bool) : Node :=
  mkNode (Name n) (ResourceVersion n) (Labels n) (Annotations n) b.

Definition withResourceVersion (n : Node) (v : nat) : Node :=
  mkNode (Name n) v (Labels n) (Annotations n) (Unschedulable n).

End corev1.

Import corev1.

(** ** Selectors of the Kubernetes libraries *)

Module fields.

(** A parsed field selector: a conjunction of [k==v] and [k!=v] terms. *)
Inductive term : Type :=
| hasTerm (field value : string)
| notHasTerm (field value : string).

Definition Selector : Type := list term.

Definition termMatches (ls : gomap.t) (t : term) : bool :=
  match t with
  | hasTerm f v => String.eqb (gomap.index ls f) v
  | notHasTerm f v => negb (String.eqb (gomap.index ls f) v)
  end.

(** [andTerm.Matches]: every term matches. *)
Definition Matches (s : Selector) (ls : gomap.t) : bool :=
  forallb (termMatches ls) s.

End fields.

Module labels.

Inductive Operator : Type := In | NotIn.

Record Requirement : Type := mkRequirement {
  key : string;
  operator : Operator;
  strValues : list string
}.

Definition hasValue (r : Requirement) (v : string) : bool :=
  existsb (String.eqb v) (strValues r).

(** [Requirement.Matches]: [In] needs the key, [NotIn] accepts its
    absence. *)
Definition Matches (r : Requirement) (ls : gomap.t) : bool :=
  match operator r with
  | In =>
      match gomap.get ls (key r) with
      | None => false
      | Some v => hasValue r v
      end
  | NotIn =>
      match gomap.get ls (key r) with
      | None => true
      | Some v => negb (hasValue r v)
      end
  end.

End labels.

(** ** Selector engine of the operator *)

Definition maxRebootingNodes : nat := 1.

Definition justRebootedSelector : fields.Selector :=
  [ fields.hasTerm constants.AnnotationOkToReboot constants.True;
    fields.hasTerm constants.AnnotationRebootNeeded constants.False;
    fields.hasTerm constants.AnnotationRebootInProgress constants.False ].

Definition rebootableSelector : fields.Selector :=
  [ fields.hasTerm constants.AnnotationRebootNeeded constants.True;
    fields.notHasTerm constants.AnnotationRebootPaused constants.True;
    fields.notHasTerm constants.AnnotationOkToReboot constants.True;
    fields.notHasTerm constants.AnnotationRebootInProgress constants.True ].

Definition stillRebootingSelector : fields.Selector :=
  [ fields.hasTerm constants.AnnotationOkToReboot constants.True;
    fields.hasTerm constants.AnnotationRebootNeeded constants.True ].

Definition beforeRebootReq : labels.Requirement :=
  labels.mkRequirement constants.LabelBeforeReboot labels.In [constants.True].

Definition afterRebootReq : labels.Requirement :=
  labels.mkRequirement constants.LabelAfterReboot labels.In [constants.True].

Definition notBeforeRebootReq : labels.Requirement :=
  labels.mkRequirement constants.LabelBeforeReboot labels.NotIn [constants.True].

Definition notAfterRebootReq : labels.Requirement :=
  labels.mkRequirement constants.LabelAfterReboot labels.NotIn [constants.True].

Fixpoint hasAllAnnotations (node : Node) (annotations : list string) : bool :=
  match annotations with
  | [] => true
  | annotation :: rest =>
      match gomap.get (Annotations node) annotation with
      | None => false
      | Some value =>
          if String.eqb value constants.True
          then hasAllAnnotations node rest
          else false
      end
  end.

(** The rebootable predicate of the selector engine. *)
Definition rebootable (n : Node) : bool :=
  fields.Matches rebootableSelector (Annotations n).

(** ** Errors and outcomes *)

(** The failures of an API call, and [fmt.Errorf("...: %w", err)]. *)
Inductive error : Type :=
| Conflict
| NotFound
| Unavailable
| Wrapped (context : string) (cause : error).

(** [errors.IsConflict]: looks through the wrapping. *)
Fixpoint IsConflict (e : error) : bool :=
  match e with
  | Conflict => true
  | Wrapped _ cause => IsConflict cause
  | _ => false
  end.

(** How a call ends: normally, with an error value, or in a panic. *)
Inductive Outcome (A : Type) : Type :=
| Done (a : A)
| Failed (e : error)
| Panicked.

Arguments Done {A} a.
Arguments Failed {A} e.
Arguments Panicked {A}.

(** ** The cluster API as seen through [NodeInterface] *)

(** What the rest of the cluster does while a call is in flight. *)
Inductive Disturbance : Type :=
| Quiet
| Outage
| Annotate (node key value : string).

Inductive Call : Type :=
| CallList
| CallGet (name : string)
| CallUpdate (submitted : Node) (accepted : bool).

Record World : Type := mkWorld {
  store : list Node;
  script : list Disturbance;
  calls : list Call;
  klog : list error
}.

Definition getNode (name : string) (s : list Node) : option Node :=
  List.find (fun m => String.eqb (Name m) name) s.

Definition putNode (n : Node) (s : list Node) : list Node :=
  List.map (fun m => if String.eqb (Name m) (Name n) then n else m) s.

(** Another actor's write: it lands in the store under a new resource
    version. *)
Definition annotated (key value : string) (n : Node) : Node :=
  mkNode (Name n) (S (ResourceVersion n)) (Labels n)
    (match Annotations n with
     | None => Some {[ key := value ]}
     | Some g => Some (<[key:=value]> g)
     end)
    (Unschedulable n).

(** Every call first lets the next scripted disturbance happen; the boolean
    tells whether the API server is reachable for the call. *)
Definition disturb (w : World) : bool * World :=
  match script w with
  | [] => (true, w)
  | Quiet :: rest => (true, mkWorld (store w) rest (calls w) (klog w))
  | Outage :: rest => (false, mkWorld (store w) rest (calls w) (klog w))
  | Annotate name key value :: rest =>
      let s :=
        match getNode name (store w) with
        | None => store w
        | Some n => putNode (annotated key value n) (store w)
        end in
      (true, mkWorld s rest (calls w) (klog w))
  end.

Definition record (c : Call) (w : World) : World :=
  mkWorld (store w) (script w) (calls w ++ [c]) (klog w).

Definition withStore (s : list Node) (w : World) : World :=
  mkWorld s (script w) (calls w) (klog w).

Module nodes.

(** [nc.List]: the items in the order of the store, each as [Get] would
    return it. *)
Definition List (w : World) : Outcome (list Node) * World :=
  let '(up, w1) := disturb w in
  let w2 := record CallList w1 in
  if up then (Done (store w2), w2) else (Failed Unavailable, w2).

(** [nc.Get].  The object comes back as the store holds it.  The typed
    client returns a map without entries as nil, where the store of the
    model keeps a map that lost its last entry as it was submitted: the
    two agree on every object whose maps, when not nil, hold an entry. *)
Definition Get (name : string) (w : World) : Outcome Node * World :=
  let '(up, w1) := disturb w in
  let w2 := record (CallGet name) w1 in
  if up then
    match getNode name (store w2) with
    | Some n => (Done n, w2)
    | None => (Failed NotFound, w2)
    end
  else (Failed Unavailable, w2).

(** Whether the API server takes the submitted object: the node exists
    and the object carries its current resource version. *)
Definition admits (s : list Node) (n : Node) : option error :=
  match getNode (Name n) s with
  | None => Some NotFound
  | Some cur =>
      if Nat.eqb (ResourceVersion cur) (ResourceVersion n) then None
      else Some Conflict
  end.

(** [nc.Update]: returns the stored object, or the zero object the typed
    client allocated together with the error. *)
Definition Update (n : Node) (w : World) : (Node * option error) * World :=
  let '(up, w1) := disturb w in
  if up then
    match admits (store w1) n with
    | Some e => ((zero, Some e), record (CallUpdate n false) w1)
    | None =>
        let stored := withResourceVersion n (S (ResourceVersion n)) in
        ((stored, None),
         record (CallUpdate n true) (withStore (putNode stored (store w1)) w1))
    end
  else ((zero, Some Unavailable), record (CallUpdate n false) w1).

End nodes.

(** ** Retrying on conflict (client-go [retry]) *)

Module retry.

(** [retry.DefaultBackoff.Steps]. *)
Definition DefaultBackoff : nat := 4.

(** [retry.OnError]: at most [steps] attempts of [fn]; a retriable error
    leads to the next attempt, and when the attempts are used up the last
    such error is returned.  The state [S] is what the closure [fn]
    captures and assigns. *)
Fixpoint OnError {S : Type} (steps : nat) (retriable : error → bool)
    (fn : S → World → (S * Outcome unit) * World)
    (s : S) (lastErr : option error) (w : World) : (S * Outcome unit) * World :=
  match steps with
  | 0 =>
      match lastErr with
      | None => ((s, Done tt), w)
      | Some e => ((s, Failed e), w)
      end
  | S steps' =>
      match fn s w with
      | ((s1, Done _), w1) => ((s1, Done tt), w1)
      | ((s1, Failed e), w1) =>
          if retriable e
          then OnError steps' retriable fn s1 (Some e) w1
          else ((s1, Failed e), w1)
      | ((s1, Panicked), w1) => ((s1, Panicked), w1)
      end
  end.

Definition RetryOnConflict {S : Type} (steps : nat)
    (fn : S → World → (S * Outcome unit) * World) (s : S) (w : World) :
    (S * Outcome unit) * World :=
  OnError steps IsConflict fn s None w.

End retry.

(** ** Mutators *)

(** The statements a mutator closure is made of, in program order. *)
Inductive Mutation : Type :=
| DeleteLabel (key : string)
| DeleteAnnotation (key : string)
| SetLabel (key value : string)
| SetAnnotation (key value : string).

(** One statement on the fetched object; [None] is the panic of an
    assignment into a nil map. *)
Definition execute (m : Mutation) (n : Node) : option Node :=
  match m with
  | DeleteLabel k => Some (withLabels n (gomap.del k (Labels n)))
  | DeleteAnnotation k => Some (withAnnotations n (gomap.del k (Annotations n)))
  | SetLabel k v =>
      match gomap.assign k v (Labels n) with
      | None => None
      | Some l => Some (withLabels n l)
      end
  | SetAnnotation k v =>
      match gomap.assign k v (Annotations n) with
      | None => None
      | Some a => Some (withAnnotations n a)
      end
  end.

Fixpoint run (p : list Mutation) (n : Node) : option Node :=
  match p with
  | [] => Some n
  | m :: rest =>
      match execute m n with
      | None => None
      | Some n1 => run rest n1
      end
  end.

(** ** Package k8sutil *)

Module k8sutil.

(** Modelled from the spec: the filter helpers of k8sutil are not part of
    the sources at hand; they are the pure filters of the selector engine,
    keeping the nodes a selector matches in list order. *)
Definition FilterNodesByAnnotation (l : list Node) (sel : fields.Selector) : list Node :=
  List.filter (fun n => fields.Matches sel (Annotations n)) l.

(** Modelled from the spec: the same filter for a label requirement. *)
Definition FilterNodesByRequirement (l : list Node) (req : labels.Requirement) : list Node :=
  List.filter (fun n => labels.Matches req (Labels n)) l.

(** One attempt of [UpdateNodeRetry]: get, apply [f], submit. *)
Definition updateAttempt (node : string) (f : Node → option Node)
    (_ : unit) (w : World) : (unit * Outcome unit) * World :=
  match nodes.Get node w with
  | (Done n, w1) =>
      match f n with
      | None => ((tt, Panicked), w1)
      | Some n1 =>
          match nodes.Update n1 w1 with
          | ((_, None), w2) => ((tt, Done tt), w2)
          | ((_, Some e), w2) => ((tt, Failed e), w2)
          end
      end
  | (Failed getErr, w1) => ((tt, Failed (Wrapped "failed to get node" getErr)), w1)
  | (Panicked, w1) => ((tt, Panicked), w1)
  end.

Definition UpdateNodeRetry (node : string) (f : Node → option Node)
    (w : World) : Outcome unit * World :=
  match retry.RetryOnConflict retry.DefaultBackoff (updateAttempt node f) tt w with
  | ((_, Done _), w1) => (Done tt, w1)
  | ((_, Failed e), w1) => (Failed (Wrapped "unable to update node" e), w1)
  | ((_, Panicked), w1) => (Panicked, w1)
  end.

(** [SetNodeLabels], with the map [m] as the list of its entries. *)
Definition SetNodeLabels (node : string) (m : list (string * string)) :
    World → Outcome unit * World :=
  UpdateNodeRetry node (run (List.map (fun kv => SetLabel kv.1 kv.2) m)).

(** [SetNodeAnnotations]. *)
Definition SetNodeAnnotations (node : string) (m : list (string * string)) :
    World → Outcome unit * World :=
  UpdateNodeRetry node (run (List.map (fun kv => SetAnnotation kv.1 kv.2) m)).

(** One attempt of the retried closure of [Unschedulable]: submit the
    captured object and assign the result to it. *)
Definition unschedulableAttempt (n : Node) (w : World) : (Node * Outcome unit) * World :=
  match nodes.Update n w with
  | ((n1, None), w1) => ((n1, Done tt), w1)
  | ((n1, Some e), w1) => ((n1, Failed e), w1)
  end.

Definition Unschedulable (node : string) (sched : bool)
    (w : World) : Outcome unit * World :=
  match nodes.Get node w with
  | (Done n, w1) =>
      let n1 := withUnschedulable n sched in
      match retry.RetryOnConflict retry.DefaultBackoff unschedulableAttempt n1 w1 with
      | ((_, Done _), w2) => (Done tt, w2)
      | ((_, Failed e), w2) =>
          (Failed (Wrapped "unable to set Unschedulable property of node" e), w2)
      | ((_, Panicked), w2) => (Panicked, w2)
      end
  | (Failed e, w1) => (Failed (Wrapped "failed to get node" e), w1)
  | (Panicked, w1) => (Panicked, w1)
  end.

(** One attempt of the retried closure of [GetNodeRetry]; the state is the
    captured [apiNode], nil before the first successful read. *)
Definition getAttempt (node : string) (apiNode : option Node) (w : World) :
    (option Node * Outcome unit) * World :=
  match nodes.Get node w with
  | (Done n, w1) => ((Some n, Done tt), w1)
  | (Failed getErr, w1) =>
      ((apiNode, Failed (Wrapped "failed to get node" getErr)), w1)
  | (Panicked, w1) => ((apiNode, Panicked), w1)
  end.

(** [GetNodeRetry]: every error is retriable; the result is the pointer
    [apiNode], which the type allows to be nil. *)
Definition GetNodeRetry (node : string) (w : World) : Outcome (option Node) * World :=
  match retry.OnError retry.DefaultBackoff (fun _ => true) (getAttempt node) None None w with
  | ((apiNode, Done _), w1) => (Done apiNode, w1)
  | ((_, Failed e), w1) => (Failed (Wrapped "getting node" e), w1)
  | ((_, Panicked), w1) => (Panicked, w1)
  end.

(** [SetNodeAnnotationsLabels]: the annotations first, then the labels. *)
Definition SetNodeAnnotationsLabels (node : string) (a l : list (string * string)) :
    World → Outcome unit * World :=
  UpdateNodeRetry node
    (run (List.map (fun kv => SetAnnotation kv.1 kv.2) a
          ++ List.map (fun kv => SetLabel kv.1 kv.2) l)).

(** [DeleteNodeLabels]. *)
Definition DeleteNodeLabels (node : string) (ks : list string) :
    World → Outcome unit * World :=
  UpdateNodeRetry node (run (List.map DeleteLabel ks)).


End k8sutil.

(** ** Package k8sutil: the pods of a node *)

Module pods.

(** The part of [metav1.OwnerReference] the helpers read. *)
Record OwnerReference : Type := mkOwnerReference {
  Kind : string;
  RefName : string
}.

(** The part of [corev1.Pod] the helpers read; [NodeName] is
    [spec.nodeName], the field the listing selects on. *)
Record Pod : Type := mkPod {
  PodName : string;
  Namespace : string;
  NodeName : string;
  PodAnnotations : gomap.t;
  OwnerReferences : list OwnerReference
}.

(** [corev1.MirrorPodAnnotationKey] *)
Definition MirrorPodAnnotationKey : string := "kubernetes.io/config.mirror".

(** The errors of the helpers: an error of the API, the three errors the
    helpers make themselves, and [fmt.Errorf("...: %w", err)]. *)
Inductive failure : Type :=
| Api (e : error)
| NoOwners
| NoDaemonsetOwner
| UnknownKind
| Context (context : string) (cause : failure).

Inductive result (A : Type) : Type :=
| Ok (a : A)
| Err (f : failure).

Arguments Ok {A} a.
Arguments Err {A} f.

(** [errors.IsNotFound] *)
Fixpoint IsNotFound (f : failure) : bool :=
  match f with
  | Api NotFound => true
  | Context _ cause => IsNotFound cause
  | _ => false
  end.

Inductive Request : Type :=
| ListPods (node : string)
| GetDaemonSet (namespace name : string).

(** The API server as the helpers see it: the pods, the daemonsets by
    namespace and name, for each call to come whether it is lost to an
    outage, and the requests made so far. *)
Record Cluster : Type := mkCluster {
  allPods : list Pod;
  daemonsets : list (string * string);
  outages : list bool;
  requests : list Request
}.

Definition arrive (r : Request) (c : Cluster) : bool * Cluster :=
  match outages c with
  | [] => (true, mkCluster (allPods c) (daemonsets c) [] (requests c ++ [r]))
  | lost :: rest =>
      (negb lost, mkCluster (allPods c) (daemonsets c) rest (requests c ++ [r]))
  end.

(** [kc.CoreV1().Pods(NamespaceAll).List] with the field selector
    [spec.nodeName=node]. *)
Definition listPods (node : string) (c : Cluster) : result (list Pod) * Cluster :=
  let '(up, c1) := arrive (ListPods node) c in
  if up
  then (Ok (List.filter (fun p => String.eqb (NodeName p) node) (allPods c1)), c1)
  else (Err (Api Unavailable), c1).

(** [kc.AppsV1().DaemonSets(namespace).Get] *)
Definition getDaemonSet (namespace name : string) (c : Cluster) : result unit * Cluster :=
  let '(up, c1) := arrive (GetDaemonSet namespace name) c in
  if up
  then if existsb (fun d => String.eqb d.1 namespace && String.eqb d.2 name)
            (daemonsets c1)
       then (Ok tt, c1)
       else (Err (Api NotFound), c1)
  else (Err (Api Unavailable), c1).

Definition getDaemonsetController (namespace : string) (controllerRef : OwnerReference)
    (c : Cluster) : result unit * Cluster :=
  if String.eqb (Kind controllerRef) "DaemonSet"
  then getDaemonSet namespace (RefName controllerRef) c
  else (Err UnknownKind, c).

(** The loop of [getOwnerDaemonset] over the owner references. *)
Fixpoint ownerLoop (pod : Pod) (refs : list OwnerReference) (c : Cluster) :
    result unit * Cluster :=
  match refs with
  | [] => (Err NoDaemonsetOwner, c)
  | ownerRef :: rest =>
      if String.eqb (Kind ownerRef) "DaemonSet"
      then
        match getDaemonsetController (Namespace pod) ownerRef c with
        | (Ok ds, c1) => (Ok ds, c1)
        | (Err err, c1) =>
            if negb (IsNotFound err)
            then (Err (Context "failed to get controller of pod" err), c1)
            else ownerLoop pod rest c1
        end
      else ownerLoop pod rest c
  end.

Definition getOwnerDaemonset (pod : Pod) (c : Cluster) : result unit * Cluster :=
  match OwnerReferences pod with
  | [] => (Err NoOwners, c)
  | refs => ownerLoop pod refs c
  end.

(** The loop of [GetPodsForDeletion] over the listed pods; [acc] is the
    named result [pods]. *)
Fixpoint podLoop (items acc : list Pod) (c : Cluster) : list Pod * Cluster :=
  match items with
  | [] => (acc, c)
  | pod :: rest =>
      match gomap.get (PodAnnotations pod) MirrorPodAnnotationKey with
      | Some _ => podLoop rest acc c
      | None =>
          match getOwnerDaemonset pod c with
          | (Ok _, c1) => podLoop rest acc c1
          | (Err _, c1) => podLoop rest (acc ++ [pod]) c1
          end
      end
  end.

Definition GetPodsForDeletion (node : string) (c : Cluster) :
    result (list Pod) * Cluster :=
  match listPods node c with
  | (Err err, c1) => (Err (Context "listing pods on node" err), c1)
  | (Ok items, c1) =>
      let '(chosen, c2) := podLoop items [] c1 in (Ok chosen, c2)
  end.

End pods.

(** ** Reboot window (locksmith timeutil) *)

Module timeutil.

(** An occurrence of the window; instants are integers. *)
Record Period : Type := mkPeriod { PeriodStart : Z; PeriodEnd : Z }.

(** A parsed periodic window, through the one method the operator calls:
    [Previous ref] is the latest occurrence relative to [ref]. *)
Record Periodic : Type := mkPeriodic { Previous : Z → Period }.

End timeutil.

(** ** The operator *)

Record Kontroller : Type := mkKontroller {
  beforeRebootAnnotations : list string;
  afterRebootAnnotations : list string;
  rebootWindow : option timeutil.Periodic
}.

(** [for _, n := range nodes { if err := body(n); err != nil { return err } }] *)
Fixpoint forNodes (body : Node → World → Outcome unit * World)
    (l : list Node) (w : World) : Outcome unit * World :=
  match l with
  | [] => (Done tt, w)
  | n :: rest =>
      match body n w with
      | (Done _, w1) => forNodes body rest w1
      | (Failed e, w1) => (Failed e, w1)
      | (Panicked, w1) => (Panicked, w1)
      end
  end.

(** [fmt.Errorf(context + ": %w", err)] on the error path. *)
Definition wrap (context : string) (f : World → Outcome unit * World)
    (w : World) : Outcome unit * World :=
  match f w with
  | (Failed e, w1) => (Failed (Wrapped context e), w1)
  | other => other
  end.

(** [nodelist, err := k.nc.List(...)], then the rest of the phase. *)
Definition listing (rest : list Node → World → Outcome unit * World)
    (w : World) : Outcome unit * World :=
  match nodes.List w with
  | (Done items, w1) => rest items w1
  | (Failed e, w1) => (Failed (Wrapped "listing nodes" e), w1)
  | (Panicked, w1) => (Panicked, w1)
  end.

(** The statements the mutator of [cleanupState] executes on [node]. *)
Definition cleanupProgram (k : Kontroller) (node : Node) : list Mutation :=
  match gomap.get (Labels node) constants.LabelBeforeReboot with
  | Some _ =>
      if negb (fields.Matches rebootableSelector (Annotations node))
      then DeleteLabel constants.LabelBeforeReboot
             :: List.map DeleteAnnotation (beforeRebootAnnotations k)
      else []
  | None => []
  end.

Definition cleanupMutator (k : Kontroller) (node : Node) : option Node :=
  run (cleanupProgram k node) node.

Definition cleanupState (k : Kontroller) : World → Outcome unit * World :=
  listing (forNodes (fun n =>
    wrap "cleaning up node" (k8sutil.UpdateNodeRetry (Name n) (cleanupMutator k)))).

(** The statements of the mutator of [checkReboot]. *)
Definition checkRebootProgram (annotations : list string) (label okToReboot : string) :
    list Mutation :=
  DeleteLabel label
    :: List.map DeleteAnnotation annotations
    ++ [SetAnnotation constants.AnnotationOkToReboot okToReboot].

Definition checkRebootNode (annotations : list string) (label okToReboot : string)
    (n : Node) (w : World) : Outcome unit * World :=
  if hasAllAnnotations n annotations
  then wrap "updating node"
         (k8sutil.UpdateNodeRetry (Name n)
            (run (checkRebootProgram annotations label okToReboot))) w
  else (Done tt, w).

Definition checkReboot (req : labels.Requirement) (annotations : list string)
    (label okToReboot : string) : World → Outcome unit * World :=
  listing (fun items =>
    forNodes (checkRebootNode annotations label okToReboot)
      (k8sutil.FilterNodesByRequirement items req)).

Definition checkBeforeReboot (k : Kontroller) : World → Outcome unit * World :=
  checkReboot beforeRebootReq (beforeRebootAnnotations k)
    constants.LabelBeforeReboot constants.True.

Definition checkAfterReboot (k : Kontroller) : World → Outcome unit * World :=
  checkReboot afterRebootReq (beforeRebootAnnotations k)
    constants.LabelAfterReboot constants.False.

(** The statements of the mutator of [mark]. *)
Definition markProgram (label : string) (annotations : list string) : list Mutation :=
  List.map DeleteAnnotation annotations ++ [SetLabel label constants.True].

Definition mark (nodeName label : string) (annotations : list string)
    (w : World) : Outcome unit * World :=
  wrap "setting label" (k8sutil.UpdateNodeRetry nodeName (run (markProgram label annotations))) w.

(** The nodes [markBeforeReboot] counts against the budget: the three
    selections appended one after the other. *)
Definition rebootingNodes (items : list Node) : list Node :=
  k8sutil.FilterNodesByAnnotation items stillRebootingSelector
    ++ k8sutil.FilterNodesByRequirement items beforeRebootReq
    ++ k8sutil.FilterNodesByRequirement items afterRebootReq.

Definition rebootableNodes (items : list Node) : list Node :=
  k8sutil.FilterNodesByRequirement
    (k8sutil.FilterNodesByAnnotation items rebootableSelector) notBeforeRebootReq.

(** The nodes [markBeforeReboot] picks from a listing that passed the
    budget check. *)
Definition chosenNodes (items : list Node) : list Node :=
  firstn (maxRebootingNodes - length (rebootingNodes items)) (rebootableNodes items).

(** The guard of [markBeforeReboot]: a window is configured and
    [!(period.End.After(time.Now()))], where [period] is the previous
    occurrence relative to an earlier reading of the clock. *)
Definition outsideRebootWindow (k : Kontroller) (now1 now2 : Z) : bool :=
  match rebootWindow k with
  | Some rw => negb (Z.ltb now2 (timeutil.PeriodEnd (timeutil.Previous rw now1)))
  | None => false
  end.

(** [now1] and [now2] are the two readings of [time.Now()], in order. *)
Definition markBeforeReboot (k : Kontroller) (now1 now2 : Z) : World → Outcome unit * World :=
  listing (fun items w =>
    if outsideRebootWindow k now1 now2
    then (Done tt, w)
    else if Nat.leb maxRebootingNodes (length (rebootingNodes items))
    then (Done tt, w)
    else if Nat.eqb (length (rebootableNodes items)) 0
    then (Done tt, w)
    else
      forNodes (fun n =>
        wrap "labeling node for before reboot checks"
          (mark (Name n) constants.LabelBeforeReboot (beforeRebootAnnotations k)))
        (chosenNodes items) w).

Definition markAfterReboot (k : Kontroller) : World → Outcome unit * World :=
  listing (fun items =>
    forNodes (fun n =>
      wrap "labeling node for after reboot checks"
        (mark (Name n) constants.LabelAfterReboot (afterRebootAnnotations k)))
      (k8sutil.FilterNodesByRequirement
         (k8sutil.FilterNodesByAnnotation items justRebootedSelector) notAfterRebootReq)).

(** [klog.Errorf(context + ": %v", err)] *)
Definition Errorf (context : string) (e : error) (w : World) : World :=
  mkWorld (store w) (script w) (calls w) (klog w ++ [Wrapped context e]).

(** [if err := phase(); err != nil { klog.Errorf(...); return }], then the
    rest of [process]. *)
Definition orReturn (context : string) (phase rest : World → Outcome unit * World)
    (w : World) : Outcome unit * World :=
  match phase w with
  | (Done _, w1) => rest w1
  | (Failed e, w1) => (Done tt, Errorf context e w1)
  | (Panicked, w1) => (Panicked, w1)
  end.

(** One tick of the reconciliation. *)
Definition process (k : Kontroller) (now1 now2 : Z) : World → Outcome unit * World :=
  orReturn "Failed to cleanup node state" (cleanupState k)
    (orReturn "Failed to check after reboot" (checkAfterReboot k)
       (orReturn "Failed to update recently rebooted nodes" (markAfterReboot k)
          (orReturn "Failed to check before reboot" (checkBeforeReboot k)
             (orReturn "Failed to update rebootable nodes" (markBeforeReboot k now1 now2)
                (fun w => (Done tt, w)))))).


(** ** Readings of the cluster used in the statements *)

(** The nodes counted by invariant I1: pre-gating, authorized or rebooting,
    post-gating.  Each node of the listing counts once. *)
Definition inFlight (n : Node) : bool :=
  fields.Matches stillRebootingSelector (Annotations n)
  || labels.Matches beforeRebootReq (Labels n)
  || labels.Matches afterRebootReq (Labels n).

Definition inFlightUnion (items : list Node) : nat :=
  length (List.filter inFlight items).

Definition boundedConcurrency (items : list Node) : Prop :=
  inFlightUnion items ≤ maxRebootingNodes.

(** The nodes of [before] that did not carry before-reboot=true and carry it
    in [after]. *)
Definition newlyLabeled (before after : list Node) : list Node :=
  List.filter (fun n =>
    negb (labels.Matches beforeRebootReq (Labels n))
    && match getNode (Name n) after with
       | Some n1 => labels.Matches beforeRebootReq (Labels n1)
       | None => false
       end) before.

(** What the store holds under the name of a node after a successful update
    with mutator [f]. *)
Definition updated (f : Node → option Node) (n : Node) : Node :=
  match f n with
  | Some n1 => withResourceVersion n1 (S (ResourceVersion n1))
  | None => n
  end.

Definition accepted (c : Call) : bool :=
  match c with
  | CallUpdate _ true => true
  | _ => false
  end.

Definition isGet (c : Call) : bool :=
  match c with
  | CallGet _ => true
  | _ => false
  end.

(** [for _, a := range l { delete(m, a) }] *)
Definition deleteAll (l : list string) (m : gomap.t) : gomap.t :=
  foldl (fun acc a => gomap.del a acc) m l.

(** The node carries a label that is neither of the two phase labels and
    an annotation that is no configured hook annotation: entries that no
    mutator of the operator deletes, so that neither map of the node is
    nil or can be left without entries. *)
Definition anchored (k : Kontroller) (n : Node) : Prop :=
  (∃ l, l ≠ constants.LabelBeforeReboot ∧ l ≠ constants.LabelAfterReboot
        ∧ is_Some (gomap.get (Labels n) l))
  ∧ (∃ a, (a ∉ beforeRebootAnnotations k ++ afterRebootAnnotations k)
          ∧ is_Some (gomap.get (Annotations n) a)).

(** A call that, whatever the rest of the cluster does, does not panic and
    keeps [Inv] on every node of the store. *)
Definition keeps (Inv : Node → Prop) (m : World → Outcome unit * World) : Prop :=
  ∀ w : World,
    Forall Inv (store w) →
    (m w).1 ≠ Panicked ∧ Forall Inv (store (m w).2).

(** [for k, v := range m { g[k] = v }] on a map that is not nil, with the
    entries in the order of the iteration. *)
Definition assignAll (m : list (string * string)) (g : gmap string string) :
    gmap string string :=
  foldl (fun acc kv => <[kv.1:=kv.2]> acc) g m.

(** The calls of a trace that are submissions. *)
Definition isUpdate (c : Call) : bool :=
  match c with
  | CallUpdate _ _ => true
  | _ => false
  end.


(** In a cluster where nobody else acts and the names are unique, the call
    returns normally or panics, logs no error, and leaves a cluster of the
    same kind in which every node is related by [R] to what it was. *)
Definition steady (R : Node → Node → Prop) (m : World → Outcome unit * World) : Prop :=
  ∀ w : World,
    script w = [] →
    NoDup (List.map Name (store w)) →
    ((m w).1 = Done tt ∨ (m w).1 = Panicked)
    ∧ script (m w).2 = []
    ∧ klog (m w).2 = klog w
    ∧ NoDup (List.map Name (store (m w).2))
    ∧ Forall2 R (store w) (store (m w).2).

(** The node is in pre-gating with every before-reboot hook passed. *)
Definition clearedForReboot (k : Kontroller) (n : Node) : Prop :=
  labels.Matches beforeRebootReq (Labels n) = true
  ∧ hasAllAnnotations n (beforeRebootAnnotations k) = true.

(** No annotation of [n1] is "true" unless it was in [n]. *)
Definition noNewTrue (n n1 : Node) : Prop :=
  Name n1 = Name n
  ∧ ∀ a, gomap.get (Annotations n1) a = Some "true" →
         gomap.get (Annotations n) a = Some "true".

(** No annotation of [n1] is "true" unless it was in [n], except
    ok-to-reboot on a node that was cleared for reboot; and [n1] is in
    pre-gating only if [n] was. *)
Definition authorizedFrom (k : Kontroller) (n n1 : Node) : Prop :=
  Name n1 = Name n
  ∧ (labels.Matches beforeRebootReq (Labels n1) = true →
     labels.Matches beforeRebootReq (Labels n) = true)
  ∧ ∀ a, gomap.get (Annotations n1) a = Some "true" →
         gomap.get (Annotations n) a = Some "true"
         ∨ (a = constants.AnnotationOkToReboot ∧ clearedForReboot k n).

(** A pod is a mirror pod when it carries the mirror annotation. *)
Definition isMirror (p : pods.Pod) : bool :=
  match gomap.get (pods.PodAnnotations p) pods.MirrorPodAnnotationKey with
  | Some _ => true
  | None => false
  end.

(** One of the owner references of the pod is a daemonset the cluster
    holds in the namespace of the pod. *)
Definition hasDaemonset (c : pods.Cluster) (p : pods.Pod) : bool :=
  existsb (fun r =>
    String.eqb (pods.Kind r) "DaemonSet"
    && existsb (fun d => String.eqb d.1 (pods.Namespace p)
                         && String.eqb d.2 (pods.RefName r))
         (pods.daemonsets c))
    (pods.OwnerReferences p).

(** ** Example clusters *)

Definition node (name : string) (l a : list (string * string)) : Node :=
  mkNode name 0 (Some (list_to_map l)) (Some (list_to_map a)) false.

Definition quiet (s : list Node) : World := mkWorld s [] [] [].

Definition hooked : Kontroller := mkKontroller ["before-hook"] ["after-hook"] None.

Definition unhooked : Kontroller := mkKontroller [] [] None.

(** A window from 02:00 for one hour, every day; instants in seconds. *)
Definition nightly : timeutil.Periodic :=
  timeutil.mkPeriodic (fun ref =>
    let start := (ref - (ref - 7200) mod 86400)%Z in
    timeutil.mkPeriod start (start + 3600)%Z).

Definition windowed : Kontroller := mkKontroller [] [] (Some nightly).

(** A node in post-gating whose after-reboot hook has passed. *)
Definition afterPassed : Node :=
  node "a" [("after-reboot", "true")]
    [("after-hook", "true"); ("ok-to-reboot", "true")].

(** A node in post-gating whose after-reboot hook has not passed, with a
    before-reboot hook annotation at "true". *)
Definition beforePassedOnly : Node :=
  node "a" [("after-reboot", "true")]
    [("before-hook", "true"); ("after-hook", "false"); ("ok-to-reboot", "true")].

(** One node, and an agent that annotates it between the operator's first
    and second call. *)
Definition racing : World :=
  mkWorld [node "a" [] []] [Quiet; Annotate "a" "reboot-needed" "true"] [] [].

(** A node without labels that asks for a reboot. *)
Definition unlabeled : Node :=
  mkNode "a" 0 None (Some {[ "reboot-needed" := "true" ]}) false.

(** A node in post-gating without annotations. *)
Definition unannotated : Node :=
  mkNode "a" 0 (Some {[ "after-reboot" := "true" ]}) None false.

(** A node with neither map. *)
Definition bare : Node := mkNode "a" 0 None None false.

(** A node that carries the before-reboot label and no annotation map. *)
Definition staleGate : Node :=
  mkNode "a" 0 (Some {[ "before-reboot" := "true" ]}) None false.




(** A node whose before-reboot label has another value than "true", with a
    before-reboot hook annotation. *)
Definition mislabeled : Node :=
  node "a" [("before-reboot", "false")] [("before-hook", "true")].

(** A node in pre-gating whose agent has withdrawn the request. *)
Definition retracted : Node :=
  node "a" [("before-reboot", "true")]
    [("reboot-needed", "false"); ("before-hook", "true")].

(** A node in pre-gating that still asks for a reboot. *)
Definition pending : Node :=
  node "b" [("before-reboot", "true")] [("reboot-needed", "true")].

(** A node that is both authorized and still labeled before-reboot. *)
Definition doubled : Node :=
  node "a" [("before-reboot", "true")]
    [("ok-to-reboot", "true"); ("reboot-needed", "true")].

(** A node that has just rebooted and is not yet labeled after-reboot. *)
Definition rebooted : Node :=
  node "a" []
    [("ok-to-reboot", "true"); ("reboot-needed", "false"); ("reboot-in-progress", "false")].

(** A node in pre-gating whose before-reboot hook has passed. *)
Definition cleared : Node :=
  node "a" [("before-reboot", "true")]
    [("reboot-needed", "true"); ("before-hook", "true")].

(** A node with a hostname label that asks for a reboot. *)
Definition homed : Node :=
  node "a" [("kubernetes.io/hostname", "a")] [("reboot-needed", "true")].

(** A node with a hostname label, in pre-gating with its before-reboot hook
    passed. *)
Definition lodged : Node :=
  node "b" [("kubernetes.io/hostname", "b"); ("before-reboot", "true")]
    [("reboot-needed", "true"); ("before-hook", "true")].

(** A pod without owner, a pod of a daemonset and a pod on another node. *)
Definition webPod : pods.Pod := pods.mkPod "web" "default" "n1" None [].

Definition proxyPod : pods.Pod :=
  pods.mkPod "proxy" "kube-system" "n1" None
    [pods.mkOwnerReference "DaemonSet" "kube-proxy"].

Definition dbPod : pods.Pod := pods.mkPod "db" "default" "n2" None [].

(** A cluster that holds the daemonset of [proxyPod] and answers every
    call. *)
Definition calm : pods.Cluster :=
  pods.mkCluster [webPod; proxyPod; dbPod] [("kube-system", "kube-proxy")] [] [].

(** A pod of a replica set and of a daemonset, in that order. *)
Definition agentPod : pods.Pod :=
  pods.mkPod "agent" "kube-system" "n1" None
    [pods.mkOwnerReference "ReplicaSet" "agent-5d4"; pods.mkOwnerReference "DaemonSet" "agent"].

(** A cluster that holds the daemonsets of [proxyPod] and [agentPod] and
    loses the third call. *)
Definition flaky : pods.Cluster :=
  pods.mkCluster [proxyPod; agentPod; dbPod]
    [("kube-system", "kube-proxy"); ("kube-system", "agent")] [false; false; true] [].

(** ** Properties of the selector engine *)

Lemma index_eq_iff_get (m : gomap.t) (k v : string) :
  v ≠ "" → gomap.index m k = v ↔ gomap.get m k = Some v.
Proof.
  unfold gomap.index. destruct (gomap.get m k) as [u|]; split; intros H1;
    try congruence.
Qed.

(** C8: a node is rebootable exactly when reboot-needed is "true" and none
    of ok-to-reboot, reboot-in-progress, reboot-paused is "true"; an absent
    annotation or any other value is not "true". *)
Theorem rebootable_iff (n : Node) :
  rebootable n = true ↔
    gomap.get (Annotations n) constants.AnnotationRebootNeeded = Some "true"
    ∧ gomap.get (Annotations n) constants.AnnotationOkToReboot ≠ Some "true"
    ∧ gomap.get (Annotations n) constants.AnnotationRebootInProgress ≠ Some "true"
    ∧ gomap.get (Annotations n) constants.AnnotationRebootPaused ≠ Some "true".
Proof.
  unfold rebootable, rebootableSelector, fields.Matches. cbn [forallb fields.termMatches].
  rewrite !andb_true_iff, !negb_true_iff, !String.eqb_neq, String.eqb_eq.
  unfold constants.True.
  rewrite !index_eq_iff_get by discriminate.
  tauto.
Qed.

(** C9: [hasAllAnnotations] holds exactly when every listed name is present
    with the literal value "true"; it holds for the empty list, and fails
    when a listed name has any other value, such as "false" or "True", or is
    absent. *)
Theorem hasAllAnnotations_iff :
  (∀ (n : Node) (annotations : list string),
      hasAllAnnotations n annotations = true ↔
      ∀ a, a ∈ annotations → gomap.get (Annotations n) a = Some "true")
  ∧ (∀ n : Node, hasAllAnnotations n [] = true)
  ∧ (∀ (n : Node) (a v : string) (annotations : list string),
        a ∈ annotations →
        gomap.get (Annotations n) a = Some v → v ≠ "true" →
        hasAllAnnotations n annotations = false)
  ∧ (∀ (n : Node) (a : string) (annotations : list string),
        a ∈ annotations →
        gomap.get (Annotations n) a = None →
        hasAllAnnotations n annotations = false)
  ∧ hasAllAnnotations (node "a" [] [("hook", "false")]) ["hook"] = false
  ∧ hasAllAnnotations (node "a" [] [("hook", "True")]) ["hook"] = false.
Proof.
  assert (Hiff : ∀ (n : Node) (annotations : list string),
      hasAllAnnotations n annotations = true ↔
      ∀ a, a ∈ annotations → gomap.get (Annotations n) a = Some "true").
  { intros n annotations. induction annotations as [|a rest IH]; cbn [hasAllAnnotations].
    - split; [intros _ a Ha; inversion Ha | done].
    - destruct (gomap.get (Annotations n) a) as [v|] eqn:Hget.
      + destruct (String.eqb_spec v constants.True) as [->|Hne].
        * rewrite IH. split.
          -- intros Hrest b Hb. apply elem_of_cons in Hb as [->|Hb]; auto.
          -- intros Hall b Hb. apply Hall. by right.
        * split; [done|]. intros Hall. exfalso. apply Hne.
          specialize (Hall a (list_elem_of_here _ _)).
          unfold constants.True. congruence.
      + split; [done|]. intros Hall.
        specialize (Hall a (list_elem_of_here _ _)). congruence. }
  split; [exact Hiff|]. split; [done|].
  split; [|split; [|split; vm_compute; reflexivity]].
  - intros n a v annotations Hin Hget Hne.
    apply not_true_is_false. rewrite Hiff. intros Hall.
    specialize (Hall a Hin). congruence.
  - intros n a annotations Hin Hget.
    apply not_true_is_false. rewrite Hiff. intros Hall.
    specialize (Hall a Hin). congruence.
Qed.

Lemma hasAllAnnotations_iff_witness :
  hasAllAnnotations (node "a" [] [("hook", "false")]) ["other"; "hook"] = false.
Proof.
  refine (proj1 (proj2 (proj2 hasAllAnnotations_iff)) _ "hook" "false" _ _ _ _).
  - by right; left.
  - vm_compute. reflexivity.
  - discriminate.
Defined.


(** ** The API calls *)

Lemma disturb_calls (w : World) : calls (disturb w).2 = calls w.
Proof. unfold disturb. destruct (script w) as [|[| |? ? ?] ?]; reflexivity. Qed.

Lemma disturb_klog (w : World) : klog (disturb w).2 = klog w.
Proof. unfold disturb. destruct (script w) as [|[| |? ? ?] ?]; reflexivity. Qed.

Lemma disturb_quiet (w : World) : script w = [] → disturb w = (true, w).
Proof. unfold disturb. intros ->. reflexivity. Qed.

Lemma Get_calls (name : string) (w : World) :
  calls (nodes.Get name w).2 = calls w ++ [CallGet name].
Proof.
  unfold nodes.Get. pose proof (disturb_calls w) as Hc.
  destruct (disturb w) as [up w1]. cbn [snd] in Hc.
  destruct up; [destruct (getNode name _)|]; cbn; by rewrite Hc.
Qed.

Lemma List_calls (w : World) : calls (nodes.List w).2 = calls w ++ [CallList].
Proof.
  unfold nodes.List. pose proof (disturb_calls w) as Hc.
  destruct (disturb w) as [up w1]. cbn [snd] in Hc.
  destruct up; cbn; by rewrite Hc.
Qed.

Lemma Update_calls (n : Node) (w : World) :
  calls (nodes.Update n w).2
  = calls w ++ [CallUpdate n (bool_decide ((nodes.Update n w).1.2 = None))].
Proof.
  unfold nodes.Update. pose proof (disturb_calls w) as Hc.
  destruct (disturb w) as [up w1]. cbn [snd] in Hc.
  destruct up; [destruct (nodes.admits _ _)|]; cbn; by rewrite Hc.
Qed.

(** ** C1: the hook set that closes the post-reboot phase *)

(** C1: [checkAfterReboot] gates on and deletes the before-reboot hook set,
    not the after-reboot one.  With distinct hook sets, a node whose
    after-reboot hook is "true" is left in post-gating, and a node whose
    before-reboot hook is "true" leaves post-gating although its after-reboot
    hook is "false"; the after-reboot hook annotation is not deleted. *)
Theorem checkAfterReboot_gates_on_before_hooks :
  (∀ k : Kontroller,
      checkAfterReboot k
      = checkReboot afterRebootReq (beforeRebootAnnotations k)
          constants.LabelAfterReboot constants.False)
  ∧ hasAllAnnotations afterPassed (afterRebootAnnotations hooked) = true
  ∧ checkAfterReboot hooked (quiet [afterPassed])
    = (Done tt, mkWorld [afterPassed] [] [CallList] [])
  ∧ hasAllAnnotations beforePassedOnly (afterRebootAnnotations hooked) = false
  ∧ store (checkAfterReboot hooked (quiet [beforePassedOnly])).2
    = [ mkNode "a" 1 (Some ∅)
          (Some (list_to_map [("after-hook", "false"); ("ok-to-reboot", "false")]))
          false ].
Proof.
  split; [reflexivity|]. repeat split; vm_compute; reflexivity.
Qed.

(** ** C3: marking a node unschedulable *)

Lemma unschedulable_retry_calls (steps : nat) :
  ∀ (n : Node) (lastErr : option error) (w : World),
    ∃ cs : list Call,
      calls (retry.OnError steps IsConflict k8sutil.unschedulableAttempt n lastErr w).2
      = calls w ++ cs
      ∧ forallb (fun c => negb (isGet c)) cs = true.
Proof.
  induction steps as [|steps IH]; intros n lastErr w; cbn [retry.OnError].
  - exists []. rewrite app_nil_r. by destruct lastErr.
  - unfold k8sutil.unschedulableAttempt at 1.
    pose proof (Update_calls n w) as Hc.
    destruct (nodes.Update n w) as [[n1 [e|]] w1]; cbn [fst snd] in Hc.
    + destruct (IsConflict e).
      * destruct (IH n1 (Some e) w1) as (cs & Hcs & Hall).
        exists (CallUpdate n false :: cs). rewrite Hcs, Hc, <- app_assoc.
        split; [reflexivity | exact Hall].
      * exists [CallUpdate n false]. split; [exact Hc | reflexivity].
    + exists [CallUpdate n true]. split; [exact Hc | reflexivity].
Qed.

(** C3: [Unschedulable] reads the node once, before the retry loop; the
    retried closure only re-submits.  When another actor writes the node
    between the read and the first submission, the stale object is refused,
    the zero object returned with the error is what the second attempt
    submits, and the call fails with the flag unset, where [UpdateNodeRetry]
    reads again and succeeds. *)
Theorem Unschedulable_reads_once :
  (∀ (name : string) (sched : bool) (w : World),
      ∃ cs : list Call,
        calls (k8sutil.Unschedulable name sched w).2 = calls w ++ CallGet name :: cs
        ∧ forallb (fun c => negb (isGet c)) cs = true)
  ∧ k8sutil.Unschedulable "a" true racing
    = (Failed (Wrapped "unable to set Unschedulable property of node" NotFound),
       mkWorld [mkNode "a" 1 (Some ∅) (Some {[ "reboot-needed" := "true" ]}) false] []
         [CallGet "a";
          CallUpdate (mkNode "a" 0 (Some ∅) (Some ∅) true) false;
          CallUpdate zero false] [])
  ∧ k8sutil.UpdateNodeRetry "a" (fun n => Some (withUnschedulable n true)) racing
    = (Done tt,
       mkWorld [mkNode "a" 2 (Some ∅) (Some {[ "reboot-needed" := "true" ]}) true] []
         [CallGet "a";
          CallUpdate (mkNode "a" 0 (Some ∅) (Some ∅) true) false;
          CallGet "a";
          CallUpdate (mkNode "a" 1 (Some ∅) (Some {[ "reboot-needed" := "true" ]}) true) true]
         []).
Proof.
  split; [|split; vm_compute; reflexivity].
  intros name sched w. unfold k8sutil.Unschedulable.
  pose proof (Get_calls name w) as Hg.
  destruct (nodes.Get name w) as [[n|e|] w1]; cbn [snd] in Hg.
  - unfold retry.RetryOnConflict.
    destruct (unschedulable_retry_calls retry.DefaultBackoff
                (withUnschedulable n sched) None w1) as (cs & Hcs & Hall).
    exists cs. split; [|exact Hall].
    destruct (retry.OnError _ _ _ _ _ _) as [[n2 [[]|e|]] w2];
      cbn [snd] in *; by rewrite Hcs, Hg, <- app_assoc.
  - exists []. by split.
  - exists []. by split.
Qed.


(** ** Mutators as functions of the fetched object *)

Lemma deleteAll_nil (l : list string) : deleteAll l None = None.
Proof. induction l as [|a l IH]; [reflexivity | exact IH]. Qed.

Lemma deleteAll_Some (l : list string) (g : gmap string string) :
  ∃ g1, deleteAll l (Some g) = Some g1.
Proof.
  revert g. induction l as [|a l IH]; intros g; [by exists g|].
  exact (IH (delete a g)).
Qed.

Lemma get_deleteAll (l : list string) (m : gomap.t) (k : string) :
  gomap.get (deleteAll l m) k = if decide (k ∈ l) then None else gomap.get m k.
Proof.
  revert m. induction l as [|a l IH]; intros m.
  - cbn. by rewrite decide_False by apply not_elem_of_nil.
  - cbn [deleteAll foldl]. fold (deleteAll l (gomap.del a m)). rewrite IH.
    destruct (decide (k ∈ l)) as [Hin|Hnin].
    + rewrite decide_True by (by right). reflexivity.
    + destruct (decide (k = a)) as [->|Hne].
      * rewrite decide_True by (by left).
        destruct m as [g|]; cbn; [apply lookup_delete_eq | reflexivity].
      * rewrite decide_False by (intros [?|?]%elem_of_cons; done).
        destruct m as [g|]; cbn; [by apply lookup_delete_ne | reflexivity].
Qed.

Lemma run_app (p q : list Mutation) (n : Node) :
  run (p ++ q) n = match run p n with Some n1 => run q n1 | None => None end.
Proof.
  revert n. induction p as [|m p IH]; intros n; cbn [run app]; [reflexivity|].
  destruct (execute m n); [apply IH | reflexivity].
Qed.

Lemma run_deletions (l : list string) (n : Node) :
  run (List.map DeleteAnnotation l) n
  = Some (withAnnotations n (deleteAll l (Annotations n))).
Proof.
  revert n. induction l as [|a l IH]; intros n; cbn [run List.map execute].
  - by destruct n.
  - rewrite IH. reflexivity.
Qed.

Lemma run_markProgram (label : string) (annotations : list string) (n : Node) :
  run (markProgram label annotations) n
  = match Labels n with
    | None => None
    | Some g =>
        Some (mkNode (Name n) (ResourceVersion n) (Some (<[label:=constants.True]> g))
                (deleteAll annotations (Annotations n)) (Unschedulable n))
    end.
Proof.
  unfold markProgram. rewrite run_app, run_deletions. cbn.
  by destruct (Labels n).
Qed.

Lemma run_checkRebootProgram (annotations : list string) (label okToReboot : string)
    (n : Node) :
  run (checkRebootProgram annotations label okToReboot) n
  = match deleteAll annotations (Annotations n) with
    | None => None
    | Some g =>
        Some (mkNode (Name n) (ResourceVersion n) (gomap.del label (Labels n))
                (Some (<[constants.AnnotationOkToReboot:=okToReboot]> g))
                (Unschedulable n))
    end.
Proof.
  unfold checkRebootProgram. cbn [run execute]. rewrite run_app, run_deletions. cbn.
  by destruct (deleteAll annotations (Annotations n)).
Qed.

Lemma run_cleanupProgram (k : Kontroller) (n : Node) :
  cleanupMutator k n
  = Some (match gomap.get (Labels n) constants.LabelBeforeReboot with
          | Some _ =>
              if rebootable n then n
              else mkNode (Name n) (ResourceVersion n)
                     (gomap.del constants.LabelBeforeReboot (Labels n))
                     (deleteAll (beforeRebootAnnotations k) (Annotations n))
                     (Unschedulable n)
          | None => n
          end).
Proof.
  unfold cleanupMutator, cleanupProgram, rebootable.
  destruct (gomap.get (Labels n) constants.LabelBeforeReboot); [|reflexivity].
  destruct (fields.Matches rebootableSelector (Annotations n)); cbn [negb]; [reflexivity|].
  cbn [run execute]. rewrite run_deletions. reflexivity.
Qed.

Lemma run_annotation_assignments (m : list (string * string)) (n : Node) :
  run (List.map (fun kv => SetAnnotation kv.1 kv.2) m) n = None
  ↔ Annotations n = None ∧ m ≠ [].
Proof.
  revert n. induction m as [|[key v] m IH]; intros n; cbn [run List.map execute fst snd].
  - split; [discriminate | intros [_ H]; done].
  - destruct (Annotations n) as [g|] eqn:Hl; cbn.
    + rewrite IH. cbn. split; [intros [? _]; discriminate | intros [? _]; discriminate].
    + split; [done | reflexivity].
Qed.

Lemma run_assignments (m : list (string * string)) (n : Node) :
  run (List.map (fun kv => SetLabel kv.1 kv.2) m) n = None ↔ Labels n = None ∧ m ≠ [].
Proof.
  revert n. induction m as [|[key v] m IH]; intros n; cbn [run List.map execute fst snd].
  - split; [discriminate | intros [_ H]; done].
  - destruct (Labels n) as [g|] eqn:Hl; cbn.
    + rewrite IH. cbn. split; [intros [? _]; discriminate | intros [? _]; discriminate].
    + split; [done | reflexivity].
Qed.


(** ** Panics of the mutators *)

Lemma getNode_Some (name : string) (s : list Node) (n : Node) :
  getNode name s = Some n → n ∈ s ∧ Name n = name.
Proof.
  unfold getNode. intros H. apply List.find_some in H as [Hin Heq].
  split; [by apply list_elem_of_In | by apply String.eqb_eq].
Qed.

Lemma putNode_Forall (P : Node → Prop) (n : Node) (s : list Node) :
  P n → Forall P s → Forall P (putNode n s).
Proof.
  intros Hn Hs. unfold putNode. induction Hs as [|m s Hm Hs IH]; cbn; [constructor|].
  constructor; [by destruct (String.eqb _ _) | exact IH].
Qed.

Lemma disturb_keeps (Inv : Node → Prop) (w : World) :
  (∀ key value n, Inv n → Inv (annotated key value n)) →
  Forall Inv (store w) → Forall Inv (store (disturb w).2).
Proof.
  intros Hann Hs. unfold disturb.
  destruct (script w) as [|[| |name key value] rest]; cbn [snd store]; try exact Hs.
  destruct (getNode name (store w)) as [n|] eqn:Hget; [|exact Hs].
  apply putNode_Forall; [|exact Hs].
  apply getNode_Some in Hget as [Hin _].
  rewrite Forall_forall in Hs. apply Hann, Hs, Hin.
Qed.

Section Keeps.

Variable Inv : Node → Prop.
Hypothesis Inv_annotated : ∀ key value n, Inv n → Inv (annotated key value n).
Hypothesis Inv_version : ∀ n v, Inv n → Inv (withResourceVersion n v).

Section Update.

Variable name : string.
Variable f : Node → option Node.
Hypothesis f_total : ∀ n, Inv n → ∃ n1, f n = Some n1 ∧ Inv n1.

Lemma updateAttempt_keeps (w : World) :
  Forall Inv (store w) →
  (k8sutil.updateAttempt name f tt w).1.2 ≠ Panicked
  ∧ Forall Inv (store (k8sutil.updateAttempt name f tt w).2).
Proof.
  intros Hs. unfold k8sutil.updateAttempt, nodes.Get.
  pose proof (disturb_keeps Inv w Inv_annotated Hs) as H1.
  destruct (disturb w) as [up w1]. cbn [snd] in H1.
  destruct up; cbn [record store]; [|by split].
  destruct (getNode name (store w1)) as [n|] eqn:Hget; [|by split].
  apply getNode_Some in Hget as [Hin _].
  rewrite Forall_forall in H1. pose proof (H1 n Hin) as Hn.
  rewrite <- Forall_forall in H1.
  destruct (f_total n Hn) as (n1 & -> & Hn1).
  unfold nodes.Update.
  pose proof (disturb_keeps Inv (record (CallGet name) w1) Inv_annotated H1) as H2.
  destruct (disturb (record (CallGet name) w1)) as [up2 w2]. cbn [snd] in H2.
  destruct up2; [|by split].
  destruct (nodes.admits (store w2) n1); cbn; [by split|].
  split; [done|]. apply putNode_Forall; [|exact H2].
  by apply Inv_version.
Qed.

Lemma retry_keeps (steps : nat) :
  ∀ (lastErr : option error) (w : World),
    Forall Inv (store w) →
    (retry.OnError steps IsConflict (k8sutil.updateAttempt name f) tt lastErr w).1.2
      ≠ Panicked
    ∧ Forall Inv
        (store (retry.OnError steps IsConflict (k8sutil.updateAttempt name f) tt lastErr w).2).
Proof.
  induction steps as [|steps IH]; intros lastErr w Hs; cbn [retry.OnError].
  - by destruct lastErr.
  - destruct (updateAttempt_keeps w Hs) as [Hp Hs1].
    destruct (k8sutil.updateAttempt name f tt w) as [[[] [[]|e|]] w1];
      cbn [fst snd] in *; [by split | | done].
    destruct (IsConflict e); [by apply IH | by split].
Qed.

Lemma UpdateNodeRetry_keeps : keeps Inv (k8sutil.UpdateNodeRetry name f).
Proof.
  intros w Hs. unfold k8sutil.UpdateNodeRetry, retry.RetryOnConflict.
  destruct (retry_keeps retry.DefaultBackoff None w Hs) as [Hp Hs1].
  destruct (retry.OnError _ _ _ _ _ _) as [[[] [[]|e|]] w1]; cbn [fst snd] in *; by split.
Qed.

End Update.

Lemma keeps_wrap (context : string) (m : World → Outcome unit * World) :
  keeps Inv m → keeps Inv (wrap context m).
Proof.
  intros Hm w Hs. destruct (Hm w Hs) as [Hp Hs1]. unfold wrap.
  destruct (m w) as [[[]|e|] w1]; by split.
Qed.

Lemma keeps_forNodes (body : Node → World → Outcome unit * World) (l : list Node) :
  (∀ n, keeps Inv (body n)) → keeps Inv (forNodes body l).
Proof.
  intros Hbody. induction l as [|n l IH]; intros w Hs; cbn [forNodes]; [by split|].
  destruct (Hbody n w Hs) as [Hp Hs1].
  destruct (body n w) as [[[]|e|] w1]; cbn [fst snd] in *; [by apply IH | by split | done].
Qed.

Lemma keeps_listing (rest : list Node → World → Outcome unit * World) :
  (∀ items, keeps Inv (rest items)) → keeps Inv (listing rest).
Proof.
  intros Hrest w Hs. unfold listing, nodes.List.
  pose proof (disturb_keeps Inv w Inv_annotated Hs) as H1.
  destruct (disturb w) as [up w1]. cbn [snd] in H1.
  destruct up; [|by split]. by apply Hrest.
Qed.

Lemma keeps_orReturn (context : string) (phase rest : World → Outcome unit * World) :
  keeps Inv phase → keeps Inv rest → keeps Inv (orReturn context phase rest).
Proof.
  intros Hphase Hrest w Hs. unfold orReturn. destruct (Hphase w Hs) as [Hp Hs1].
  destruct (phase w) as [[[]|e|] w1]; cbn [fst snd] in *; [by apply Hrest | by split | done].
Qed.

End Keeps.

Lemma get_del (k k1 : string) (m : gomap.t) :
  gomap.get (gomap.del k m) k1 = if decide (k1 = k) then None else gomap.get m k1.
Proof.
  destruct m as [g|]; cbn.
  - destruct (decide (k1 = k)) as [->|Hne];
      [apply lookup_delete_eq | by apply lookup_delete_ne].
  - by destruct (decide (k1 = k)).
Qed.

(** The entries that anchor a node are out of the reach of the mutators
    and of the agents. *)
Lemma anchored_annotated (k : Kontroller) (key value : string) (n : Node) :
  anchored k n → anchored k (annotated key value n).
Proof.
  intros [Hl (a & Ha & Has)]. split; [exact Hl|]. exists a. split; [exact Ha|].
  unfold annotated. cbn. destruct (Annotations n) as [g|]; [|by destruct Has].
  cbn in *. destruct (decide (key = a)) as [->|Hne];
    [rewrite lookup_insert_eq; by eexists | by rewrite lookup_insert_ne].
Qed.

Lemma anchored_version (k : Kontroller) (n : Node) (v : nat) :
  anchored k n → anchored k (withResourceVersion n v).
Proof. intros H. exact H. Qed.

Lemma mark_anchored (k : Kontroller) (label : string) (annotations : list string)
    (n : Node) :
  (∀ a, a ∈ annotations →
        a ∈ beforeRebootAnnotations k ++ afterRebootAnnotations k) →
  anchored k n →
  ∃ n1, run (markProgram label annotations) n = Some n1 ∧ anchored k n1.
Proof.
  intros Hsub [(l & Hl1 & Hl2 & Hl) (a & Ha & Has)]. rewrite run_markProgram.
  destruct (Labels n) as [g|] eqn:Hg; [|by destruct Hl].
  eexists. split; [reflexivity|]. split.
  - exists l. split; [exact Hl1|]. split; [exact Hl2|]. cbn in *.
    destruct (decide (label = l)) as [->|Hne];
      [rewrite lookup_insert_eq; by eexists | by rewrite lookup_insert_ne].
  - exists a. split; [exact Ha|]. cbn [Annotations]. rewrite get_deleteAll.
    rewrite decide_False; [exact Has|]. intros Hin. by apply Ha, Hsub.
Qed.

Lemma checkReboot_anchored (k : Kontroller) (annotations : list string)
    (label okToReboot : string) (n : Node) :
  label = constants.LabelBeforeReboot ∨ label = constants.LabelAfterReboot →
  (∀ a, a ∈ annotations →
        a ∈ beforeRebootAnnotations k ++ afterRebootAnnotations k) →
  anchored k n →
  ∃ n1, run (checkRebootProgram annotations label okToReboot) n = Some n1
        ∧ anchored k n1.
Proof.
  intros Hlabel Hsub [(l & Hl1 & Hl2 & Hl) (a & Ha & Has)].
  rewrite run_checkRebootProgram.
  pose proof (get_deleteAll annotations (Annotations n) a) as Hdel.
  rewrite decide_False in Hdel by (intros Hin; by apply Ha, Hsub).
  destruct (deleteAll annotations (Annotations n)) as [g|] eqn:Hg;
    [|rewrite <- Hdel in Has; by destruct Has].
  eexists. split; [reflexivity|]. split.
  - exists l. split; [exact Hl1|]. split; [exact Hl2|]. cbn [Labels].
    rewrite get_del. rewrite decide_False; [exact Hl|].
    destruct Hlabel; congruence.
  - exists a. split; [exact Ha|]. cbn in *.
    destruct (decide (constants.AnnotationOkToReboot = a)) as [->|Hne];
      [rewrite lookup_insert_eq; by eexists|].
    rewrite lookup_insert_ne by done. by rewrite Hdel.
Qed.

Lemma cleanup_anchored (k : Kontroller) (n : Node) :
  anchored k n → ∃ n1, cleanupMutator k n = Some n1 ∧ anchored k n1.
Proof.
  intros Hn. rewrite run_cleanupProgram. eexists. split; [reflexivity|].
  destruct (gomap.get (Labels n) constants.LabelBeforeReboot); [|exact Hn].
  destruct (rebootable n); [exact Hn|].
  destruct Hn as [(l & Hl1 & Hl2 & Hl) (a & Ha & Has)]. split.
  - exists l. split; [exact Hl1|]. split; [exact Hl2|]. cbn [Labels].
    rewrite get_del. by rewrite decide_False.
  - exists a. split; [exact Ha|]. cbn [Annotations]. rewrite get_deleteAll.
    rewrite decide_False; [exact Has|]. intros Hin. apply Ha, elem_of_app. by left.
Qed.

Lemma app_l_subset (l1 l2 : list string) (a : string) : a ∈ l1 → a ∈ l1 ++ l2.
Proof. intros H. apply elem_of_app. by left. Qed.

Lemma app_r_subset (l1 l2 : list string) (a : string) : a ∈ l2 → a ∈ l1 ++ l2.
Proof. intros H. apply elem_of_app. by right. Qed.

Lemma mark_keeps (k : Kontroller) (nodeName label : string) (annotations : list string) :
  (∀ a, a ∈ annotations →
        a ∈ beforeRebootAnnotations k ++ afterRebootAnnotations k) →
  keeps (anchored k) (mark nodeName label annotations).
Proof.
  intros Hsub. apply keeps_wrap, UpdateNodeRetry_keeps.
  - apply anchored_annotated.
  - apply anchored_version.
  - intros n. by apply mark_anchored.
Qed.

Lemma checkReboot_keeps (k : Kontroller) (req : labels.Requirement)
    (annotations : list string) (label okToReboot : string) :
  label = constants.LabelBeforeReboot ∨ label = constants.LabelAfterReboot →
  (∀ a, a ∈ annotations →
        a ∈ beforeRebootAnnotations k ++ afterRebootAnnotations k) →
  keeps (anchored k) (checkReboot req annotations label okToReboot).
Proof.
  intros Hlabel Hsub.
  apply keeps_listing; [apply anchored_annotated|]. intros items.
  apply keeps_forNodes. intros n w Hs.
  unfold checkRebootNode. destruct (hasAllAnnotations n annotations); [|by split].
  revert w Hs. apply keeps_wrap, UpdateNodeRetry_keeps.
  - apply anchored_annotated.
  - apply anchored_version.
  - intros m. by apply checkReboot_anchored.
Qed.

(** A tick on anchored nodes does not panic, whatever the rest of the
    cluster does, and leaves the nodes anchored. *)
Lemma process_keeps (k : Kontroller) (now1 now2 : Z) :
  keeps (anchored k) (process k now1 now2).
Proof.
  unfold process. repeat apply keeps_orReturn.
  - apply keeps_listing; [apply anchored_annotated|]. intros items.
    apply keeps_forNodes. intros n.
    apply keeps_wrap, UpdateNodeRetry_keeps.
    + apply anchored_annotated.
    + apply anchored_version.
    + apply cleanup_anchored.
  - apply checkReboot_keeps; [by right | apply app_l_subset].
  - apply keeps_listing; [apply anchored_annotated|]. intros items.
    apply keeps_forNodes. intros n.
    apply keeps_wrap, mark_keeps, app_r_subset.
  - apply checkReboot_keeps; [by left | apply app_l_subset].
  - apply keeps_listing; [apply anchored_annotated|]. intros items w Hs.
    destruct (outsideRebootWindow k now1 now2); [by split|].
    destruct (Nat.leb _ _); [by split|].
    destruct (Nat.eqb _ _); [by split|].
    revert w Hs. apply keeps_forNodes. intros n.
    apply keeps_wrap, mark_keeps, app_l_subset.
  - intros w Hs. by split.
Qed.

Lemma process_never_fails (k : Kontroller) (now1 now2 : Z) (w : World) :
  (process k now1 now2 w).1 = Done tt ∨ (process k now1 now2 w).1 = Panicked.
Proof.
  unfold process, orReturn.
  repeat match goal with
         | |- context [match ?m ?w0 with _ => _ end] =>
             destruct (m w0) as [[[]|?|] ?]; cbn [fst]; auto
         end.
Qed.


(** C10, as the code has it: the mutator of [mark] assigns into the Labels
    map and panics exactly when that map is nil; the mutator of
    [checkReboot] assigns into the Annotations map and panics exactly when
    that map is nil; the loops of [SetNodeLabels] and [SetNodeAnnotations]
    panic exactly when their map is nil and there is an entry to set.  The
    mutator of [cleanupState] only reads and deletes and never panics.  Both
    panics are reached by a tick.  No tick panics, whatever the agents write
    and whichever calls fail, when every node of the cluster carries a label
    that is neither before-reboot nor after-reboot and an annotation that is
    no configured hook annotation: these entries are out of the reach of
    the mutators, so that no map is nil or left without entries, and the
    nodes still carry them after the tick. *)
Theorem mutator_panics (k : Kontroller) (label okToReboot : string)
    (annotations : list string) (n : Node) :
  (run (markProgram label annotations) n = None ↔ Labels n = None)
  ∧ (run (checkRebootProgram annotations label okToReboot) n = None
     ↔ Annotations n = None)
  ∧ (∀ m : list (string * string),
       run (List.map (fun kv => SetLabel kv.1 kv.2) m) n = None
       ↔ Labels n = None ∧ m ≠ [])
  ∧ (∀ m : list (string * string),
       run (List.map (fun kv => SetAnnotation kv.1 kv.2) m) n = None
       ↔ Annotations n = None ∧ m ≠ [])
  ∧ (k8sutil.SetNodeLabels "a" [("key", "value")] (quiet [bare])).1 = Panicked
  ∧ (k8sutil.SetNodeAnnotations "a" [("key", "value")] (quiet [bare])).1 = Panicked
  ∧ is_Some (cleanupMutator k n)
  ∧ (process hooked 0 0 (quiet [unlabeled])).1 = Panicked
  ∧ (process unhooked 0 0 (quiet [unannotated])).1 = Panicked
  ∧ (∀ (now1 now2 : Z) (w : World),
       Forall (anchored k) (store w) →
       (process k now1 now2 w).1 = Done tt
       ∧ Forall (anchored k) (store (process k now1 now2 w).2)).
Proof.
  split; [|split; [|split; [|split; [|split; [|split; [|split; [|split; [|split]]]]]]]].
  - rewrite run_markProgram. destruct (Labels n); split; done.
  - rewrite run_checkRebootProgram.
    destruct (Annotations n) as [a|].
    + destruct (deleteAll_Some annotations a) as [g1 ->]. split; done.
    + rewrite deleteAll_nil. split; done.
  - intros m. apply run_assignments.
  - intros m. apply run_annotation_assignments.
  - vm_compute. reflexivity.
  - vm_compute. reflexivity.
  - rewrite run_cleanupProgram. by eexists.
  - vm_compute. reflexivity.
  - vm_compute. reflexivity.
  - intros now1 now2 w Hs.
    destruct (process_keeps k now1 now2 w Hs) as [Hp Hs1]. split; [|exact Hs1].
    destruct (process_never_fails k now1 now2 w) as [H|H]; [exact H | done].
Qed.

Lemma anchored_examples : anchored hooked homed ∧ anchored hooked lodged.
Proof.
  split; (split; [exists "kubernetes.io/hostname" | exists "reboot-needed"]).
  all: repeat split; try discriminate; try (by eexists).
  all: intros [Hin|Hin]%elem_of_app; apply list_elem_of_singleton in Hin;
    discriminate Hin.
Qed.

Lemma mutator_panics_witness :
  (process hooked 0 0 (mkWorld [homed; lodged] [Annotate "a" "before-hook" "true"] [] [])).1
  = Done tt.
Proof.
  apply (mutator_panics hooked "" "" [] bare).
  destruct anchored_examples as [Ha Hb].
  constructor; [exact Ha|]. constructor; [exact Hb|]. constructor.
Defined.

(** C10, as stated, fails on the mutator of [cleanupState]: on a node with
    neither map it returns the node, and on a node that carries the
    before-reboot label and has no annotation map it deletes the label and
    returns. *)
Lemma cleanupMutator_survives_nil_maps :
  cleanupMutator hooked bare = Some bare
  ∧ cleanupMutator hooked staleGate = Some (mkNode "a" 0 (Some ∅) None false).
Proof. split; vm_compute; reflexivity. Qed.


(** ** C4: one submission per update *)

Lemma lookup_deletions (l : list string) (i : nat) (m : Mutation) :
  List.map DeleteAnnotation l !! i = Some m →
  i < length l ∧ ∃ a, m = DeleteAnnotation a ∧ l !! i = Some a.
Proof.
  change (List.map DeleteAnnotation l) with (DeleteAnnotation <$> l).
  rewrite list_lookup_fmap. destruct (l !! i) as [a|] eqn:Hl; [|done].
  intros [= <-]. split; [by eapply lookup_lt_Some | by exists a].
Qed.

Lemma markProgram_order (label : string) (annotations : list string)
    (i j : nat) (a v : string) :
  markProgram label annotations !! i = Some (DeleteAnnotation a) →
  markProgram label annotations !! j = Some (SetLabel label v) →
  i < j.
Proof.
  unfold markProgram. intros Hi Hj.
  assert (length (List.map DeleteAnnotation annotations) = length annotations) as Hlen
    by apply List.length_map.
  assert (i < length annotations) as Hlt.
  { destruct (decide (i < length annotations)) as [|Hge]; [done|].
    rewrite lookup_app_r in Hi by lia. rewrite Hlen in Hi.
    destruct (i - length annotations) as [|?]; cbn in Hi; done. }
  destruct (decide (j < length annotations)) as [Hj1|]; [|lia].
  rewrite lookup_app_l in Hj by lia.
  apply lookup_deletions in Hj as (_ & b & Hb & _). done.
Qed.

Lemma checkRebootProgram_order (annotations : list string) (label okToReboot : string) :
  checkRebootProgram annotations label okToReboot !! 0 = Some (DeleteLabel label)
  ∧ checkRebootProgram annotations label okToReboot !! (S (length annotations))
    = Some (SetAnnotation constants.AnnotationOkToReboot okToReboot)
  ∧ length (checkRebootProgram annotations label okToReboot) = S (S (length annotations))
  ∧ ∀ (i : nat) (a : string),
      checkRebootProgram annotations label okToReboot !! i = Some (DeleteAnnotation a) →
      0 < i < S (length annotations).
Proof.
  unfold checkRebootProgram.
  assert (length (List.map DeleteAnnotation annotations) = length annotations) as Hlen
    by apply List.length_map.
  split; [reflexivity|]. split; [|split].
  - rewrite <- lookup_tail. cbn [tail]. rewrite lookup_app_r by lia.
    rewrite Hlen, Nat.sub_diag. reflexivity.
  - cbn [length]. rewrite length_app, Hlen. cbn. lia.
  - intros i a Hi. destruct i as [|i]; [done|].
    rewrite <- lookup_tail in Hi. cbn [tail] in Hi.
    split; [lia|].
    destruct (decide (i < length annotations)) as [|Hge]; [lia|].
    rewrite lookup_app_r in Hi by lia. rewrite Hlen in Hi.
    destruct (i - length annotations) as [|?]; cbn in Hi; done.
Qed.

Section Submissions.

Variable name : string.
Variable f : Node → option Node.

(** What an attempt adds to the calls: a read, and then at most one
    submission, of the object the mutator returned. *)
Lemma updateAttempt_calls (w : World) :
  ∃ cs : list Call,
    calls (k8sutil.updateAttempt name f tt w).2 = calls w ++ cs
    ∧ (∀ n1 acc, CallUpdate n1 acc ∈ cs → ∃ n, f n = Some n1)
    ∧ length (List.filter accepted cs)
      = match (k8sutil.updateAttempt name f tt w).1.2 with
        | Done _ => 1
        | _ => 0
        end.
Proof.
  unfold k8sutil.updateAttempt.
  pose proof (Get_calls name w) as Hg.
  destruct (nodes.Get name w) as [[n|e|] w1]; cbn [snd] in Hg.
  - destruct (f n) as [n1|] eqn:Hf.
    + pose proof (Update_calls n1 w1) as Hu.
      destruct (nodes.Update n1 w1) as [[n2 [e|]] w2]; cbn [fst snd] in *.
      * exists [CallGet name; CallUpdate n1 false].
        rewrite Hu, Hg, <- app_assoc. split; [reflexivity|]. split; [|reflexivity].
        intros n3 acc Hin. apply elem_of_cons in Hin as [|Hin]; [done|].
        apply list_elem_of_singleton in Hin as [= -> _]. by exists n.
      * exists [CallGet name; CallUpdate n1 true].
        rewrite Hu, Hg, <- app_assoc. split; [reflexivity|]. split; [|reflexivity].
        intros n3 acc Hin. apply elem_of_cons in Hin as [|Hin]; [done|].
        apply list_elem_of_singleton in Hin as [= -> _]. by exists n.
    + exists [CallGet name]. split; [exact Hg|]. split; [|reflexivity].
      intros n3 acc Hin. by apply list_elem_of_singleton in Hin.
  - exists [CallGet name]. split; [exact Hg|]. split; [|reflexivity].
    intros n3 acc Hin. by apply list_elem_of_singleton in Hin.
  - exists [CallGet name]. split; [exact Hg|]. split; [|reflexivity].
    intros n3 acc Hin. by apply list_elem_of_singleton in Hin.
Qed.

Lemma retry_calls (steps : nat) :
  ∀ (lastErr : option error) (w : World),
    (steps = 0 → lastErr ≠ None) →
    ∃ cs : list Call,
      calls (retry.OnError steps IsConflict (k8sutil.updateAttempt name f) tt lastErr w).2
      = calls w ++ cs
      ∧ (∀ n1 acc, CallUpdate n1 acc ∈ cs → ∃ n, f n = Some n1)
      ∧ length (List.filter accepted cs)
        = match (retry.OnError steps IsConflict (k8sutil.updateAttempt name f)
                   tt lastErr w).1.2 with
          | Done _ => 1
          | _ => 0
          end.
Proof.
  induction steps as [|steps IH]; intros lastErr w Hlast; cbn [retry.OnError].
  - destruct lastErr as [e|]; [|by destruct Hlast].
    exists []. rewrite app_nil_r. split; [reflexivity|]. split; [|reflexivity].
    intros n1 acc Hin. by apply not_elem_of_nil in Hin.
  - destruct (updateAttempt_calls w) as (cs & Hcs & Hsub & Hacc).
    destruct (k8sutil.updateAttempt name f tt w) as [[[] [[]|e|]] w1];
      cbn [fst snd] in *; [by exists cs | | by exists cs].
    destruct (IsConflict e); [|by exists cs].
    destruct (IH (Some e) w1) as (cs1 & Hcs1 & Hsub1 & Hacc1); [done|].
    exists (cs ++ cs1). rewrite Hcs1, Hcs, <- app_assoc. split; [reflexivity|].
    split.
    + intros n1 acc Hin. apply elem_of_app in Hin as [Hin|Hin]; eauto.
    + rewrite List.filter_app, length_app, Hacc, Hacc1. reflexivity.
Qed.

Lemma UpdateNodeRetry_calls (w : World) :
  ∃ cs : list Call,
    calls (k8sutil.UpdateNodeRetry name f w).2 = calls w ++ cs
    ∧ (∀ n1 acc, CallUpdate n1 acc ∈ cs → ∃ n, f n = Some n1)
    ∧ length (List.filter accepted cs)
      = match (k8sutil.UpdateNodeRetry name f w).1 with
        | Done _ => 1
        | _ => 0
        end.
Proof.
  unfold k8sutil.UpdateNodeRetry, retry.RetryOnConflict.
  destruct (retry_calls retry.DefaultBackoff None w) as (cs & Hcs & Hsub & Hacc);
    [done|].
  exists cs.
  destruct (retry.OnError _ _ _ _ _ _) as [[[] [[]|e|]] w1]; cbn [fst snd] in *; done.
Qed.

End Submissions.

(** C4, as the code has it: each update of [mark] and of [checkReboot] is
    one mutator run on a freshly read object and submitted whole, so every
    submission carries the label change, the deletion of every hook
    annotation and the written value together, and exactly one submission is
    accepted when the update succeeds (none otherwise).  In [mark] every
    hook-annotation deletion precedes the label write; in [checkReboot] the
    label deletion comes first, the hook-annotation deletions follow, and
    the ok-to-reboot write comes last. *)
Theorem single_submission (name label okToReboot : string) (annotations : list string)
    (w : World) :
  (∀ (i j : nat) (a v : string),
      markProgram label annotations !! i = Some (DeleteAnnotation a) →
      markProgram label annotations !! j = Some (SetLabel label v) →
      i < j)
  ∧ (checkRebootProgram annotations label okToReboot !! 0 = Some (DeleteLabel label)
     ∧ checkRebootProgram annotations label okToReboot !! (S (length annotations))
       = Some (SetAnnotation constants.AnnotationOkToReboot okToReboot)
     ∧ length (checkRebootProgram annotations label okToReboot)
       = S (S (length annotations))
     ∧ ∀ (i : nat) (a : string),
         checkRebootProgram annotations label okToReboot !! i
         = Some (DeleteAnnotation a) →
         0 < i < S (length annotations))
  ∧ (∃ cs : list Call,
       calls (mark name label annotations w).2 = calls w ++ cs
       ∧ (∀ n1 acc, CallUpdate n1 acc ∈ cs →
            gomap.get (Labels n1) label = Some "true"
            ∧ ∀ a, a ∈ annotations → gomap.get (Annotations n1) a = None)
       ∧ length (List.filter accepted cs)
         = match (mark name label annotations w).1 with
           | Done _ => 1
           | _ => 0
           end)
  ∧ (∃ cs : list Call,
       calls (k8sutil.UpdateNodeRetry name
                (run (checkRebootProgram annotations label okToReboot)) w).2
       = calls w ++ cs
       ∧ (∀ n1 acc, CallUpdate n1 acc ∈ cs →
            gomap.get (Labels n1) label = None
            ∧ gomap.get (Annotations n1) constants.AnnotationOkToReboot
              = Some okToReboot
            ∧ ∀ a, a ∈ annotations → a ≠ constants.AnnotationOkToReboot →
                gomap.get (Annotations n1) a = None)
       ∧ length (List.filter accepted cs)
         = match (k8sutil.UpdateNodeRetry name
                    (run (checkRebootProgram annotations label okToReboot)) w).1 with
           | Done _ => 1
           | _ => 0
           end).
Proof.
  split; [intros i j a v; apply markProgram_order|].
  split; [apply checkRebootProgram_order|]. split.
  - destruct (UpdateNodeRetry_calls name (run (markProgram label annotations)) w)
      as (cs & Hcs & Hsub & Hacc).
    exists cs. unfold mark, wrap.
    destruct (k8sutil.UpdateNodeRetry _ _ w) as [[[]|e|] w1]; cbn [fst snd] in *;
      (split; [exact Hcs|]; split; [|exact Hacc]);
      intros n1 acc Hin; destruct (Hsub n1 acc Hin) as (n & Hrun);
      rewrite run_markProgram in Hrun;
      (destruct (Labels n) as [g|]; [|done]); injection Hrun as <-; cbn;
      (split; [apply lookup_insert_eq|]);
      intros a Ha; rewrite get_deleteAll; by rewrite decide_True.
  - destruct (UpdateNodeRetry_calls name
                (run (checkRebootProgram annotations label okToReboot)) w)
      as (cs & Hcs & Hsub & Hacc).
    exists cs. split; [exact Hcs|]. split; [|exact Hacc].
    intros n1 acc Hin. destruct (Hsub n1 acc Hin) as (n & Hrun).
    rewrite run_checkRebootProgram in Hrun.
    destruct (deleteAll annotations (Annotations n)) as [g|] eqn:Hdel; [|done].
    injection Hrun as <-. cbn. split; [|split].
    + destruct (Labels n); cbn; [apply lookup_delete_eq | reflexivity].
    + apply lookup_insert_eq.
    + intros a Ha Hne. rewrite lookup_insert_ne by done.
      pose proof (get_deleteAll annotations (Annotations n) a) as Hget.
      rewrite Hdel, decide_True in Hget by done. exact Hget.
Qed.

Lemma single_submission_witness :
  ∃ cs : list Call,
    calls (mark "a" "before-reboot" ["before-hook"] racing).2 = calls racing ++ cs
    ∧ length (List.filter accepted cs) = 1.
Proof.
  destruct (single_submission "a" "before-reboot" "true" ["before-hook"] racing)
    as (_ & _ & (cs & Hcs & _ & Hacc) & _).
  exists cs. split; [exact Hcs | exact Hacc].
Defined.

(** C4, as stated, fails on the order of [checkReboot]: with one hook
    annotation the label deletion is the first statement of the mutator and
    the hook-annotation deletion the second. *)
Lemma checkReboot_deletes_label_first :
  checkRebootProgram ["before-hook"] "before-reboot" "true"
  = [ DeleteLabel "before-reboot";
      DeleteAnnotation "before-hook";
      SetAnnotation "ok-to-reboot" "true" ].
Proof. reflexivity. Qed.


(** ** C7: errors within a tick *)






(** ** C6: the reboot window *)

(** C6: with a window configured, a tick whose clock is outside the previous
    occurrence of the window leaves [markBeforeReboot] with its listing as
    the only call, so that no node is labeled (the store is as the other
    actors left it); without a window the guard lets every clock reading
    pass, and within the occurrence it does too. *)
Theorem reboot_window_guard (k : Kontroller) (now1 now2 : Z) (w : World) :
  (∀ rw : timeutil.Periodic,
      rebootWindow k = Some rw →
      (timeutil.PeriodStart (timeutil.Previous rw now1) ≤ now1)%Z →
      (now1 ≤ now2)%Z →
      ¬ (timeutil.PeriodStart (timeutil.Previous rw now1) ≤ now2
         < timeutil.PeriodEnd (timeutil.Previous rw now1))%Z →
      outsideRebootWindow k now1 now2 = true
      ∧ (markBeforeReboot k now1 now2 w).2 = (nodes.List w).2
      ∧ calls (markBeforeReboot k now1 now2 w).2 = calls w ++ [CallList]
      ∧ store (markBeforeReboot k now1 now2 w).2 = store (disturb w).2
      ∧ (markBeforeReboot k now1 now2 w).1 ≠ Panicked)
  ∧ (rebootWindow k = None → outsideRebootWindow k now1 now2 = false)
  ∧ (∀ rw : timeutil.Periodic,
      rebootWindow k = Some rw →
      (now2 < timeutil.PeriodEnd (timeutil.Previous rw now1))%Z →
      outsideRebootWindow k now1 now2 = false).
Proof.
  split; [|split].
  - intros rw Hrw Hstart Hmono Hout.
    assert (outsideRebootWindow k now1 now2 = true) as Hguard.
    { unfold outsideRebootWindow. rewrite Hrw.
      apply negb_true_iff, Z.ltb_ge. lia. }
    assert ((markBeforeReboot k now1 now2 w).2 = (nodes.List w).2
            ∧ (markBeforeReboot k now1 now2 w).1 ≠ Panicked) as [Hw Hp].
    { unfold markBeforeReboot, listing. rewrite Hguard.
      unfold nodes.List. destruct (disturb w) as [[] w1]; by split. }
    split; [exact Hguard|]. split; [exact Hw|].
    rewrite Hw. split; [apply List_calls|]. split; [|exact Hp].
    unfold nodes.List. by destruct (disturb w) as [[] w1].
  - intros Hnone. unfold outsideRebootWindow. by rewrite Hnone.
  - intros rw Hrw Hin. unfold outsideRebootWindow. rewrite Hrw.
    apply negb_false_iff, Z.ltb_lt. exact Hin.
Qed.

Lemma reboot_window_guard_witness :
  calls (markBeforeReboot windowed 7140 7140
           (quiet [node "a" [] [("reboot-needed", "true")]])).2
  = [CallList].
Proof.
  refine (proj1 (proj2 (proj2
    (proj1 (reboot_window_guard windowed 7140 7140
              (quiet [node "a" [] [("reboot-needed", "true")]]))
       nightly eq_refl _ _ _)))).
  - vm_compute. discriminate.
  - lia.
  - vm_compute. intros [_ H2]. discriminate H2.
Defined.


(** ** Updates in a cluster where nobody else acts *)

Lemma getNode_skip (name : string) (pre suf : list Node) :
  name ∉ List.map Name pre → getNode name (pre ++ suf) = getNode name suf.
Proof.
  induction pre as [|m pre IH]; intros Hnin; [reflexivity|].
  cbn [List.map] in Hnin. apply not_elem_of_cons in Hnin as [Hne Hnin].
  unfold getNode. cbn [app List.find].
  destruct (String.eqb_spec (Name m) name) as [Heq|_]; [by destruct Hne|].
  by apply IH.
Qed.

Lemma getNode_here (n : Node) (suf : list Node) : getNode (Name n) (n :: suf) = Some n.
Proof. unfold getNode. cbn [List.find]. by rewrite String.eqb_refl. Qed.

Lemma putNode_skip (n : Node) (s : list Node) :
  Name n ∉ List.map Name s → putNode n s = s.
Proof.
  induction s as [|m s IH]; intros Hnin; [reflexivity|].
  cbn [List.map] in Hnin. apply not_elem_of_cons in Hnin as [Hne Hnin].
  unfold putNode. cbn [List.map].
  destruct (String.eqb_spec (Name m) (Name n)) as [Heq|_]; [by destruct Hne|].
  f_equal. by apply IH.
Qed.

Lemma putNode_middle (n n1 : Node) (pre suf : list Node) :
  Name n1 = Name n →
  NoDup (List.map Name (pre ++ n :: suf)) →
  putNode n1 (pre ++ n :: suf) = pre ++ n1 :: suf.
Proof.
  intros Hname Hnd. rewrite List.map_app in Hnd. cbn [List.map] in Hnd.
  apply NoDup_app in Hnd as (_ & Hsep & Hsuf).
  apply NoDup_cons in Hsuf as [Hnin _].
  unfold putNode. rewrite List.map_app. cbn [List.map].
  rewrite Hname, String.eqb_refl. f_equal; [|f_equal].
  - rewrite <- Hname. apply putNode_skip. rewrite Hname.
    intros Hin. apply (Hsep _ Hin). by left.
  - rewrite <- Hname. apply putNode_skip. by rewrite Hname.
Qed.

Lemma getNode_middle (n : Node) (pre suf : list Node) :
  NoDup (List.map Name (pre ++ n :: suf)) →
  getNode (Name n) (pre ++ n :: suf) = Some n.
Proof.
  intros Hnd. rewrite List.map_app in Hnd. cbn [List.map] in Hnd.
  apply NoDup_app in Hnd as (_ & Hsep & _).
  rewrite getNode_skip; [apply getNode_here|].
  intros Hin. apply (Hsep _ Hin). by left.
Qed.

Lemma run_preserves (p : list Mutation) :
  ∀ n n1 : Node,
    run p n = Some n1 →
    Name n1 = Name n
    ∧ ResourceVersion n1 = ResourceVersion n
    ∧ Unschedulable n1 = Unschedulable n.
Proof.
  induction p as [|m p IH]; intros n n1; cbn [run].
  - by intros [= <-].
  - destruct (execute m n) as [n2|] eqn:Hm; [|done]. intros Hrun.
    destruct (IH _ _ Hrun) as (-> & -> & ->).
    destruct m as [key|key|key v|key v]; cbn in Hm.
    + by injection Hm as <-.
    + by injection Hm as <-.
    + destruct (gomap.assign key v (Labels n)); [|done]. by injection Hm as <-.
    + destruct (gomap.assign key v (Annotations n)); [|done]. by injection Hm as <-.
Qed.

Section QuietUpdate.

Variable name : string.
Variable f : Node → option Node.
Variable w : World.
Variable n : Node.
Hypothesis quiet_script : script w = [].
Hypothesis fetched : getNode name (store w) = Some n.

Lemma Get_quiet : nodes.Get name w = (Done n, record (CallGet name) w).
Proof.
  unfold nodes.Get. rewrite disturb_quiet by done. cbn -[getNode].
  by rewrite fetched.
Qed.

Lemma UpdateNodeRetry_quiet_panic :
  f n = None → k8sutil.UpdateNodeRetry name f w = (Panicked, record (CallGet name) w).
Proof.
  intros Hf. unfold k8sutil.UpdateNodeRetry, retry.RetryOnConflict, retry.DefaultBackoff.
  cbn [retry.OnError]. unfold k8sutil.updateAttempt. by rewrite Get_quiet, Hf.
Qed.

Lemma UpdateNodeRetry_quiet (n1 : Node) :
  f n = Some n1 →
  Name n1 = Name n →
  ResourceVersion n1 = ResourceVersion n →
  ∃ w1 : World,
    k8sutil.UpdateNodeRetry name f w = (Done tt, w1)
    ∧ store w1 = putNode (updated f n) (store w)
    ∧ script w1 = []
    ∧ klog w1 = klog w.
Proof.
  intros Hf Hname Hrv.
  unfold k8sutil.UpdateNodeRetry, retry.RetryOnConflict, retry.DefaultBackoff.
  cbn [retry.OnError]. unfold k8sutil.updateAttempt. rewrite Get_quiet, Hf.
  unfold nodes.Update. rewrite disturb_quiet by (cbn; done).
  unfold nodes.admits. cbn [record store].
  destruct (getNode_Some _ _ _ fetched) as [_ Hn].
  rewrite Hname, Hn, fetched, Hrv, Nat.eqb_refl.
  eexists. split; [reflexivity|]. unfold updated. rewrite Hf, Hrv. cbn.
  by rewrite quiet_script.
Qed.

End QuietUpdate.

Lemma List_quiet (w : World) :
  script w = [] → nodes.List w = (Done (store w), record CallList w).
Proof. intros Hq. unfold nodes.List. by rewrite disturb_quiet. Qed.

(** ** C5: cleanup of stale pre-gating *)

Lemma cleanupMutator_preserves (k : Kontroller) (n n1 : Node) :
  cleanupMutator k n = Some n1 →
  Name n1 = Name n ∧ ResourceVersion n1 = ResourceVersion n.
Proof.
  unfold cleanupMutator. intros Hrun.
  by destruct (run_preserves _ _ _ Hrun) as (? & ? & _).
Qed.

Lemma updated_cleanup_Name (k : Kontroller) (n : Node) :
  Name (updated (cleanupMutator k) n) = Name n.
Proof.
  unfold updated. destruct (cleanupMutator k n) as [n1|] eqn:Hc; [|reflexivity].
  apply cleanupMutator_preserves in Hc as [Hname _]. exact Hname.
Qed.

Lemma cleanup_loop (k : Kontroller) :
  ∀ (suf pre : list Node) (w : World),
    script w = [] →
    store w = pre ++ suf →
    NoDup (List.map Name (pre ++ suf)) →
    ∃ w1 : World,
      forNodes (fun n =>
        wrap "cleaning up node" (k8sutil.UpdateNodeRetry (Name n) (cleanupMutator k)))
        suf w = (Done tt, w1)
      ∧ store w1 = pre ++ List.map (updated (cleanupMutator k)) suf
      ∧ script w1 = []
      ∧ klog w1 = klog w.
Proof.
  induction suf as [|n suf IH]; intros pre w Hq Hs Hnd; cbn [forNodes List.map].
  - by exists w.
  - assert (getNode (Name n) (store w) = Some n) as Hget
      by (rewrite Hs; by apply getNode_middle).
    destruct (cleanupMutator k n) as [n1|] eqn:Hc;
      [|by rewrite run_cleanupProgram in Hc].
    destruct (cleanupMutator_preserves _ _ _ Hc) as [Hname Hrv].
    destruct (UpdateNodeRetry_quiet (Name n) (cleanupMutator k) w n Hq Hget n1
                Hc Hname Hrv) as (w1 & Hupd & Hs1 & Hq1 & Hk1).
    unfold wrap at 1. rewrite Hupd.
    assert (Name (updated (cleanupMutator k) n) = Name n) as Hname'
      by apply updated_cleanup_Name.
    rewrite Hs, (putNode_middle n _ pre suf Hname' Hnd) in Hs1.
    destruct (IH (pre ++ [updated (cleanupMutator k) n]) w1 Hq1) as (w2 & Hloop & Hs2 & Hq2 & Hk2).
    + by rewrite <- app_assoc.
    + rewrite <- app_assoc. cbn [app]. rewrite List.map_app in *. cbn [List.map] in *.
      by rewrite Hname'.
    + exists w2. split; [exact Hloop|]. rewrite Hs2, <- app_assoc.
      split; [reflexivity|]. split; [exact Hq2 | congruence].
Qed.

Lemma getNode_map (h : Node → Node) (s : list Node) (n : Node) :
  (∀ m, Name (h m) = Name m) →
  NoDup (List.map Name s) →
  n ∈ s →
  getNode (Name n) (List.map h s) = Some (h n).
Proof.
  intros Hh Hnd Hin. apply list_elem_of_split in Hin as (pre & suf & ->).
  rewrite List.map_app. cbn [List.map]. rewrite <- (Hh n).
  apply getNode_middle.
  rewrite List.map_app. cbn [List.map]. rewrite !List.map_map.
  rewrite (List.map_ext _ Name) by done. rewrite Hh.
  rewrite (List.map_ext (fun x => Name (h x)) Name) by done.
  by rewrite List.map_app in Hnd.
Qed.

(** C5, as the code has it: in a cluster where nobody else acts, for every
    node that carries the before-reboot label, whatever its value, and is not
    rebootable, [cleanupState] removes the label and deletes every
    before-reboot hook annotation, keeping the other labels and annotations;
    every other node keeps its labels and annotations; no node changes its
    schedulability. *)
Theorem cleanupState_restores_pregating (k : Kontroller) (w : World) :
  script w = [] →
  NoDup (List.map Name (store w)) →
  ∃ w1 : World,
    cleanupState k w = (Done tt, w1)
    ∧ List.map Name (store w1) = List.map Name (store w)
    ∧ ∀ n : Node, n ∈ store w →
        ∃ n1 : Node,
          getNode (Name n) (store w1) = Some n1
          ∧ Unschedulable n1 = Unschedulable n
          ∧ (is_Some (gomap.get (Labels n) constants.LabelBeforeReboot) →
             rebootable n = false →
             gomap.get (Labels n1) constants.LabelBeforeReboot = None
             ∧ (∀ a, a ∈ beforeRebootAnnotations k →
                  gomap.get (Annotations n1) a = None)
             ∧ (∀ l, l ≠ constants.LabelBeforeReboot →
                  gomap.get (Labels n1) l = gomap.get (Labels n) l)
             ∧ (∀ a, a ∉ beforeRebootAnnotations k →
                  gomap.get (Annotations n1) a = gomap.get (Annotations n) a))
          ∧ (¬ (is_Some (gomap.get (Labels n) constants.LabelBeforeReboot)
                ∧ rebootable n = false) →
             Labels n1 = Labels n ∧ Annotations n1 = Annotations n).
Proof.
  intros Hq Hnd. unfold cleanupState, listing. rewrite (List_quiet w Hq).
  destruct (cleanup_loop k (store w) [] (record CallList w) Hq eq_refl Hnd)
    as (w1 & Hloop & Hs1 & _ & _).
  exists w1. split; [exact Hloop|]. cbn [app] in Hs1. rewrite Hs1. split.
  - rewrite List.map_map. apply List.map_ext. apply updated_cleanup_Name.
  - intros n Hin. exists (updated (cleanupMutator k) n).
    split; [by apply getNode_map; [apply updated_cleanup_Name | |]|].
    unfold updated. rewrite run_cleanupProgram.
    destruct (gomap.get (Labels n) constants.LabelBeforeReboot) as [v|] eqn:Hl.
    + destruct (rebootable n) eqn:Hr.
      * split; [reflexivity|]. split; [done|]. intros _. by split.
      * cbn. split; [reflexivity|]. split.
        -- intros _ _. split; [|split; [|split]].
           ++ destruct (Labels n); cbn; [apply lookup_delete_eq | reflexivity].
           ++ intros a Ha. rewrite get_deleteAll. by rewrite decide_True.
           ++ intros l Hne. destruct (Labels n); cbn; [by apply lookup_delete_ne | done].
           ++ intros a Ha. rewrite get_deleteAll. by rewrite decide_False.
        -- intros Hno. destruct Hno. by split.
    + split; [reflexivity|]. split; [by intros [? ?]|]. intros _. by split.
Qed.

Lemma cleanupState_restores_pregating_witness :
  ∃ w1 : World,
    cleanupState hooked (quiet [retracted; pending]) = (Done tt, w1)
    ∧ List.map Name (store w1) = ["a"; "b"].
Proof.
  assert (NoDup (List.map Name (store (quiet [retracted; pending])))) as Hnd.
  { vm_compute. apply NoDup_cons. split; [by intros ?%list_elem_of_singleton|].
    apply NoDup_singleton. }
  destruct (cleanupState_restores_pregating hooked (quiet [retracted; pending])
              eq_refl Hnd) as (w1 & Hrun & Hnames & _).
  exists w1. split; [exact Hrun | exact Hnames].
Defined.

(** C5, as stated, fails on a node it should leave unchanged: a node whose
    before-reboot label is "false" does not carry before-reboot=true, and
    [cleanupState] removes its label and its before-reboot hook annotation. *)
Lemma cleanupState_ignores_label_value :
  labels.Matches beforeRebootReq (Labels mislabeled) = false
  ∧ store (cleanupState hooked (quiet [mislabeled])).2
    = [mkNode "a" 1 (Some ∅) (Some ∅) false].
Proof. split; vm_compute; reflexivity. Qed.


(** ** C2: the budget of [markBeforeReboot] *)

Lemma filter_union_count (p q r : Node → bool) (l : list Node) :
  length (List.filter (fun n => p n || q n || r n) l)
  ≤ length (List.filter p l) + length (List.filter q l) + length (List.filter r l)
  ∧ (length (List.filter (fun n => p n || q n || r n) l) = 0 →
     length (List.filter p l) + length (List.filter q l) + length (List.filter r l) = 0).
Proof.
  induction l as [|a l [IH1 IH2]]; [by split|].
  cbn [List.filter]. destruct (p a), (q a), (r a); cbn [orb length]; split; lia.
Qed.

Lemma rebootingNodes_length (items : list Node) :
  length (rebootingNodes items)
  = length (k8sutil.FilterNodesByAnnotation items stillRebootingSelector)
    + length (k8sutil.FilterNodesByRequirement items beforeRebootReq)
    + length (k8sutil.FilterNodesByRequirement items afterRebootReq).
Proof. unfold rebootingNodes. rewrite !length_app. lia. Qed.

Lemma inFlight_counts (items : list Node) :
  inFlightUnion items ≤ length (rebootingNodes items)
  ∧ (length (rebootingNodes items) = 0 ↔ inFlightUnion items = 0).
Proof.
  rewrite rebootingNodes_length. unfold inFlightUnion.
  destruct (filter_union_count
              (fun n => fields.Matches stillRebootingSelector (Annotations n))
              (fun n => labels.Matches beforeRebootReq (Labels n))
              (fun n => labels.Matches afterRebootReq (Labels n)) items) as [Hle Hz].
  unfold k8sutil.FilterNodesByAnnotation, k8sutil.FilterNodesByRequirement.
  change (List.filter inFlight items)
    with (List.filter (fun n => fields.Matches stillRebootingSelector (Annotations n)
                                || labels.Matches beforeRebootReq (Labels n)
                                || labels.Matches afterRebootReq (Labels n)) items).
  split; [exact Hle|]. split; [lia | exact Hz].
Qed.

Lemma getNode_self (s : list Node) (n : Node) :
  NoDup (List.map Name s) → n ∈ s → getNode (Name n) s = Some n.
Proof.
  intros Hnd Hin. apply list_elem_of_split in Hin as (pre & suf & ->).
  by apply getNode_middle.
Qed.

Lemma names_inj (s : list Node) (n c : Node) :
  NoDup (List.map Name s) → n ∈ s → c ∈ s → Name n = Name c → n = c.
Proof.
  intros Hnd Hn Hc Hname.
  pose proof (getNode_self s n Hnd Hn) as H1.
  pose proof (getNode_self s c Hnd Hc) as H2.
  rewrite Hname in H1. congruence.
Qed.

Lemma filter_one_name (P : Node → bool) (x : string) (s : list Node) :
  NoDup (List.map Name s) →
  (∀ n, n ∈ s → P n = true → Name n = x) →
  length (List.filter P s) ≤ 1.
Proof.
  induction s as [|a s IH]; intros Hnd HP; [cbn; lia|].
  cbn [List.map] in Hnd. apply NoDup_cons in Hnd as [Hnin Hnd].
  assert (length (List.filter P s) ≤ 1) as Hrest.
  { apply IH; [exact Hnd|]. intros n Hn. apply HP. by right. }
  cbn [List.filter]. destruct (P a) eqn:Ha; [|exact Hrest].
  destruct (List.filter P s) as [|m rest] eqn:Hf; [cbn; lia|].
  exfalso. apply Hnin.
  assert (List.In m (List.filter P s)) as Hm by (rewrite Hf; by left).
  apply List.filter_In in Hm as [Hm HPm]. apply list_elem_of_In in Hm.
  rewrite (HP a (list_elem_of_here _ _) Ha).
  rewrite <- (HP m (list_elem_of_further _ _ _ Hm) HPm).
  apply list_elem_of_In, List.in_map, list_elem_of_In, Hm.
Qed.

Lemma filter_map_length (P : Node → bool) (h : Node → Node) (s : list Node) :
  length (List.filter P (List.map h s)) = length (List.filter (fun n => P (h n)) s).
Proof.
  induction s as [|a s IH]; [reflexivity|]. cbn [List.map List.filter].
  destruct (P (h a)); cbn [length]; by rewrite IH.
Qed.

Lemma rebootableNodes_spec (items : list Node) (c : Node) :
  c ∈ rebootableNodes items →
  c ∈ items ∧ rebootable c = true ∧ labels.Matches beforeRebootReq (Labels c) = false.
Proof.
  unfold rebootableNodes, k8sutil.FilterNodesByRequirement, k8sutil.FilterNodesByAnnotation.
  intros Hin. apply list_elem_of_In, List.filter_In in Hin as [Hin Hnot].
  apply List.filter_In in Hin as [Hin Hreb]. apply list_elem_of_In in Hin.
  split; [exact Hin|]. split; [exact Hreb|].
  unfold labels.Matches in *. cbn in *.
  destruct (gomap.get (Labels c) constants.LabelBeforeReboot); [|reflexivity].
  by apply negb_true_iff.
Qed.

(** What [markBeforeReboot] leaves in a cluster where nobody else acts:
    the store as it was, or one node of the rebootable selection replaced
    while nothing was counted as rebooting. *)
Lemma markBeforeReboot_quiet (k : Kontroller) (now1 now2 : Z) (w : World) :
  script w = [] →
  NoDup (List.map Name (store w)) →
  store (markBeforeReboot k now1 now2 w).2 = store w
  ∨ (length (rebootingNodes (store w)) = 0
     ∧ ∃ c c1 : Node,
         c ∈ rebootableNodes (store w)
         ∧ Name c1 = Name c
         ∧ store (markBeforeReboot k now1 now2 w).2 = putNode c1 (store w)).
Proof.
  intros Hq Hnd. unfold markBeforeReboot, listing. rewrite (List_quiet w Hq).
  cbn [record store].
  destruct (outsideRebootWindow k now1 now2); [by left|].
  destruct (Nat.leb_spec maxRebootingNodes (length (rebootingNodes (store w))))
    as [|Hlt]; [by left|].
  destruct (Nat.eqb_spec (length (rebootableNodes (store w))) 0) as [|Hne]; [by left|].
  unfold maxRebootingNodes in Hlt.
  assert (length (rebootingNodes (store w)) = 0) as Hz by lia.
  unfold chosenNodes, maxRebootingNodes. rewrite Hz.
  destruct (rebootableNodes (store w)) as [|c rest] eqn:Hsel; [done|].
  cbn [Nat.sub firstn forNodes].
  assert (c ∈ rebootableNodes (store w)) as Hc by (rewrite Hsel; by left).
  destruct (rebootableNodes_spec _ _ Hc) as (Hin & _).
  assert (getNode (Name c) (store (record CallList w)) = Some c) as Hget
    by (by apply getNode_self).
  unfold wrap, mark, wrap.
  destruct (run (markProgram constants.LabelBeforeReboot (beforeRebootAnnotations k)) c)
    as [n1|] eqn:Hrun.
  - destruct (run_preserves _ _ _ Hrun) as (Hname & Hrv & _).
    destruct (UpdateNodeRetry_quiet (Name c) _ (record CallList w) c Hq Hget n1
                Hrun Hname Hrv) as (w1 & Hupd & Hs1 & _ & _).
    rewrite Hupd. right. split; [reflexivity|].
    exists c, (updated (run (markProgram constants.LabelBeforeReboot
                               (beforeRebootAnnotations k))) c).
    rewrite <- Hsel. split; [exact Hc|]. split; [|exact Hs1].
    unfold updated. rewrite Hrun. exact Hname.
  - rewrite (UpdateNodeRetry_quiet_panic (Name c) _ (record CallList w) c Hq Hget Hrun).
    by left.
Qed.

Lemma filter_none (P : Node → bool) (s : list Node) (n : Node) :
  length (List.filter P s) = 0 → n ∈ s → P n = false.
Proof.
  intros Hz Hin. apply length_zero_iff_nil in Hz.
  destruct (P n) eqn:HP; [|reflexivity].
  assert (List.In n (List.filter P s)) as Hf
    by (apply List.filter_In; split; [by apply list_elem_of_In | exact HP]).
  rewrite Hz in Hf. destruct Hf.
Qed.

Lemma putNode_Name (c1 m : Node) :
  Name (if String.eqb (Name m) (Name c1) then c1 else m) = Name m.
Proof. destruct (String.eqb_spec (Name m) (Name c1)); [done | reflexivity]. Qed.

Lemma newlyLabeled_unchanged (s : list Node) :
  NoDup (List.map Name s) → newlyLabeled s s = [].
Proof.
  intros Hnd. apply length_zero_iff_nil.
  assert (length (newlyLabeled s s) ≤ 0) as Hle; [|lia].
  unfold newlyLabeled.
  destruct (List.filter _ s) as [|m rest] eqn:Hf; [cbn; lia|]. exfalso.
  assert (List.In m (List.filter
            (fun n => negb (labels.Matches beforeRebootReq (Labels n))
                      && match getNode (Name n) s with
                         | Some n1 => labels.Matches beforeRebootReq (Labels n1)
                         | None => false
                         end) s)) as Hm by (rewrite Hf; by left).
  apply List.filter_In in Hm as [Hm HP]. apply list_elem_of_In in Hm.
  rewrite (getNode_self s m Hnd Hm) in HP.
  by destruct (labels.Matches beforeRebootReq (Labels m)).
Qed.

(** C2, as the code has it: the count of [markBeforeReboot] is the length of
    the three selections appended, so a node is counted once for every
    selection it is in; the count is at least the number of nodes in the
    union and is zero exactly when the union is empty.  In a cluster where
    nobody else acts: when the count reaches [maxRebootingNodes] the phase
    only lists; the nodes it newly labels are at most [maxRebootingNodes]
    minus the count, each rebootable and without before-reboot=true; and the
    phase keeps the number of in-flight nodes within [maxRebootingNodes]. *)
Theorem markBeforeReboot_budget (k : Kontroller) (now1 now2 : Z) (w : World) :
  script w = [] →
  NoDup (List.map Name (store w)) →
  length (rebootingNodes (store w))
  = length (k8sutil.FilterNodesByAnnotation (store w) stillRebootingSelector)
    + length (k8sutil.FilterNodesByRequirement (store w) beforeRebootReq)
    + length (k8sutil.FilterNodesByRequirement (store w) afterRebootReq)
  ∧ inFlightUnion (store w) ≤ length (rebootingNodes (store w))
  ∧ (length (rebootingNodes (store w)) = 0 ↔ inFlightUnion (store w) = 0)
  ∧ (maxRebootingNodes ≤ length (rebootingNodes (store w)) →
     markBeforeReboot k now1 now2 w = (Done tt, record CallList w))
  ∧ length (newlyLabeled (store w) (store (markBeforeReboot k now1 now2 w).2))
    ≤ maxRebootingNodes - length (rebootingNodes (store w))
  ∧ (∀ n : Node,
       n ∈ newlyLabeled (store w) (store (markBeforeReboot k now1 now2 w).2) →
       rebootable n = true ∧ labels.Matches beforeRebootReq (Labels n) = false)
  ∧ (boundedConcurrency (store w) →
     boundedConcurrency (store (markBeforeReboot k now1 now2 w).2)).
Proof.
  intros Hq Hnd.
  split; [apply rebootingNodes_length|].
  destruct (inFlight_counts (store w)) as [Hle Hzero].
  split; [exact Hle|]. split; [exact Hzero|]. split.
  { intros Hfull. unfold markBeforeReboot, listing. rewrite (List_quiet w Hq).
    destruct (outsideRebootWindow k now1 now2); [reflexivity|].
    destruct (Nat.leb_spec maxRebootingNodes (length (rebootingNodes (store w))))
      as [_|Hlt]; [reflexivity | lia]. }
  destruct (markBeforeReboot_quiet k now1 now2 w Hq Hnd)
    as [Hsame | (Hz & c & c1 & Hc & Hname & Hput)].
  - rewrite Hsame, (newlyLabeled_unchanged _ Hnd).
    split; [cbn; lia|]. split; [|done].
    intros n Hn. by apply not_elem_of_nil in Hn.
  - destruct (rebootableNodes_spec _ _ Hc) as (Hin & Hreb & Hnot).
    rewrite Hput. unfold putNode.
    set (h := fun m : Node => if String.eqb (Name m) (Name c1) then c1 else m).
    assert (∀ m, Name (h m) = Name m) as Hh by (intros m; apply putNode_Name).
    assert (∀ n, n ∈ store w →
              negb (labels.Matches beforeRebootReq (Labels n))
              && match getNode (Name n) (List.map h (store w)) with
                 | Some n1 => labels.Matches beforeRebootReq (Labels n1)
                 | None => false
                 end = true →
              Name n = Name c) as Honly.
    { intros n Hn HP. rewrite (getNode_map h _ n Hh Hnd Hn) in HP. unfold h in HP.
      destruct (String.eqb_spec (Name n) (Name c1)) as [Heq|_]; [congruence|].
      by destruct (labels.Matches beforeRebootReq (Labels n)). }
    split; [|split].
    + rewrite Hz. unfold maxRebootingNodes, newlyLabeled. cbn [Nat.sub].
      by apply (filter_one_name _ (Name c)).
    + intros n Hn. unfold newlyLabeled in Hn.
      apply list_elem_of_In, List.filter_In in Hn as [Hn HP].
      apply list_elem_of_In in Hn.
      rewrite (names_inj _ n c Hnd Hn Hin (Honly n Hn HP)). by split.
    + intros _. unfold boundedConcurrency, inFlightUnion, maxRebootingNodes.
      rewrite filter_map_length. apply (filter_one_name _ (Name c)); [exact Hnd|].
      intros n Hn HP. unfold h in HP.
      destruct (String.eqb_spec (Name n) (Name c1)) as [Heq|_]; [congruence|].
      apply proj1 in Hzero. specialize (Hzero Hz).
      by rewrite (filter_none inFlight (store w) n Hzero Hn) in HP.
Qed.

Lemma markBeforeReboot_budget_witness :
  length (newlyLabeled
            [node "a" [] [("reboot-needed", "true")];
             node "b" [] [("reboot-needed", "true")]]
            (store (markBeforeReboot hooked 0 0
                      (quiet [node "a" [] [("reboot-needed", "true")];
                              node "b" [] [("reboot-needed", "true")]])).2))
  ≤ 1.
Proof.
  refine (proj1 (proj2 (proj2 (proj2 (proj2
    (markBeforeReboot_budget hooked 0 0
       (quiet [node "a" [] [("reboot-needed", "true")];
               node "b" [] [("reboot-needed", "true")]]) eq_refl _)))))).
  vm_compute. apply NoDup_cons. split; [by intros ?%list_elem_of_singleton|].
  apply NoDup_singleton.
Defined.

(** C2, as stated, fails on the count and on the tick.  A node that is
    authorized and still carries before-reboot=true is counted twice, where
    the union has one node.  And a tick that starts with one node in flight
    ends with two: the node that has just rebooted is labeled after-reboot
    while another node is in pre-gating. *)
Lemma rebooting_count_is_not_the_union :
  (length (rebootingNodes [doubled]) = 2 ∧ inFlightUnion [doubled] = 1)
  ∧ (inFlightUnion [rebooted; pending] = 1
     ∧ inFlightUnion (store (process hooked 0 0 (quiet [rebooted; pending])).2) = 2).
Proof. repeat split; vm_compute; reflexivity. Qed.


(** * Further properties of the code *)

(** ** The selectors *)

(** X1: the three annotation selectors exclude one another, whatever the
    annotations (the nil map included), and the two [NotIn] requirements are
    the exact complements of the [In] requirements on every label map. *)
Theorem selectors_partition (annotations lbls : gomap.t) :
  fields.Matches justRebootedSelector annotations
    && fields.Matches rebootableSelector annotations = false
  ∧ fields.Matches justRebootedSelector annotations
    && fields.Matches stillRebootingSelector annotations = false
  ∧ fields.Matches rebootableSelector annotations
    && fields.Matches stillRebootingSelector annotations = false
  ∧ labels.Matches notBeforeRebootReq lbls = negb (labels.Matches beforeRebootReq lbls)
  ∧ labels.Matches notAfterRebootReq lbls = negb (labels.Matches afterRebootReq lbls).
Proof.
  unfold fields.Matches, justRebootedSelector, rebootableSelector, stillRebootingSelector.
  cbn [forallb fields.termMatches].
  unfold constants.True, constants.False.
  destruct (String.eqb_spec (gomap.index annotations constants.AnnotationOkToReboot) "true")
    as [Hok|Hok];
  destruct (String.eqb_spec (gomap.index annotations constants.AnnotationRebootNeeded) "true")
    as [Hn|Hn];
  destruct (String.eqb_spec (gomap.index annotations constants.AnnotationRebootNeeded) "false")
    as [Hf|Hf];
  try (rewrite Hn in Hf; discriminate Hf);
  cbn [andb negb]; rewrite ?andb_false_r;
  (split; [reflexivity|]); (split; [reflexivity|]); (split; [reflexivity|]);
  unfold labels.Matches; cbn;
  (split; [destruct (gomap.get lbls constants.LabelBeforeReboot)
          | destruct (gomap.get lbls constants.LabelAfterReboot)]); reflexivity.
Qed.

(** ** The mutators, key by key *)

Lemma gomap_ext (m1 m2 : gomap.t) :
  (m1 = None ↔ m2 = None) →
  (∀ k, gomap.get m1 k = gomap.get m2 k) →
  m1 = m2.
Proof.
  intros Hnil Hget. destruct m1 as [g1|], m2 as [g2|].
  - f_equal. apply map_eq. exact Hget.
  - destruct Hnil as [_ H]. by specialize (H eq_refl).
  - destruct Hnil as [H _]. by specialize (H eq_refl).
  - reflexivity.
Qed.

Lemma deleteAll_None_iff (l : list string) (m : gomap.t) :
  deleteAll l m = None ↔ m = None.
Proof.
  destruct m as [g|].
  - destruct (deleteAll_Some l g) as [g1 ->]. split; discriminate.
  - by rewrite deleteAll_nil.
Qed.

Lemma deleteAll_idem (l : list string) (m : gomap.t) :
  deleteAll l (deleteAll l m) = deleteAll l m.
Proof.
  apply gomap_ext.
  - by rewrite !deleteAll_None_iff.
  - intros k. rewrite !get_deleteAll. by destruct (decide (k ∈ l)).
Qed.

Lemma del_idem (k : string) (m : gomap.t) : gomap.del k (gomap.del k m) = gomap.del k m.
Proof.
  apply gomap_ext.
  - destruct m; cbn; split; done.
  - intros k1. rewrite !get_del. by destruct (decide (k1 = k)).
Qed.

(** X2: applying a mutator of the operator to its own result changes
    nothing, so that the repetition of the mutator by a retry is harmless. *)
Theorem mutators_idempotent (k : Kontroller) (label okToReboot : string)
    (annotations : list string) (n n1 : Node) :
  (run (markProgram label annotations) n = Some n1 →
   run (markProgram label annotations) n1 = Some n1)
  ∧ (run (checkRebootProgram annotations label okToReboot) n = Some n1 →
     run (checkRebootProgram annotations label okToReboot) n1 = Some n1)
  ∧ (cleanupMutator k n = Some n1 → cleanupMutator k n1 = Some n1).
Proof.
  split; [|split].
  - rewrite !run_markProgram. destruct (Labels n) as [g|]; [|done].
    intros [= <-]. cbn. by rewrite insert_insert_eq, deleteAll_idem.
  - rewrite !run_checkRebootProgram.
    destruct (deleteAll annotations (Annotations n)) as [g|] eqn:Hdel; [|done].
    intros [= <-]. cbn.
    destruct (deleteAll_Some annotations (<[constants.AnnotationOkToReboot:=okToReboot]> g))
      as [g2 Hg2].
    rewrite Hg2, del_idem. do 3 f_equal. apply map_eq. intros a.
    destruct (decide (a = constants.AnnotationOkToReboot)) as [->|Hne];
      [by rewrite !lookup_insert_eq|].
    rewrite !lookup_insert_ne by done.
    pose proof (get_deleteAll annotations
                  (Some (<[constants.AnnotationOkToReboot:=okToReboot]> g)) a) as H2.
    rewrite Hg2 in H2. cbn in H2. rewrite H2, lookup_insert_ne by done.
    pose proof (get_deleteAll annotations (Annotations n) a) as H1.
    rewrite Hdel in H1. cbn in H1.
    destruct (decide (a ∈ annotations)); [by rewrite H1 | reflexivity].
  - rewrite !run_cleanupProgram. intros [= <-].
    destruct (gomap.get (Labels n) constants.LabelBeforeReboot) as [v|] eqn:Hl.
    + destruct (rebootable n) eqn:Hr; [by rewrite Hl, Hr|].
      cbn. rewrite get_del. by rewrite decide_True.
    + by rewrite Hl.
Qed.

Lemma mutators_idempotent_witness :
  run (markProgram "before-reboot" ["before-hook"])
    (mkNode "a" 0 (Some {[ "before-reboot" := "true" ]})
       (Some {[ "reboot-needed" := "true" ]}) false)
  = Some (mkNode "a" 0 (Some {[ "before-reboot" := "true" ]})
            (Some {[ "reboot-needed" := "true" ]}) false).
Proof.
  refine (proj1 (mutators_idempotent hooked "before-reboot" "true" ["before-hook"]
                   (node "a" [] [("before-hook", "true"); ("reboot-needed", "true")])
                   _) _).
  vm_compute. reflexivity.
Defined.


(** X3: the mutators of [mark] and [checkReboot], key by key: [mark] sets
    its label to "true" and removes the annotations of its list;
    [checkReboot] removes its label, writes ok-to-reboot and removes the
    other annotations of its list; every other label and annotation, the
    name, the resource version and the schedulability are as fetched. *)
Theorem mutators_frame (label okToReboot : string) (annotations : list string)
    (n n1 : Node) (key : string) :
  (run (markProgram label annotations) n = Some n1 →
   Name n1 = Name n ∧ ResourceVersion n1 = ResourceVersion n
   ∧ Unschedulable n1 = Unschedulable n
   ∧ gomap.get (Labels n1) key
     = (if decide (key = label) then Some "true" else gomap.get (Labels n) key)
   ∧ gomap.get (Annotations n1) key
     = (if decide (key ∈ annotations) then None else gomap.get (Annotations n) key))
  ∧ (run (checkRebootProgram annotations label okToReboot) n = Some n1 →
     Name n1 = Name n ∧ ResourceVersion n1 = ResourceVersion n
     ∧ Unschedulable n1 = Unschedulable n
     ∧ gomap.get (Labels n1) key
       = (if decide (key = label) then None else gomap.get (Labels n) key)
     ∧ gomap.get (Annotations n1) key
       = (if decide (key = constants.AnnotationOkToReboot) then Some okToReboot
          else if decide (key ∈ annotations) then None
          else gomap.get (Annotations n) key)).
Proof.
  split.
  - rewrite run_markProgram. destruct (Labels n) as [g|] eqn:Hl; [|done].
    intros [= <-]. cbn. repeat (split; [reflexivity|]). split.
    + destruct (decide (key = label)) as [->|Hne];
        [apply lookup_insert_eq | by rewrite lookup_insert_ne].
    + apply get_deleteAll.
  - rewrite run_checkRebootProgram.
    destruct (deleteAll annotations (Annotations n)) as [g|] eqn:Hdel; [|done].
    intros [= <-]. cbn. repeat (split; [reflexivity|]). split.
    + apply get_del.
    + destruct (decide (key = constants.AnnotationOkToReboot)) as [->|Hne];
        [apply lookup_insert_eq|].
      rewrite lookup_insert_ne by done.
      pose proof (get_deleteAll annotations (Annotations n) key) as H1.
      by rewrite Hdel in H1.
Qed.

Lemma mutators_frame_witness :
  ∃ n1 : Node,
    run (markProgram "before-reboot" ["before-hook"])
      (node "a" [("zone", "b")] [("before-hook", "true")]) = Some n1
    ∧ gomap.get (Labels n1) "zone" = Some "b".
Proof.
  destruct (run (markProgram "before-reboot" ["before-hook"])
              (node "a" [("zone", "b")] [("before-hook", "true")]))
    as [n1|] eqn:Hrun; [|vm_compute in Hrun; discriminate Hrun].
  exists n1. split; [reflexivity|].
  destruct (proj1 (mutators_frame "before-reboot" "true" ["before-hook"] _ n1 "zone") Hrun)
    as (_ & _ & _ & Hlabel & _).
  rewrite Hlabel. vm_compute. reflexivity.
Defined.

(** ** Setting and deleting labels and annotations *)

Lemma assignAll_other (m : list (string * string)) :
  ∀ (g : gmap string string) (k : string),
    k ∉ m.*1 → assignAll m g !! k = g !! k.
Proof.
  induction m as [|[a b] m IH]; intros g k Hnin; [reflexivity|].
  cbn in Hnin. apply not_elem_of_cons in Hnin as [Hne Hnin].
  unfold assignAll. cbn [foldl fst snd]. fold (assignAll m (<[a:=b]> g)).
  rewrite IH by done. by rewrite lookup_insert_ne.
Qed.

Lemma assignAll_entry (m : list (string * string)) :
  ∀ (g : gmap string string) (k v : string),
    NoDup m.*1 → (k, v) ∈ m → assignAll m g !! k = Some v.
Proof.
  induction m as [|[a b] m IH]; intros g k v Hnd Hin; [by apply not_elem_of_nil in Hin|].
  cbn in Hnd. apply NoDup_cons in Hnd as [Hnin Hnd].
  unfold assignAll. cbn [foldl fst snd]. fold (assignAll m (<[a:=b]> g)).
  apply elem_of_cons in Hin as [[= -> ->]|Hin].
  - rewrite assignAll_other by done. apply lookup_insert_eq.
  - by apply IH.
Qed.

Lemma assignAll_perm (m m' : list (string * string)) (g : gmap string string) :
  m ≡ₚ m' → NoDup m.*1 → assignAll m g = assignAll m' g.
Proof.
  intros Hperm Hnd. apply map_eq. intros k.
  assert (NoDup m'.*1) as Hnd' by (by rewrite <- Hperm).
  destruct (decide (k ∈ m.*1)) as [Hin|Hnin].
  - apply list_elem_of_fmap in Hin as ([k1 v] & -> & Hin). cbn.
    rewrite (assignAll_entry m g k1 v Hnd Hin).
    symmetry. apply assignAll_entry; [done | by rewrite <- Hperm].
  - rewrite assignAll_other by done.
    symmetry. apply assignAll_other. by rewrite <- Hperm.
Qed.

Lemma run_setLabels (m : list (string * string)) :
  ∀ n : Node,
    run (List.map (fun kv => SetLabel kv.1 kv.2) m) n
    = match m, Labels n with
      | [], _ => Some n
      | _, None => None
      | _, Some g => Some (withLabels n (Some (assignAll m g)))
      end.
Proof.
  induction m as [|[a b] m IH]; intros n; cbn [List.map run execute fst snd];
    [reflexivity|].
  destruct (Labels n) as [g|] eqn:Hl; cbn; [|reflexivity].
  rewrite IH. cbn. destruct m as [|kv m]; [by destruct n; cbn in *; subst|].
  reflexivity.
Qed.

Lemma run_setAnnotations (m : list (string * string)) :
  ∀ n : Node,
    run (List.map (fun kv => SetAnnotation kv.1 kv.2) m) n
    = match m, Annotations n with
      | [], _ => Some n
      | _, None => None
      | _, Some g => Some (withAnnotations n (Some (assignAll m g)))
      end.
Proof.
  induction m as [|[a b] m IH]; intros n; cbn [List.map run execute fst snd];
    [reflexivity|].
  destruct (Annotations n) as [g|] eqn:Hl; cbn; [|reflexivity].
  rewrite IH. cbn. destruct m as [|kv m]; [by destruct n; cbn in *; subst|].
  reflexivity.
Qed.

Lemma retry_ext {S : Type} (retriable : error → bool)
    (fn fn' : S → World → (S * Outcome unit) * World) (steps : nat) :
  (∀ s w, fn s w = fn' s w) →
  ∀ s lastErr w,
    retry.OnError steps retriable fn s lastErr w
    = retry.OnError steps retriable fn' s lastErr w.
Proof.
  intros Hfn. induction steps as [|steps IH]; intros s lastErr w; cbn [retry.OnError];
    [reflexivity|].
  rewrite Hfn. destruct (fn' s w) as [[s1 [[]|e|]] w1]; try reflexivity.
  destruct (retriable e); [apply IH | reflexivity].
Qed.

Lemma UpdateNodeRetry_ext (name : string) (f f' : Node → option Node) (w : World) :
  (∀ n, f n = f' n) →
  k8sutil.UpdateNodeRetry name f w = k8sutil.UpdateNodeRetry name f' w.
Proof.
  intros Hf. unfold k8sutil.UpdateNodeRetry, retry.RetryOnConflict.
  rewrite (retry_ext IsConflict (k8sutil.updateAttempt name f)
             (k8sutil.updateAttempt name f')); [reflexivity|].
  intros [] w1. unfold k8sutil.updateAttempt.
  destruct (nodes.Get name w1) as [[n|e|] w2]; [|reflexivity|reflexivity].
  by rewrite Hf.
Qed.

(** X4: the entries of the map [m] are distinct keys that Go visits in an
    order of its own; whatever that order, [SetNodeLabels],
    [SetNodeAnnotations] and [SetNodeAnnotationsLabels] end with the same
    outcome and leave the same cluster. *)
Theorem set_helpers_order (name : string) (m m' l l' : list (string * string))
    (w : World) :
  m ≡ₚ m' → NoDup m.*1 →
  l ≡ₚ l' → NoDup l.*1 →
  k8sutil.SetNodeLabels name m w = k8sutil.SetNodeLabels name m' w
  ∧ k8sutil.SetNodeAnnotations name m w = k8sutil.SetNodeAnnotations name m' w
  ∧ k8sutil.SetNodeAnnotationsLabels name m l w
    = k8sutil.SetNodeAnnotationsLabels name m' l' w.
Proof.
  intros Hm Hndm Hl Hndl.
  assert (m = [] ↔ m' = []) as Hnil.
  { split; intros ->; [by apply Permutation_nil_l in Hm
                      | by apply Permutation_nil_r in Hm]. }
  assert (l = [] ↔ l' = []) as Hnil'.
  { split; intros ->; [by apply Permutation_nil_l in Hl
                      | by apply Permutation_nil_r in Hl]. }
  assert (∀ n, run (List.map (fun kv => SetLabel kv.1 kv.2) m) n
               = run (List.map (fun kv => SetLabel kv.1 kv.2) m') n) as Hlab.
  { intros n. rewrite !run_setLabels.
    destruct m as [|x m], m' as [|x' m'];
      [reflexivity | by destruct Hnil as [H _]; specialize (H eq_refl)
       | by destruct Hnil as [_ H]; specialize (H eq_refl) |].
    destruct (Labels n) as [g|]; [|reflexivity].
    by rewrite (assignAll_perm _ _ g Hm Hndm). }
  assert (∀ (a a' : list (string * string)) n,
            a ≡ₚ a' → NoDup a.*1 →
            run (List.map (fun kv => SetAnnotation kv.1 kv.2) a) n
            = run (List.map (fun kv => SetAnnotation kv.1 kv.2) a') n) as Hann.
  { intros a a' n Ha Hnda. rewrite !run_setAnnotations.
    destruct a as [|x a], a' as [|x' a'];
      [reflexivity | by apply Permutation_nil_l in Ha
       | by apply Permutation_nil_r in Ha |].
    destruct (Annotations n) as [g|]; [|reflexivity].
    by rewrite (assignAll_perm _ _ g Ha Hnda). }
  split; [by apply UpdateNodeRetry_ext|].
  split; [apply UpdateNodeRetry_ext; intros n; by apply Hann|].
  apply UpdateNodeRetry_ext. intros n. rewrite !run_app, (Hann m m' n Hm Hndm).
  destruct (run (List.map (fun kv => SetAnnotation kv.1 kv.2) m') n) as [n1|];
    [|reflexivity].
  rewrite !run_setLabels.
  destruct l as [|x l], l' as [|x' l'];
    [reflexivity | by apply Permutation_nil_l in Hl
     | by apply Permutation_nil_r in Hl |].
  destruct (Labels n1) as [g|]; [|reflexivity].
  by rewrite (assignAll_perm _ _ g Hl Hndl).
Qed.

Lemma set_helpers_order_witness :
  k8sutil.SetNodeLabels "a" [("zone", "b"); ("rack", "7")] racing
  = k8sutil.SetNodeLabels "a" [("rack", "7"); ("zone", "b")] racing.
Proof.
  refine (proj1 (set_helpers_order "a" [("zone", "b"); ("rack", "7")]
                   [("rack", "7"); ("zone", "b")] [] [] racing _ _ _ _)).
  - apply Permutation_swap.
  - vm_compute. apply NoDup_cons. split; [by intros ?%list_elem_of_singleton|].
    apply NoDup_singleton.
  - reflexivity.
  - constructor.
Defined.

Lemma getNode_putNode (name : string) (s : list Node) (n n1 : Node) :
  getNode name s = Some n → Name n1 = name → getNode name (putNode n1 s) = Some n1.
Proof.
  intros Hget <-. induction s as [|a s IH]; [done|].
  unfold getNode, putNode in *. cbn [List.find List.map] in *.
  destruct (String.eqb (Name a) (Name n1)) eqn:Ha.
  - cbn [List.find]. by rewrite String.eqb_refl.
  - cbn [List.find]. rewrite Ha. by apply IH.
Qed.

Lemma getNode_putNode_other (name : string) (s : list Node) (n1 : Node) :
  Name n1 ≠ name → getNode name (putNode n1 s) = getNode name s.
Proof.
  intros Hne. induction s as [|a s IH]; [done|].
  unfold getNode, putNode in *. cbn [List.find List.map].
  destruct (String.eqb_spec (Name a) (Name n1)) as [Heq|Hneq].
  - cbn [List.find].
    destruct (String.eqb_spec (Name n1) name) as [|_]; [done|].
    destruct (String.eqb_spec (Name a) name) as [|_]; [congruence|]. exact IH.
  - cbn [List.find]. destruct (String.eqb (Name a) name); [reflexivity | exact IH].
Qed.

(** An update in a cluster where nobody else acts, read back by name. *)
Lemma UpdateNodeRetry_readback (name : string) (f : Node → option Node) (w : World)
    (n n1 : Node) :
  script w = [] →
  getNode name (store w) = Some n →
  f n = Some n1 →
  Name n1 = Name n →
  ResourceVersion n1 = ResourceVersion n →
  ∃ w1 : World,
    k8sutil.UpdateNodeRetry name f w = (Done tt, w1)
    ∧ script w1 = []
    ∧ getNode name (store w1) = Some (withResourceVersion n1 (S (ResourceVersion n)))
    ∧ ∀ other, other ≠ name → getNode other (store w1) = getNode other (store w).
Proof.
  intros Hq Hget Hf Hname Hrv.
  destruct (UpdateNodeRetry_quiet name f w n Hq Hget n1 Hf Hname Hrv)
    as (w1 & Hupd & Hs & Hq1 & _).
  destruct (getNode_Some _ _ _ Hget) as [_ Hn].
  assert (updated f n = withResourceVersion n1 (S (ResourceVersion n))) as Hu
    by (unfold updated; by rewrite Hf, Hrv).
  exists w1. split; [exact Hupd|]. split; [exact Hq1|]. rewrite Hs, Hu. split.
  - eapply getNode_putNode; [exact Hget|]. cbn. congruence.
  - intros other Hne. apply getNode_putNode_other. cbn. congruence.
Qed.

Lemma run_label_deletions (l : list string) (n : Node) :
  run (List.map DeleteLabel l) n = Some (withLabels n (deleteAll l (Labels n))).
Proof.
  revert n. induction l as [|a l IH]; intros n; cbn [run List.map execute].
  - by destruct n.
  - rewrite IH. reflexivity.
Qed.

(** X5: in a cluster where nobody else acts, [SetNodeLabels] on a node whose
    label map is not nil succeeds; afterwards every entry of [m] reads back
    by its key, every other label reads as before, the annotations and the
    schedulability of the node are as before, and every other node is as
    before. *)
Theorem SetNodeLabels_readback (name : string) (m : list (string * string))
    (w : World) (n : Node) :
  script w = [] →
  getNode name (store w) = Some n →
  is_Some (Labels n) →
  NoDup m.*1 →
  ∃ (w1 : World) (n1 : Node),
    k8sutil.SetNodeLabels name m w = (Done tt, w1)
    ∧ getNode name (store w1) = Some n1
    ∧ ResourceVersion n1 = S (ResourceVersion n)
    ∧ Annotations n1 = Annotations n
    ∧ Unschedulable n1 = Unschedulable n
    ∧ (∀ k v, (k, v) ∈ m → gomap.get (Labels n1) k = Some v)
    ∧ (∀ k, k ∉ m.*1 → gomap.get (Labels n1) k = gomap.get (Labels n) k)
    ∧ (∀ other, other ≠ name → getNode other (store w1) = getNode other (store w)).
Proof.
  intros Hq Hget [g Hg] Hnd.
  assert (run (List.map (fun kv => SetLabel kv.1 kv.2) m) n
          = Some (withLabels n (Some (assignAll m g)))) as Hrun.
  { rewrite run_setLabels, Hg. destruct m; [|reflexivity].
    destruct n; cbn in *; by subst. }
  destruct (UpdateNodeRetry_readback name _ w n _ Hq Hget Hrun eq_refl eq_refl)
    as (w1 & Hupd & _ & Hback & Hother).
  eexists w1, _. split; [exact Hupd|]. split; [exact Hback|].
  cbn. repeat (split; [reflexivity|]). split; [|split; [|exact Hother]].
  - intros k v Hin. by apply assignAll_entry.
  - intros k Hnin. rewrite Hg. cbn. by apply assignAll_other.
Qed.

Lemma SetNodeLabels_readback_witness :
  ∃ (w1 : World) (n1 : Node),
    k8sutil.SetNodeLabels "a" [("zone", "b")] (quiet [node "a" [("rack", "7")] []])
    = (Done tt, w1)
    ∧ getNode "a" (store w1) = Some n1
    ∧ gomap.get (Labels n1) "zone" = Some "b"
    ∧ gomap.get (Labels n1) "rack" = Some "7".
Proof.
  destruct (SetNodeLabels_readback "a" [("zone", "b")]
              (quiet [node "a" [("rack", "7")] []]) (node "a" [("rack", "7")] []))
    as (w1 & n1 & Hrun & Hget & _ & _ & _ & Hin & Hout & _).
  - reflexivity.
  - reflexivity.
  - by eexists.
  - apply NoDup_singleton.
  - exists w1, n1. split; [exact Hrun|]. split; [exact Hget|]. split.
    + apply Hin. by left.
    + rewrite Hout; [vm_compute; reflexivity|].
      cbn. intros Hin'%list_elem_of_singleton. discriminate Hin'.
Defined.



(** X7: in a cluster where nobody else acts, setting labels under keys the
    node does not carry and then deleting those keys gives back the label
    map the node had; the annotations are untouched and the resource version
    has advanced by two. *)
Theorem set_then_delete_labels (name : string) (m : list (string * string))
    (w : World) (n : Node) :
  script w = [] →
  getNode name (store w) = Some n →
  is_Some (Labels n) →
  NoDup m.*1 →
  (∀ k, k ∈ m.*1 → gomap.get (Labels n) k = None) →
  ∃ (w1 w2 : World),
    k8sutil.SetNodeLabels name m w = (Done tt, w1)
    ∧ k8sutil.DeleteNodeLabels name m.*1 w1 = (Done tt, w2)
    ∧ getNode name (store w2)
      = Some (withResourceVersion n (S (S (ResourceVersion n)))).
Proof.
  intros Hq Hget [g Hg] Hnd Hfresh.
  assert (run (List.map (fun kv => SetLabel kv.1 kv.2) m) n
          = Some (withLabels n (Some (assignAll m g)))) as Hrun.
  { rewrite run_setLabels, Hg. destruct m; [|reflexivity].
    destruct n; cbn in *; by subst. }
  destruct (UpdateNodeRetry_readback name _ w n _ Hq Hget Hrun eq_refl eq_refl)
    as (w1 & Hupd & Hq1 & Hback & _).
  destruct (UpdateNodeRetry_readback name _ w1 _ _ Hq1 Hback
              (run_label_deletions m.*1 _) eq_refl eq_refl)
    as (w2 & Hupd2 & _ & Hback2 & _).
  exists w1, w2. split; [exact Hupd|]. split; [exact Hupd2|].
  rewrite Hback2. f_equal. cbn.
  assert (deleteAll m.*1 (Some (assignAll m g)) = Labels n) as Hmap.
  { apply gomap_ext.
    - rewrite deleteAll_None_iff, Hg. split; discriminate.
    - intros k. rewrite get_deleteAll. destruct (decide (k ∈ m.*1)) as [Hin|Hnin].
      + symmetry. by apply Hfresh.
      + rewrite Hg. cbn. by apply assignAll_other. }
  rewrite Hmap. by destruct n.
Qed.

Lemma set_then_delete_labels_witness :
  ∃ (w1 w2 : World),
    k8sutil.SetNodeLabels "a" [("zone", "b")] (quiet [node "a" [("rack", "7")] []])
    = (Done tt, w1)
    ∧ k8sutil.DeleteNodeLabels "a" ["zone"] w1 = (Done tt, w2)
    ∧ getNode "a" (store w2)
      = Some (withResourceVersion (node "a" [("rack", "7")] []) 2).
Proof.
  refine (set_then_delete_labels "a" [("zone", "b")]
            (quiet [node "a" [("rack", "7")] []]) (node "a" [("rack", "7")] [])
            eq_refl eq_refl _ _ _).
  - by eexists.
  - apply NoDup_singleton.
  - intros k Hin. cbn in Hin. apply list_elem_of_singleton in Hin as ->.
    vm_compute. reflexivity.
Defined.

(** ** Retries of reads and updates *)

Lemma Get_result (name : string) (w : World) :
  match (nodes.Get name w).1 with
  | Done n => getNode name (store (nodes.Get name w).2) = Some n
  | Failed e => IsConflict e = false
  | Panicked => False
  end.
Proof.
  unfold nodes.Get. destruct (disturb w) as [[] w1]; cbn -[getNode]; [|reflexivity].
  by destruct (getNode name (store w1)) eqn:Hget.
Qed.

Lemma updateAttempt_trace (name : string) (f : Node → option Node) (w : World) :
  ∃ cs : list Call,
    calls (k8sutil.updateAttempt name f tt w).2 = calls w ++ cs
    ∧ length (List.filter isGet cs) = 1
    ∧ length (List.filter isUpdate cs) ≤ 1
    ∧ forallb (fun c => isGet c || isUpdate c) cs = true.
Proof.
  unfold k8sutil.updateAttempt. pose proof (Get_calls name w) as Hg.
  destruct (nodes.Get name w) as [[n|e|] w1]; cbn [snd] in Hg;
    [|by exists [CallGet name]; cbn; auto..].
  destruct (f n) as [n1|]; [|by exists [CallGet name]; cbn; auto].
  pose proof (Update_calls n1 w1) as Hu.
  destruct (nodes.Update n1 w1) as [[n2 [e|]] w2]; cbn [fst snd] in *;
    eexists [CallGet name; CallUpdate n1 _];
    rewrite Hu, Hg, <- app_assoc; cbn; auto.
Qed.

Lemma retry_trace (name : string) (f : Node → option Node) (steps : nat) :
  ∀ (lastErr : option error) (w : World),
    ∃ cs : list Call,
      calls (retry.OnError steps IsConflict (k8sutil.updateAttempt name f) tt lastErr w).2
      = calls w ++ cs
      ∧ length (List.filter isGet cs) ≤ steps
      ∧ (0 < steps → 1 ≤ length (List.filter isGet cs))
      ∧ length (List.filter isUpdate cs) ≤ length (List.filter isGet cs)
      ∧ forallb (fun c => isGet c || isUpdate c) cs = true.
Proof.
  induction steps as [|steps IH]; intros lastErr w; cbn [retry.OnError].
  - exists []. rewrite app_nil_r. destruct lastErr; cbn; repeat split; lia.
  - destruct (updateAttempt_trace name f w) as (cs & Hcs & Hg & Hu & Hall).
    destruct (k8sutil.updateAttempt name f tt w) as [[[] [[]|e|]] w1];
      cbn [fst snd] in *;
      [exists cs; repeat split; [done | lia.. | done] |
      | exists cs; repeat split; [done | lia.. | done]].
    destruct (IsConflict e);
      [|exists cs; repeat split; [done | lia.. | done]].
    destruct (IH (Some e) w1) as (cs1 & Hcs1 & Hg1 & _ & Hu1 & Hall1).
    exists (cs ++ cs1). rewrite Hcs1, Hcs, <- app_assoc.
    rewrite !List.filter_app, !length_app, forallb_app, Hall, Hall1.
    repeat split; lia.
Qed.

(** X8: whatever the cluster does, [UpdateNodeRetry] makes at least one and
    at most [DefaultBackoff] reads, never more submissions than reads, and
    no other call. *)
Theorem UpdateNodeRetry_bounded (name : string) (f : Node → option Node) (w : World) :
  ∃ cs : list Call,
    calls (k8sutil.UpdateNodeRetry name f w).2 = calls w ++ cs
    ∧ 1 ≤ length (List.filter isGet cs) ≤ retry.DefaultBackoff
    ∧ length (List.filter isUpdate cs) ≤ length (List.filter isGet cs)
    ∧ forallb (fun c => isGet c || isUpdate c) cs = true.
Proof.
  unfold k8sutil.UpdateNodeRetry, retry.RetryOnConflict.
  destruct (retry_trace name f retry.DefaultBackoff None w)
    as (cs & Hcs & Hg & Hg1 & Hu & Hall).
  exists cs.
  destruct (retry.OnError _ _ _ _ _ _) as [[[] [[]|e|]] w1]; cbn [fst snd] in *;
    (split; [exact Hcs|]); (split; [|by split]);
    (split; [apply Hg1; unfold retry.DefaultBackoff; lia | exact Hg]).
Qed.

Lemma getAttempt_step (name : string) (s : option Node) (w : World) :
  calls (k8sutil.getAttempt name s w).2 = calls w ++ [CallGet name]
  ∧ match (k8sutil.getAttempt name s w).1.2 with
    | Done _ =>
        ∃ n, (k8sutil.getAttempt name s w).1.1 = Some n
             ∧ getNode name (store (k8sutil.getAttempt name s w).2) = Some n
    | Failed _ => (k8sutil.getAttempt name s w).1.1 = s
    | Panicked => False
    end.
Proof.
  unfold k8sutil.getAttempt. pose proof (Get_calls name w) as Hc.
  pose proof (Get_result name w) as Hr.
  destruct (nodes.Get name w) as [[n|e|] w1]; cbn [fst snd] in *;
    (split; [exact Hc|]); [by exists n | reflexivity | done].
Qed.

Lemma getRetry_trace (name : string) (steps : nat) :
  ∀ (s lastErr : option _) (w : World),
    (steps = 0 → lastErr ≠ None) →
    ∃ j : nat,
      calls (retry.OnError steps (fun _ => true) (k8sutil.getAttempt name) s lastErr w).2
      = calls w ++ repeat (CallGet name) j
      ∧ j ≤ steps
      ∧ match (retry.OnError steps (fun _ => true) (k8sutil.getAttempt name)
                 s lastErr w).1.2 with
        | Done _ =>
            1 ≤ j
            ∧ ∃ n,
                (retry.OnError steps (fun _ => true) (k8sutil.getAttempt name)
                   s lastErr w).1.1 = Some n
                ∧ getNode name
                    (store (retry.OnError steps (fun _ => true)
                              (k8sutil.getAttempt name) s lastErr w).2) = Some n
        | Failed _ => j = steps
        | Panicked => False
        end.
Proof.
  induction steps as [|steps IH]; intros s lastErr w Hlast; cbn [retry.OnError].
  - destruct lastErr as [e|]; [|by destruct Hlast].
    exists 0. cbn. by rewrite app_nil_r.
  - destruct (getAttempt_step name s w) as [Hc Hr].
    destruct (k8sutil.getAttempt name s w) as [[s1 [[]|e|]] w1]; cbn [fst snd] in *.
    + exists 1. split; [exact Hc|]. split; [lia|]. split; [lia | exact Hr].
    + destruct (IH s1 (Some e) w1) as (j & Hj & Hle & Hres); [done|].
      exists (S j). rewrite Hj, Hc, <- app_assoc. split; [reflexivity|].
      split; [lia|].
      destruct (retry.OnError steps _ _ s1 (Some e) w1) as [[s2 [[]|e2|]] w2];
        cbn [fst snd] in *; [|lia|done].
      destruct Hres as [? Hn]. split; [lia | exact Hn].
    + done.
Qed.

(** X9: [GetNodeRetry] only reads: it makes between one and
    [DefaultBackoff] reads of the node and no other call.  When it succeeds
    the node it returns is not nil and is what the cluster holds under that
    name at that moment; when it fails it has used all its reads; it never
    panics. *)
Theorem GetNodeRetry_reads (name : string) (w : World) :
  ∃ j : nat,
    calls (k8sutil.GetNodeRetry name w).2 = calls w ++ repeat (CallGet name) j
    ∧ 1 ≤ j ≤ retry.DefaultBackoff
    ∧ match (k8sutil.GetNodeRetry name w).1 with
      | Done r =>
          ∃ n, r = Some n ∧ getNode name (store (k8sutil.GetNodeRetry name w).2) = Some n
      | Failed _ => j = retry.DefaultBackoff
      | Panicked => False
      end.
Proof.
  unfold k8sutil.GetNodeRetry.
  destruct (getRetry_trace name retry.DefaultBackoff None None w) as (j & Hj & Hle & Hres);
    [done|].
  exists j.
  destruct (retry.OnError _ _ _ _ _ _) as [[s [[]|e|]] w1]; cbn [fst snd] in *.
  - destruct Hres as [H1 Hn]. split; [exact Hj|]. split; [lia | exact Hn].
  - split; [exact Hj|]. split; [|exact Hres]. subst j. unfold retry.DefaultBackoff. lia.
  - done.
Qed.

Lemma Get_quiet_missing (name : string) (w : World) :
  script w = [] → getNode name (store w) = None →
  nodes.Get name w = (Failed NotFound, record (CallGet name) w).
Proof.
  intros Hq Hget. unfold nodes.Get. rewrite disturb_quiet by done.
  cbn -[getNode]. by rewrite Hget.
Qed.

(** X10: for a node the cluster does not hold, with nobody else acting,
    [UpdateNodeRetry] gives up after a single read with the not-found error
    and submits nothing, where [GetNodeRetry] reads [DefaultBackoff] times
    before it returns that error. *)
Theorem missing_node (name : string) (f : Node → option Node) (w : World) :
  script w = [] →
  getNode name (store w) = None →
  k8sutil.UpdateNodeRetry name f w
  = (Failed (Wrapped "unable to update node" (Wrapped "failed to get node" NotFound)),
     record (CallGet name) w)
  ∧ k8sutil.GetNodeRetry name w
    = (Failed (Wrapped "getting node" (Wrapped "failed to get node" NotFound)),
       record (CallGet name) (record (CallGet name)
         (record (CallGet name) (record (CallGet name) w)))).
Proof.
  intros Hq Hget. split.
  - unfold k8sutil.UpdateNodeRetry, retry.RetryOnConflict, retry.DefaultBackoff.
    cbn [retry.OnError]. unfold k8sutil.updateAttempt.
    by rewrite Get_quiet_missing.
  - unfold k8sutil.GetNodeRetry, retry.DefaultBackoff. cbn [retry.OnError].
    unfold k8sutil.getAttempt.
    rewrite Get_quiet_missing by done.
    rewrite Get_quiet_missing by done.
    rewrite Get_quiet_missing by done.
    by rewrite Get_quiet_missing.
Qed.

Lemma missing_node_witness :
  (k8sutil.GetNodeRetry "b" (quiet [bare])).1
  = Failed (Wrapped "getting node" (Wrapped "failed to get node" NotFound)).
Proof.
  refine (f_equal fst (proj2 (missing_node "b" Some (quiet [bare]) eq_refl eq_refl))).
Defined.

Lemma getRetry_outages (name : string) (n : Node) :
  ∀ (j steps : nat) (s lastErr : option _) (w : World),
    j < steps →
    script w = repeat Outage j →
    getNode name (store w) = Some n →
    retry.OnError steps (fun _ => true) (k8sutil.getAttempt name) s lastErr w
    = ((Some n, Done tt),
       mkWorld (store w) [] (calls w ++ repeat (CallGet name) (S j)) (klog w)).
Proof.
  induction j as [|j IH]; intros steps s lastErr w Hlt Hscript Hget;
    (destruct steps as [|steps]; [lia|]); cbn [retry.OnError].
  - unfold k8sutil.getAttempt. rewrite (Get_quiet name w n Hscript Hget).
    unfold record. by rewrite Hscript.
  - unfold k8sutil.getAttempt, nodes.Get, disturb. rewrite Hscript.
    cbn [repeat record fst snd].
    rewrite IH; [|lia|reflexivity|exact Hget].
    cbn [store calls klog record]. by rewrite <- app_assoc.
Qed.

(** X11: [GetNodeRetry] rides out up to [DefaultBackoff - 1] failed reads in
    a row: when the node exists it is returned by the read that follows
    them. *)
Theorem GetNodeRetry_outages (name : string) (n : Node) (j : nat) (w : World) :
  j < retry.DefaultBackoff →
  script w = repeat Outage j →
  getNode name (store w) = Some n →
  k8sutil.GetNodeRetry name w
  = (Done (Some n),
     mkWorld (store w) [] (calls w ++ repeat (CallGet name) (S j)) (klog w)).
Proof.
  intros Hlt Hscript Hget. unfold k8sutil.GetNodeRetry.
  by rewrite (getRetry_outages name n j retry.DefaultBackoff None None w Hlt Hscript Hget).
Qed.

Lemma GetNodeRetry_outages_witness :
  (k8sutil.GetNodeRetry "a" (mkWorld [bare] [Outage; Outage; Outage] [] [])).1
  = Done (Some bare).
Proof.
  refine (f_equal fst
    (GetNodeRetry_outages "a" bare 3 (mkWorld [bare] [Outage; Outage; Outage] [] [])
       _ eq_refl eq_refl)).
  unfold retry.DefaultBackoff. lia.
Defined.

Section Conflicts.

Variable name : string.
Variable f : Node → option Node.
Hypothesis f_keeps :
  ∀ x, ∃ x1, f x = Some x1 ∧ Name x1 = Name x
             ∧ ResourceVersion x1 = ResourceVersion x.

(** An attempt whose object is overtaken by another actor's write between
    the read and the submission. *)
Lemma attempt_overtaken (w : World) (n : Node) (key value : string)
    (rest : list Disturbance) :
  script w = Quiet :: Annotate name key value :: rest →
  getNode name (store w) = Some n →
  ∃ n1 : Node,
    f n = Some n1
    ∧ k8sutil.updateAttempt name f tt w
      = ((tt, Failed Conflict),
         mkWorld (putNode (annotated key value n) (store w)) rest
           ((calls w ++ [CallGet name]) ++ [CallUpdate n1 false]) (klog w)).
Proof.
  intros Hscript Hget. destruct (f_keeps n) as (n1 & Hf & Hname & Hrv).
  exists n1. split; [exact Hf|].
  destruct (getNode_Some _ _ _ Hget) as [_ Hn].
  unfold k8sutil.updateAttempt, nodes.Get, disturb. rewrite Hscript.
  cbn -[getNode putNode]. rewrite Hget, Hf.
  unfold nodes.Update, disturb. cbn -[getNode putNode]. rewrite Hget.
  unfold nodes.admits. rewrite Hname, Hn.
  rewrite (getNode_putNode name (store w) n (annotated key value n) Hget Hn).
  cbn -[getNode putNode Nat.eqb]. rewrite Hrv.
  destruct (Nat.eqb_spec (S (ResourceVersion n)) (ResourceVersion n)) as [|_]; [lia|].
  reflexivity.
Qed.

Lemma attempt_accepted (w : World) (n : Node) :
  script w = [] →
  getNode name (store w) = Some n →
  ∃ n1 : Node,
    f n = Some n1
    ∧ k8sutil.updateAttempt name f tt w
      = ((tt, Done tt),
         mkWorld (putNode (withResourceVersion n1 (S (ResourceVersion n))) (store w)) []
           ((calls w ++ [CallGet name]) ++ [CallUpdate n1 true]) (klog w)).
Proof.
  intros Hq Hget. destruct (f_keeps n) as (n1 & Hf & Hname & Hrv).
  exists n1. split; [exact Hf|].
  destruct (getNode_Some _ _ _ Hget) as [_ Hn].
  unfold k8sutil.updateAttempt. rewrite (Get_quiet name w n Hq Hget), Hf.
  unfold nodes.Update. rewrite disturb_quiet by (cbn; done).
  unfold nodes.admits. cbn -[getNode putNode].
  rewrite Hname, Hn, Hget, Hrv, Nat.eqb_refl. unfold record, withStore. cbn.
  by rewrite Hq.
Qed.

Lemma retry_overtaken (key value : string) (rest : list Disturbance) :
  ∀ (steps : nat) (lastErr : option error) (w : World) (n : Node),
    (steps = 0 → lastErr = Some Conflict) →
    script w = mjoin (repeat [Quiet; Annotate name key value] steps) ++ rest →
    getNode name (store w) = Some n →
    ∃ w1 : World,
      retry.OnError steps IsConflict (k8sutil.updateAttempt name f) tt lastErr w
      = ((tt, Failed Conflict), w1)
      ∧ script w1 = rest
      ∧ getNode name (store w1) = Some (Nat.iter steps (annotated key value) n)
      ∧ ∀ other, other ≠ name → getNode other (store w1) = getNode other (store w).
Proof.
  induction steps as [|steps IH]; intros lastErr w n Hlast Hscript Hget;
    cbn [retry.OnError].
  - rewrite (Hlast eq_refl). by exists w.
  - cbn [repeat mjoin list_join app] in Hscript.
    destruct (attempt_overtaken w n key value _ Hscript Hget) as (n1 & _ & ->).
    cbn [IsConflict].
    destruct (getNode_Some _ _ _ Hget) as [_ Hn].
    destruct (IH (Some Conflict)
                (mkWorld (putNode (annotated key value n) (store w))
                   (mjoin (repeat [Quiet; Annotate name key value] steps) ++ rest)
                   ((calls w ++ [CallGet name]) ++ [CallUpdate n1 false]) (klog w))
                (annotated key value n))
      as (w1 & Hrun & Hrest & Hnode & Hother);
      [done | reflexivity
       | exact (getNode_putNode name (store w) n (annotated key value n) Hget Hn) |].
    exists w1. split; [exact Hrun|]. split; [exact Hrest|]. split.
    + by rewrite Hnode, Nat.iter_succ_r.
    + intros other Hne. rewrite (Hother other Hne).
      apply getNode_putNode_other. cbn. congruence.
Qed.

End Conflicts.

(** X12: when another actor annotates the node between the read and the
    submission of [UpdateNodeRetry], the stale object is refused, and the
    second attempt applies the mutator to the object the other actor wrote
    and stores the result: neither write is lost.  Four calls are made. *)
Theorem update_after_conflict (name key value : string) (f : Node → option Node)
    (w : World) (n : Node) :
  (∀ x, ∃ x1, f x = Some x1 ∧ Name x1 = Name x
              ∧ ResourceVersion x1 = ResourceVersion x) →
  script w = [Quiet; Annotate name key value] →
  getNode name (store w) = Some n →
  ∃ (w1 : World) (n1 n2 : Node),
    k8sutil.UpdateNodeRetry name f w = (Done tt, w1)
    ∧ f n = Some n1
    ∧ f (annotated key value n) = Some n2
    ∧ getNode name (store w1)
      = Some (withResourceVersion n2 (S (S (ResourceVersion n))))
    ∧ calls w1
      = calls w ++ [CallGet name; CallUpdate n1 false; CallGet name; CallUpdate n2 true].
Proof.
  intros Hf Hscript Hget.
  destruct (attempt_overtaken name f Hf w n key value [] Hscript Hget) as (n1 & Hn1 & Hfirst).
  destruct (getNode_Some _ _ _ Hget) as [_ Hn].
  pose proof (getNode_putNode name (store w) n (annotated key value n) Hget Hn) as Hget1.
  destruct (attempt_accepted name f Hf
              (mkWorld (putNode (annotated key value n) (store w)) []
                 ((calls w ++ [CallGet name]) ++ [CallUpdate n1 false]) (klog w))
              (annotated key value n) eq_refl Hget1)
    as (n2 & Hn2 & Hsecond).
  eexists _, n1, n2.
  unfold k8sutil.UpdateNodeRetry, retry.RetryOnConflict, retry.DefaultBackoff.
  cbn [retry.OnError]. rewrite Hfirst. cbn [IsConflict]. rewrite Hsecond.
  split; [reflexivity|]. split; [exact Hn1|]. split; [exact Hn2|]. split.
  - cbn [store]. eapply getNode_putNode; [exact Hget1|].
    destruct (Hf (annotated key value n)) as (x & Hx & Hname & _).
    rewrite Hn2 in Hx. injection Hx as <-. cbn. cbn in Hname. congruence.
  - cbn [calls]. by rewrite <- !app_assoc.
Qed.

Lemma update_after_conflict_witness :
  ∃ w1 : World,
    k8sutil.UpdateNodeRetry "a" (fun n => Some (withUnschedulable n true)) racing
    = (Done tt, w1)
    ∧ getNode "a" (store w1)
      = Some (mkNode "a" 2 (Some ∅) (Some {[ "reboot-needed" := "true" ]}) true).
Proof.
  destruct (update_after_conflict "a" "reboot-needed" "true"
              (fun n => Some (withUnschedulable n true)) racing (node "a" [] []))
    as (w1 & n1 & n2 & Hrun & _ & Hn2 & Hget & _).
  - intros x. by eexists.
  - reflexivity.
  - reflexivity.
  - exists w1. split; [exact Hrun|]. rewrite Hget. injection Hn2 as <-.
    vm_compute. reflexivity.
Defined.

(** X13: when every one of the [DefaultBackoff] attempts of
    [UpdateNodeRetry] is overtaken by another actor's write, the call
    returns the conflict; the cluster then holds what the other actor wrote
    and nothing of the mutation, and the other nodes are as before. *)
Theorem update_gives_up (name key value : string) (f : Node → option Node)
    (w : World) (n : Node) (rest : list Disturbance) :
  (∀ x, ∃ x1, f x = Some x1 ∧ Name x1 = Name x
              ∧ ResourceVersion x1 = ResourceVersion x) →
  script w
  = mjoin (repeat [Quiet; Annotate name key value] retry.DefaultBackoff) ++ rest →
  getNode name (store w) = Some n →
  ∃ w1 : World,
    k8sutil.UpdateNodeRetry name f w
    = (Failed (Wrapped "unable to update node" Conflict), w1)
    ∧ script w1 = rest
    ∧ getNode name (store w1)
      = Some (Nat.iter retry.DefaultBackoff (annotated key value) n)
    ∧ ∀ other, other ≠ name → getNode other (store w1) = getNode other (store w).
Proof.
  intros Hf Hscript Hget.
  destruct (retry_overtaken name f Hf key value rest retry.DefaultBackoff None w n)
    as (w1 & Hrun & Hrest & Hnode & Hother); [done | exact Hscript | exact Hget |].
  exists w1. unfold k8sutil.UpdateNodeRetry, retry.RetryOnConflict. rewrite Hrun.
  by repeat split.
Qed.

Lemma update_gives_up_witness :
  ∃ w1 : World,
    k8sutil.UpdateNodeRetry "a" (fun n => Some (withUnschedulable n true))
      (mkWorld [node "a" [] []]
         (mjoin (repeat [Quiet; Annotate "a" "reboot-needed" "true"] 4)) [] [])
    = (Failed (Wrapped "unable to update node" Conflict), w1)
    ∧ getNode "a" (store w1)
      = Some (mkNode "a" 4 (Some ∅) (Some {[ "reboot-needed" := "true" ]}) false).
Proof.
  destruct (update_gives_up "a" "reboot-needed" "true"
              (fun n => Some (withUnschedulable n true))
              (mkWorld [node "a" [] []]
                 (mjoin (repeat [Quiet; Annotate "a" "reboot-needed" "true"] 4)) [] [])
              (node "a" [] []) [])
    as (w1 & Hrun & _ & Hget & _).
  - intros x. by eexists.
  - vm_compute. reflexivity.
  - reflexivity.
  - exists w1. split; [exact Hrun|]. rewrite Hget. vm_compute. reflexivity.
Defined.

(** ** The phases in a cluster where nobody else acts *)

Lemma putNode_names (x : Node) (s : list Node) :
  List.map Name (putNode x s) = List.map Name s.
Proof.
  unfold putNode. rewrite List.map_map. apply List.map_ext. intros m.
  apply putNode_Name.
Qed.

Lemma filter_names_NoDup (P : Node → bool) (s : list Node) :
  NoDup (List.map Name s) → NoDup (List.map Name (List.filter P s)).
Proof.
  induction s as [|a s IH]; intros Hnd; [constructor|].
  cbn [List.map] in Hnd. apply NoDup_cons in Hnd as [Hnin Hnd].
  cbn [List.filter]. destruct (P a); [|by apply IH].
  cbn [List.map]. apply NoDup_cons. split; [|by apply IH].
  intros Hin. apply Hnin.
  apply list_elem_of_fmap in Hin as (m & Hm & Hin).
  apply list_elem_of_In, List.filter_In in Hin as [Hin _].
  rewrite Hm. apply list_elem_of_In, List.in_map, Hin.
Qed.

Lemma firstn_names_NoDup (j : nat) (s : list Node) :
  NoDup (List.map Name s) → NoDup (List.map Name (firstn j s)).
Proof.
  revert j. induction s as [|a s IH]; intros j Hnd; [by destruct j; constructor|].
  destruct j as [|j]; [constructor|].
  cbn [List.map] in Hnd. apply NoDup_cons in Hnd as [Hnin Hnd].
  cbn [firstn List.map]. apply NoDup_cons. split; [|by apply IH].
  intros Hin. apply Hnin.
  apply list_elem_of_fmap in Hin as (m & Hm & Hin).
  rewrite Hm. apply list_elem_of_In, List.in_map, list_elem_of_In.
  by apply (subseteq_take j s).
Qed.

Lemma forNodes_filter (P : Node → bool) (body : Node → World → Outcome unit * World)
    (l : list Node) :
  ∀ w : World,
    forNodes (fun n w0 => if P n then body n w0 else (Done tt, w0)) l w
    = forNodes body (List.filter P l) w.
Proof.
  induction l as [|a l IH]; intros w; [reflexivity|].
  cbn [forNodes List.filter]. destruct (P a); cbn [forNodes]; [|apply IH].
  destruct (body a w) as [[[]|e|] w1]; [apply IH | reflexivity | reflexivity].
Qed.

Lemma wrap_Done (context : string) (m : World → Outcome unit * World) (w w1 : World) :
  m w = (Done tt, w1) → wrap context m w = (Done tt, w1).
Proof. unfold wrap. by intros ->. Qed.

Section UpdateLoop.

Variable f : Node → option Node.
Variable body : Node → World → Outcome unit * World.
Hypothesis f_keeps :
  ∀ n n1, f n = Some n1 →
          Name n1 = Name n ∧ ResourceVersion n1 = ResourceVersion n.
Hypothesis body_updates :
  ∀ n w w1,
    k8sutil.UpdateNodeRetry (Name n) f w = (Done tt, w1) → body n w = (Done tt, w1).

Lemma updated_Name (n : Node) : Name (updated f n) = Name n.
Proof.
  unfold updated. destruct (f n) as [n1|] eqn:Hf; [|reflexivity].
  destruct (f_keeps _ _ Hf) as [Hname _]. exact Hname.
Qed.

(** A loop of updates over a selection of the listed nodes leaves the
    selected nodes updated once and the others as they were. *)
Lemma update_loop :
  ∀ (sel : list Node) (w : World),
    script w = [] →
    NoDup (List.map Name (store w)) →
    NoDup (List.map Name sel) →
    (∀ n, n ∈ sel → n ∈ store w ∧ is_Some (f n)) →
    ∃ w1 : World,
      forNodes body sel w = (Done tt, w1)
      ∧ script w1 = []
      ∧ klog w1 = klog w
      ∧ store w1
        = List.map (fun m => if bool_decide (Name m ∈ List.map Name sel)
                             then updated f m else m) (store w).
Proof.
  induction sel as [|n sel IH]; intros w Hq Hnd Hsel Hin; cbn [forNodes].
  - exists w. repeat split; try done.
    rewrite <- (List.map_id (store w)) at 1. apply List.map_ext. intros m.
    by rewrite bool_decide_eq_false_2 by apply not_elem_of_nil.
  - destruct (Hin n (list_elem_of_here _ _)) as [Hn [n1 Hf]].
    destruct (f_keeps _ _ Hf) as [Hname Hrv].
    pose proof (getNode_self _ _ Hnd Hn) as Hget.
    destruct (UpdateNodeRetry_quiet (Name n) f w n Hq Hget n1 Hf Hname Hrv)
      as (w1 & Hupd & Hs1 & Hq1 & Hk1).
    rewrite (body_updates _ _ _ Hupd).
    cbn [List.map] in Hsel. apply NoDup_cons in Hsel as [Hnin Hsel].
    destruct (IH w1 Hq1) as (w2 & Hloop & Hq2 & Hk2 & Hs2).
    + by rewrite Hs1, putNode_names.
    + exact Hsel.
    + intros m Hm. destruct (Hin m (list_elem_of_further _ _ _ Hm)) as [Hms Hfm].
      split; [|exact Hfm]. rewrite Hs1. unfold putNode.
      apply list_elem_of_In, List.in_map_iff. exists m. split; [|by apply list_elem_of_In].
      destruct (String.eqb_spec (Name m) (Name (updated f n))) as [Heq|_]; [|reflexivity].
      exfalso. apply Hnin. rewrite updated_Name in Heq. rewrite <- Heq.
      apply list_elem_of_In, List.in_map, list_elem_of_In, Hm.
    + exists w2. split; [exact Hloop|]. split; [exact Hq2|]. split; [congruence|].
      rewrite Hs2, Hs1. unfold putNode. rewrite List.map_map.
      apply List.map_ext_in. intros m Hm. apply list_elem_of_In in Hm.
      rewrite updated_Name. cbn [List.map].
      destruct (String.eqb_spec (Name m) (Name n)) as [Heq|Hne].
      * rewrite (names_inj _ m n Hnd Hm Hn Heq).
        rewrite updated_Name, bool_decide_eq_false_2 by exact Hnin.
        by rewrite bool_decide_eq_true_2 by (by left).
      * destruct (decide (Name m ∈ List.map Name sel)) as [Hy|Hno].
        -- by rewrite !bool_decide_eq_true_2 by (by try right).
        -- rewrite !bool_decide_eq_false_2; [reflexivity | | exact Hno].
           intros [?|?]%elem_of_cons; done.
Qed.

End UpdateLoop.


Lemma filter_filter_and (P Q : Node → bool) (s : list Node) :
  List.filter Q (List.filter P s) = List.filter (fun n => P n && Q n) s.
Proof.
  induction s as [|a s IH]; [reflexivity|]. cbn [List.filter].
  destruct (P a); cbn [List.filter andb]; [|exact IH].
  destruct (Q a); by rewrite IH.
Qed.

Lemma name_in_filter (P : Node → bool) (s : list Node) (n : Node) :
  NoDup (List.map Name s) → n ∈ s →
  bool_decide (Name n ∈ List.map Name (List.filter P s)) = P n.
Proof.
  intros Hnd Hn. destruct (P n) eqn:HP.
  - apply bool_decide_eq_true_2.
    apply list_elem_of_In, List.in_map, List.filter_In.
    split; [by apply list_elem_of_In | exact HP].
  - apply bool_decide_eq_false_2. intros Hin.
    apply list_elem_of_fmap in Hin as (m & Hm & Hin).
    apply list_elem_of_In, List.filter_In in Hin as [Hin HPm].
    apply list_elem_of_In in Hin.
    rewrite (names_inj s n m Hnd Hn Hin Hm) in HP. congruence.
Qed.

(** X14: [checkReboot] in a cluster where nobody else acts, whose nodes have
    an annotation map: every node that matches the label requirement and has
    all the annotations at "true" ends up, one resource version later,
    without the label, without the annotations of the list and with
    ok-to-reboot written; for every other node nothing is submitted and the
    stored object, its resource version included, is as before. *)
Theorem checkReboot_quiet (req : labels.Requirement) (annotations : list string)
    (label okToReboot : string) (w : World) :
  script w = [] →
  NoDup (List.map Name (store w)) →
  (∀ n, n ∈ store w → is_Some (Annotations n)) →
  ∃ w1 : World,
    checkReboot req annotations label okToReboot w = (Done tt, w1)
    ∧ ∀ n, n ∈ store w →
        if labels.Matches req (Labels n) && hasAllAnnotations n annotations
        then ∃ g,
               deleteAll annotations (Annotations n) = Some g
               ∧ getNode (Name n) (store w1)
                 = Some (mkNode (Name n) (S (ResourceVersion n))
                           (gomap.del label (Labels n))
                           (Some (<[constants.AnnotationOkToReboot:=okToReboot]> g))
                           (Unschedulable n))
        else getNode (Name n) (store w1) = Some n.
Proof.
  intros Hq Hnd Hann. unfold checkReboot, listing. rewrite (List_quiet w Hq).
  set (f := run (checkRebootProgram annotations label okToReboot)).
  set (P := fun n : Node => hasAllAnnotations n annotations).
  set (body := fun n : Node => wrap "updating node" (k8sutil.UpdateNodeRetry (Name n) f)).
  change (forNodes (checkRebootNode annotations label okToReboot))
    with (forNodes (fun n w0 => if P n then body n w0 else (Done tt, w0))).
  rewrite forNodes_filter. unfold k8sutil.FilterNodesByRequirement.
  rewrite filter_filter_and.
  set (sel := fun n : Node => labels.Matches req (Labels n) && P n).
  assert (∀ n n1, f n = Some n1 →
                  Name n1 = Name n ∧ ResourceVersion n1 = ResourceVersion n) as Hkeep.
  { intros n n1 Hf. by destruct (run_preserves _ _ _ Hf) as (? & ? & _). }
  destruct (update_loop f body Hkeep (fun n w0 w1 H => wrap_Done _ _ _ _ H)
              (List.filter sel (store w)) (record CallList w) Hq Hnd
              (filter_names_NoDup sel _ Hnd)) as (w1 & Hloop & _ & _ & Hs1).
  { intros n Hn. apply list_elem_of_In, List.filter_In in Hn as [Hn _].
    apply list_elem_of_In in Hn. split; [exact Hn|].
    destruct (Hann n Hn) as [a Ha]. unfold f. rewrite run_checkRebootProgram, Ha.
    by destruct (deleteAll_Some annotations a) as [g ->]. }
  exists w1. split; [exact Hloop|]. intros n Hn. rewrite Hs1. cbn [record store].
  rewrite (getNode_map _ _ n); [|intros m; destruct (bool_decide _);
                                 [by apply updated_Name | reflexivity] | exact Hnd | exact Hn].
  rewrite (name_in_filter sel _ n Hnd Hn). unfold sel, P.
  destruct (labels.Matches req (Labels n) && hasAllAnnotations n annotations);
    [|reflexivity].
  destruct (Hann n Hn) as [a Ha]. destruct (deleteAll_Some annotations a) as [g Hg].
  exists g. rewrite Ha. split; [exact Hg|].
  unfold updated, f. by rewrite run_checkRebootProgram, Ha, Hg.
Qed.

Lemma checkReboot_quiet_witness :
  ∃ w1 : World,
    checkBeforeReboot unhooked (quiet [pending; rebooted]) = (Done tt, w1)
    ∧ getNode "a" (store w1) = Some rebooted.
Proof.
  destruct (checkReboot_quiet beforeRebootReq [] constants.LabelBeforeReboot
              constants.True (quiet [pending; rebooted]))
    as (w1 & Hrun & Hnodes).
  - reflexivity.
  - vm_compute. apply NoDup_cons. split; [by intros ?%list_elem_of_singleton|].
    apply NoDup_singleton.
  - intros n Hn. apply elem_of_cons in Hn as [->|Hn]; [by eexists|].
    apply list_elem_of_singleton in Hn as ->. by eexists.
  - exists w1. split; [exact Hrun|].
    exact (Hnodes rebooted (list_elem_of_further _ _ _ (list_elem_of_here _ _))).
Defined.

(** X15: [markAfterReboot] in a cluster where nobody else acts, whose nodes
    have a label map: every node that has just rebooted and does not carry
    after-reboot=true is labeled after-reboot=true and loses the
    after-reboot hook annotations, however many such nodes there are; for
    every other node nothing is submitted and the stored object is as
    before. *)
Theorem markAfterReboot_quiet (k : Kontroller) (w : World) :
  script w = [] →
  NoDup (List.map Name (store w)) →
  (∀ n, n ∈ store w → is_Some (Labels n)) →
  ∃ w1 : World,
    markAfterReboot k w = (Done tt, w1)
    ∧ ∀ n, n ∈ store w →
        if fields.Matches justRebootedSelector (Annotations n)
           && labels.Matches notAfterRebootReq (Labels n)
        then ∃ g,
               Labels n = Some g
               ∧ getNode (Name n) (store w1)
                 = Some (mkNode (Name n) (S (ResourceVersion n))
                           (Some (<[constants.LabelAfterReboot:=constants.True]> g))
                           (deleteAll (afterRebootAnnotations k) (Annotations n))
                           (Unschedulable n))
        else getNode (Name n) (store w1) = Some n.
Proof.
  intros Hq Hnd Hlab. unfold markAfterReboot, listing. rewrite (List_quiet w Hq).
  set (f := run (markProgram constants.LabelAfterReboot (afterRebootAnnotations k))).
  unfold k8sutil.FilterNodesByRequirement, k8sutil.FilterNodesByAnnotation.
  rewrite filter_filter_and.
  set (sel := fun n : Node => fields.Matches justRebootedSelector (Annotations n)
                              && labels.Matches notAfterRebootReq (Labels n)).
  assert (∀ n n1, f n = Some n1 →
                  Name n1 = Name n ∧ ResourceVersion n1 = ResourceVersion n) as Hkeep.
  { intros n n1 Hf. by destruct (run_preserves _ _ _ Hf) as (? & ? & _). }
  destruct (update_loop f
              (fun n => wrap "labeling node for after reboot checks"
                          (mark (Name n) constants.LabelAfterReboot
                             (afterRebootAnnotations k)))
              Hkeep
              (fun n w0 w1 H => wrap_Done _ _ _ _ (wrap_Done _ _ _ _ H))
              (List.filter sel (store w)) (record CallList w) Hq Hnd
              (filter_names_NoDup sel _ Hnd)) as (w1 & Hloop & _ & _ & Hs1).
  { intros n Hn. apply list_elem_of_In, List.filter_In in Hn as [Hn _].
    apply list_elem_of_In in Hn. split; [exact Hn|].
    destruct (Hlab n Hn) as [g Hg]. unfold f. by rewrite run_markProgram, Hg. }
  exists w1. split; [exact Hloop|]. intros n Hn. rewrite Hs1. cbn [record store].
  rewrite (getNode_map _ _ n); [|intros m; destruct (bool_decide _);
                                 [by apply updated_Name | reflexivity] | exact Hnd | exact Hn].
  rewrite (name_in_filter sel _ n Hnd Hn). unfold sel.
  destruct (fields.Matches justRebootedSelector (Annotations n)
            && labels.Matches notAfterRebootReq (Labels n)); [|reflexivity].
  destruct (Hlab n Hn) as [g Hg]. exists g. split; [exact Hg|].
  unfold updated, f. by rewrite run_markProgram, Hg.
Qed.

Lemma markAfterReboot_quiet_witness :
  ∃ w1 : World,
    markAfterReboot hooked (quiet [rebooted; pending]) = (Done tt, w1)
    ∧ getNode "b" (store w1) = Some pending.
Proof.
  destruct (markAfterReboot_quiet hooked (quiet [rebooted; pending]))
    as (w1 & Hrun & Hnodes).
  - reflexivity.
  - vm_compute. apply NoDup_cons. split; [by intros ?%list_elem_of_singleton|].
    apply NoDup_singleton.
  - intros n Hn. apply elem_of_cons in Hn as [->|Hn]; [by eexists|].
    apply list_elem_of_singleton in Hn as ->. by eexists.
  - exists w1. split; [exact Hrun|].
    exact (Hnodes pending (list_elem_of_further _ _ _ (list_elem_of_here _ _))).
Defined.


(** An attempt whose read comes after another actor's write. *)
Lemma attempt_after_write (name key value : string) (f : Node → option Node)
    (w : World) (n n1 : Node) :
  script w = [Annotate name key value] →
  getNode name (store w) = Some n →
  f (annotated key value n) = Some n1 →
  Name n1 = Name n →
  ResourceVersion n1 = S (ResourceVersion n) →
  ∃ w1 : World,
    k8sutil.updateAttempt name f tt w = ((tt, Done tt), w1)
    ∧ getNode name (store w1)
      = Some (withResourceVersion n1 (S (S (ResourceVersion n)))).
Proof.
  intros Hscript Hget Hf Hname Hrv.
  destruct (getNode_Some _ _ _ Hget) as [_ Hn].
  pose proof (getNode_putNode name (store w) n (annotated key value n) Hget Hn) as Hget1.
  unfold k8sutil.updateAttempt, nodes.Get, disturb. rewrite Hscript.
  cbn -[getNode putNode]. rewrite Hget. cbn -[getNode putNode]. rewrite Hget1, Hf.
  unfold nodes.Update, disturb. cbn -[getNode putNode Nat.eqb].
  unfold nodes.admits. rewrite Hname, Hn, Hget1. cbn -[getNode putNode Nat.eqb].
  rewrite Hrv, Nat.eqb_refl. eexists. split; [reflexivity|].
  cbn -[getNode putNode]. eapply getNode_putNode; [exact Hget1|]. cbn. congruence.
Qed.

(** X16: [checkReboot] decides on the listed object and does not look again:
    when another actor annotates the one node that passes, after the
    listing and before the update reads it, the node still loses the label
    and gets ok-to-reboot written, on top of what the other actor wrote;
    this holds whatever was written, a hook annotation that is no longer
    "true" or a withdrawn reboot-needed included. *)
Theorem checkReboot_acts_on_listing (req : labels.Requirement)
    (annotations : list string) (label okToReboot key value : string)
    (w : World) (n : Node) :
  script w = [Quiet; Annotate (Name n) key value] →
  NoDup (List.map Name (store w)) →
  n ∈ store w →
  List.filter (fun m => labels.Matches req (Labels m)
                        && hasAllAnnotations m annotations) (store w) = [n] →
  ∃ (w1 : World) (g : gmap string string),
    checkReboot req annotations label okToReboot w = (Done tt, w1)
    ∧ deleteAll annotations (Annotations (annotated key value n)) = Some g
    ∧ getNode (Name n) (store w1)
      = Some (mkNode (Name n) (S (S (ResourceVersion n)))
                (gomap.del label (Labels n))
                (Some (<[constants.AnnotationOkToReboot:=okToReboot]> g))
                (Unschedulable n)).
Proof.
  intros Hscript Hnd Hn Hsel.
  assert (∃ g, deleteAll annotations (Annotations (annotated key value n)) = Some g)
    as [g Hg].
  { unfold annotated. cbn. destruct (Annotations n); apply deleteAll_Some. }
  set (f := run (checkRebootProgram annotations label okToReboot)).
  assert (f (annotated key value n)
          = Some (mkNode (Name n) (S (ResourceVersion n)) (gomap.del label (Labels n))
                    (Some (<[constants.AnnotationOkToReboot:=okToReboot]> g))
                    (Unschedulable n))) as Hf
    by (unfold f; by rewrite run_checkRebootProgram, Hg).
  destruct (attempt_after_write (Name n) key value f
              (mkWorld (store w) [Annotate (Name n) key value] (calls w ++ [CallList])
                 (klog w))
              n _ eq_refl (getNode_self _ _ Hnd Hn) Hf eq_refl eq_refl)
    as (w1 & Hattempt & Hget).
  exists w1, g. split; [|split; [exact Hg | exact Hget]].
  unfold checkReboot, listing, nodes.List, disturb. rewrite Hscript.
  cbn [record store script calls klog fst snd].
  change (forNodes (checkRebootNode annotations label okToReboot))
    with (forNodes (fun m w0 =>
            if (fun m0 : Node => hasAllAnnotations m0 annotations) m
            then wrap "updating node" (k8sutil.UpdateNodeRetry (Name m) f) w0
            else (Done tt, w0))).
  rewrite (forNodes_filter (fun m0 : Node => hasAllAnnotations m0 annotations)
             (fun m => wrap "updating node" (k8sutil.UpdateNodeRetry (Name m) f))).
  unfold k8sutil.FilterNodesByRequirement. rewrite filter_filter_and, Hsel.
  cbn [forNodes]. unfold wrap, k8sutil.UpdateNodeRetry, retry.RetryOnConflict,
    retry.DefaultBackoff.
  cbn [retry.OnError]. unfold record. cbn [store script calls klog].
  by rewrite Hattempt.
Qed.

Lemma checkReboot_acts_on_listing_witness :
  ∃ w1 : World,
    checkBeforeReboot hooked
      (mkWorld [cleared] [Quiet; Annotate "a" "reboot-needed" "false"] [] [])
    = (Done tt, w1)
    ∧ getNode "a" (store w1)
      = Some (mkNode "a" 2 (Some ∅)
                (Some (list_to_map [("ok-to-reboot", "true"); ("reboot-needed", "false")]))
                false).
Proof.
  destruct (checkReboot_acts_on_listing beforeRebootReq ["before-hook"]
              constants.LabelBeforeReboot constants.True "reboot-needed" "false"
              (mkWorld [cleared] [Quiet; Annotate "a" "reboot-needed" "false"] [] [])
              cleared)
    as (w1 & g & Hrun & Hg & Hget).
  - reflexivity.
  - apply NoDup_singleton.
  - by left.
  - vm_compute. reflexivity.
  - exists w1. split; [exact Hrun|]. refine (eq_trans Hget _).
    vm_compute in Hg. injection Hg as <-. vm_compute. reflexivity.
Defined.

(** ** What a tick may change *)







Lemma Forall2_compose (R1 R2 R3 : Node → Node → Prop) (s0 s1 s2 : list Node) :
  (∀ a b c, R1 a b → R2 b c → R3 a c) →
  Forall2 R1 s0 s1 → Forall2 R2 s1 s2 → Forall2 R3 s0 s2.
Proof.
  intros Hcomp H1. revert s2. induction H1 as [|a b s0 s1 Hab _ IH]; intros s2 H2;
    inversion H2; subst; constructor; [by eapply Hcomp | by apply IH].
Qed.

Lemma Forall2_map_rel (R : Node → Node → Prop) (H : Node → Node) (s : list Node) :
  (∀ m, m ∈ s → R m (H m)) → Forall2 R s (List.map H s).
Proof.
  induction s as [|a s IH]; intros Hall; cbn [List.map]; constructor.
  - apply Hall. by left.
  - apply IH. intros m Hm. apply Hall. by right.
Qed.

Lemma filter_subset (P : Node → bool) (s : list Node) (n : Node) :
  n ∈ List.filter P s → n ∈ s.
Proof. intros Hn. by apply list_elem_of_In, List.filter_In in Hn as [?%list_elem_of_In _]. Qed.

Lemma filter_holds (P : Node → bool) (s : list Node) (n : Node) :
  n ∈ List.filter P s → P n = true.
Proof. intros Hn. by apply list_elem_of_In, List.filter_In in Hn as [_ ?]. Qed.

Lemma run_keeps (p : list Mutation) (n n1 : Node) :
  run p n = Some n1 → Name n1 = Name n ∧ ResourceVersion n1 = ResourceVersion n.
Proof. intros Hrun. by destruct (run_preserves _ _ _ Hrun) as (? & ? & _). Qed.

Lemma putNode_self (s : list Node) (n : Node) :
  NoDup (List.map Name s) → n ∈ s → putNode n s = s.
Proof.
  intros Hnd Hn. unfold putNode. rewrite <- (List.map_id s) at 2.
  apply List.map_ext_in. intros m Hm. apply list_elem_of_In in Hm.
  destruct (String.eqb_spec (Name m) (Name n)) as [Heq|]; [|reflexivity].
  symmetry. by apply (names_inj s).
Qed.

Lemma wrap_passes (context : string) (m : World → Outcome unit * World)
    (w w1 : World) (o : Outcome unit) :
  m w = (o, w1) → o = Done tt ∨ o = Panicked → wrap context m w = (o, w1).
Proof. intros Hm [-> | ->]; unfold wrap; by rewrite Hm. Qed.

(** A loop of updates over listed nodes in a cluster where nobody else
    acts, whether or not the mutator panics on one of them. *)
Section SteadyLoop.

Variable R : Node → Node → Prop.
Variable f : Node → option Node.
Variable body : Node → World → Outcome unit * World.
Hypothesis R_refl : ∀ n, R n n.
Hypothesis f_keeps :
  ∀ n n1, f n = Some n1 →
          Name n1 = Name n ∧ ResourceVersion n1 = ResourceVersion n.
Hypothesis body_passes :
  ∀ n w w1 o,
    k8sutil.UpdateNodeRetry (Name n) f w = (o, w1) →
    o = Done tt ∨ o = Panicked →
    body n w = (o, w1).

(** One update: the object is stored with the mutation, or the mutator
    panics and nothing is submitted. *)
Lemma quiet_update (w : World) (n : Node) :
  script w = [] →
  NoDup (List.map Name (store w)) →
  n ∈ store w →
  ∃ (o : Outcome unit) (w1 : World),
    k8sutil.UpdateNodeRetry (Name n) f w = (o, w1)
    ∧ (o = Done tt ∨ o = Panicked)
    ∧ script w1 = []
    ∧ klog w1 = klog w
    ∧ store w1 = putNode (updated f n) (store w).
Proof.
  intros Hq Hnd Hn. pose proof (getNode_self _ _ Hnd Hn) as Hget.
  destruct (f n) as [n1|] eqn:Hf.
  - destruct (f_keeps _ _ Hf) as [Hname Hrv].
    destruct (UpdateNodeRetry_quiet (Name n) f w n Hq Hget n1 Hf Hname Hrv)
      as (w1 & Hupd & Hs1 & Hq1 & Hk1).
    exists (Done tt), w1. repeat split; auto.
  - rewrite (UpdateNodeRetry_quiet_panic (Name n) f w n Hq Hget Hf).
    exists Panicked, (record (CallGet (Name n)) w). repeat split; auto.
    cbn. unfold updated. rewrite Hf. symmetry. by apply putNode_self.
Qed.

Lemma map_after_put (n : Node) (done : list Node) (s : list Node) :
  NoDup (List.map Name s) →
  n ∈ s →
  Name n ∉ List.map Name done →
  List.map (fun m => if bool_decide (Name m ∈ List.map Name done)
                     then updated f m else m) (putNode (updated f n) s)
  = List.map (fun m => if bool_decide (Name m ∈ List.map Name (n :: done))
                       then updated f m else m) s.
Proof.
  intros Hnd Hn Hnin. unfold putNode. rewrite List.map_map.
  apply List.map_ext_in. intros m Hm. apply list_elem_of_In in Hm.
  rewrite (updated_Name f f_keeps). cbn [List.map].
  destruct (String.eqb_spec (Name m) (Name n)) as [Heq|Hne].
  - rewrite (names_inj _ m n Hnd Hm Hn Heq).
    rewrite (updated_Name f f_keeps), bool_decide_eq_false_2 by exact Hnin.
    by rewrite bool_decide_eq_true_2 by (by left).
  - destruct (decide (Name m ∈ List.map Name done)) as [Hy|Hno].
    + by rewrite !bool_decide_eq_true_2 by (by try right).
    + rewrite !bool_decide_eq_false_2; [reflexivity | | exact Hno].
      intros [?|?]%elem_of_cons; done.
Qed.

(** The loop stops at the first node on which the mutator panics; the
    nodes before it, [done], are updated once, the others are as they
    were. *)
Lemma steady_loop :
  ∀ (sel : list Node) (w : World),
    script w = [] →
    NoDup (List.map Name (store w)) →
    NoDup (List.map Name sel) →
    (∀ n, n ∈ sel → n ∈ store w) →
    ∃ (o : Outcome unit) (w1 : World) (done : list Node),
      forNodes body sel w = (o, w1)
      ∧ (o = Done tt ∨ o = Panicked)
      ∧ script w1 = []
      ∧ klog w1 = klog w
      ∧ (∀ n, n ∈ done → n ∈ sel)
      ∧ store w1
        = List.map (fun m => if bool_decide (Name m ∈ List.map Name done)
                             then updated f m else m) (store w).
Proof.
  induction sel as [|n sel IH]; intros w Hq Hnd Hsel Hin; cbn [forNodes].
  - exists (Done tt), w, []. repeat split; auto.
    rewrite <- (List.map_id (store w)) at 1. apply List.map_ext. intros m.
    by rewrite bool_decide_eq_false_2 by apply not_elem_of_nil.
  - pose proof (Hin n (list_elem_of_here _ _)) as Hn.
    destruct (quiet_update w n Hq Hnd Hn) as (o & w1 & Hupd & Ho & Hq1 & Hk1 & Hs1).
    rewrite (body_passes _ _ _ _ Hupd Ho).
    cbn [List.map] in Hsel. apply NoDup_cons in Hsel as [Hnin Hsel].
    destruct Ho as [-> | ->].
    + destruct (IH w1 Hq1) as (o2 & w2 & done & Hloop & Ho2 & Hq2 & Hk2 & Hdone & Hs2).
      * by rewrite Hs1, putNode_names.
      * exact Hsel.
      * intros m Hm. rewrite Hs1. unfold putNode.
        apply list_elem_of_In, List.in_map_iff. exists m.
        split; [|by apply list_elem_of_In, Hin; right].
        destruct (String.eqb_spec (Name m) (Name (updated f n))) as [Heq|_];
          [|reflexivity].
        exfalso. apply Hnin. rewrite (updated_Name f f_keeps) in Heq. rewrite <- Heq.
        apply list_elem_of_In, List.in_map, list_elem_of_In, Hm.
      * exists o2, w2, (n :: done). split; [exact Hloop|]. split; [exact Ho2|].
        split; [exact Hq2|]. split; [congruence|]. split.
        -- intros m [->|Hm]%elem_of_cons; [by left | by right; apply Hdone].
        -- rewrite Hs2, Hs1. apply map_after_put; [exact Hnd | exact Hn|].
           intros Hy. apply Hnin.
           apply list_elem_of_fmap in Hy as (m & -> & Hm).
           apply list_elem_of_fmap. exists m. split; [reflexivity | by apply Hdone].
    + exists Panicked, w1, [n]. split; [reflexivity|]. split; [by right|].
      split; [exact Hq1|]. split; [exact Hk1|]. split.
      * intros m Hm. apply list_elem_of_singleton in Hm as ->. by left.
      * rewrite Hs1. rewrite <- map_after_put; [|exact Hnd | exact Hn|].
        -- rewrite <- (List.map_id (putNode _ _)) at 1. apply List.map_ext.
           intros m. by rewrite bool_decide_eq_false_2 by apply not_elem_of_nil.
        -- apply not_elem_of_nil.
Qed.

(** After the listing of a phase, a loop over a selection of the listed
    nodes leaves every node related by [R] to what it was. *)
Lemma steady_selection (sel : list Node) (w : World) :
  script w = [] →
  NoDup (List.map Name (store w)) →
  NoDup (List.map Name sel) →
  (∀ n, n ∈ sel → n ∈ store w) →
  (∀ n n1, n ∈ sel → f n = Some n1 →
           R n (withResourceVersion n1 (S (ResourceVersion n1)))) →
  ((forNodes body sel (record CallList w)).1 = Done tt
   ∨ (forNodes body sel (record CallList w)).1 = Panicked)
  ∧ script (forNodes body sel (record CallList w)).2 = []
  ∧ klog (forNodes body sel (record CallList w)).2 = klog w
  ∧ NoDup (List.map Name (store (forNodes body sel (record CallList w)).2))
  ∧ Forall2 R (store w) (store (forNodes body sel (record CallList w)).2).
Proof.
  intros Hq Hnd Hsel Hin HR.
  destruct (steady_loop sel (record CallList w) Hq Hnd Hsel Hin)
    as (o & w1 & done & Hloop & Ho & Hq1 & Hk1 & Hdone & Hs1).
  rewrite Hloop. cbn [fst snd record store klog] in *.
  split; [exact Ho|]. split; [exact Hq1|]. split; [exact Hk1|].
  rewrite Hs1. split.
  - rewrite List.map_map.
    rewrite (List.map_ext _ Name); [exact Hnd|].
    intros m. destruct (bool_decide _); [by apply updated_Name | reflexivity].
  - apply Forall2_map_rel. intros m Hm.
    destruct (bool_decide (Name m ∈ List.map Name done)) eqn:Hd; [|apply R_refl].
    apply bool_decide_eq_true_1 in Hd.
    apply list_elem_of_fmap in Hd as (m1 & Hname & Hm1).
    rewrite (names_inj _ m m1 Hnd Hm (Hin m1 (Hdone m1 Hm1)) Hname).
    unfold updated. destruct (f m1) as [n1|] eqn:Hf; [|apply R_refl].
    by apply HR; [apply Hdone|].
Qed.

End SteadyLoop.

Lemma steady_return (R : Node → Node → Prop) :
  (∀ n, R n n) → steady R (fun w => (Done tt, w)).
Proof.
  intros Hrefl w Hq Hnd. cbn. repeat split; auto.
  apply Forall_Forall2_diag, Forall_forall. intros n _. apply Hrefl.
Qed.

(** A phase followed by the rest of the tick: when the phase panics the
    tick ends there, with what the phase has done. *)
Lemma steady_orReturn (R1 R2 R3 : Node → Node → Prop) (context : string)
    (phase rest : World → Outcome unit * World) :
  (∀ a b c, R1 a b → R2 b c → R3 a c) →
  (∀ n, R2 n n) →
  steady R1 phase → steady R2 rest → steady R3 (orReturn context phase rest).
Proof.
  intros Hcomp Hrefl Hphase Hrest w Hq Hnd.
  destruct (Hphase w Hq Hnd) as (Ho & Hq1 & Hk1 & Hnd1 & HR1). unfold orReturn.
  destruct (phase w) as [o w1]. cbn [fst snd] in *. destruct Ho as [-> | ->].
  - destruct (Hrest w1 Hq1 Hnd1) as (Ho2 & Hq2 & Hk2 & Hnd2 & HR2).
    split; [exact Ho2|]. split; [exact Hq2|]. split; [congruence|].
    split; [exact Hnd2|]. by eapply Forall2_compose.
  - cbn [fst snd]. split; [by right|]. split; [exact Hq1|]. split; [exact Hk1|].
    split; [exact Hnd1|]. eapply Forall2_compose; [exact Hcomp | exact HR1|].
    apply Forall_Forall2_diag, Forall_forall. intros n _. apply Hrefl.
Qed.

(** The five phases. *)
Section SteadyPhases.

Variable k : Kontroller.
Variable R : Node → Node → Prop.
Hypothesis R_refl : ∀ n, R n n.

Lemma cleanupState_steady :
  (∀ n n1, cleanupMutator k n = Some n1 →
           R n (withResourceVersion n1 (S (ResourceVersion n1)))) →
  steady R (cleanupState k).
Proof.
  intros HR w Hq Hnd. unfold cleanupState, listing. rewrite (List_quiet w Hq).
  apply (steady_selection R (cleanupMutator k)); try done.
  - apply cleanupMutator_preserves.
  - intros n w0 w1 o H Ho. by apply wrap_passes.
  - intros n n1 _. apply HR.
Qed.

Lemma checkReboot_steady (req : labels.Requirement) (annotations : list string)
    (label okToReboot : string) :
  (∀ n n1, labels.Matches req (Labels n) = true →
           hasAllAnnotations n annotations = true →
           run (checkRebootProgram annotations label okToReboot) n = Some n1 →
           R n (withResourceVersion n1 (S (ResourceVersion n1)))) →
  steady R (checkReboot req annotations label okToReboot).
Proof.
  intros HR w Hq Hnd. unfold checkReboot, listing. rewrite (List_quiet w Hq).
  set (f := run (checkRebootProgram annotations label okToReboot)).
  change (forNodes (checkRebootNode annotations label okToReboot))
    with (forNodes (fun m w0 =>
            if (fun m0 : Node => hasAllAnnotations m0 annotations) m
            then wrap "updating node" (k8sutil.UpdateNodeRetry (Name m) f) w0
            else (Done tt, w0))).
  rewrite (forNodes_filter (fun m0 : Node => hasAllAnnotations m0 annotations)
             (fun m => wrap "updating node" (k8sutil.UpdateNodeRetry (Name m) f))).
  apply (steady_selection R f); try done.
  - apply run_keeps.
  - intros n w0 w1 o H Ho. by apply wrap_passes.
  - by do 2 apply filter_names_NoDup.
  - intros n Hn. by do 2 apply filter_subset in Hn.
  - intros n n1 Hn. apply HR.
    + apply filter_subset in Hn. by apply filter_holds in Hn.
    + by apply filter_holds in Hn.
Qed.

Lemma markLoop_steady (context label : string) (annotations : list string)
    (sel : list Node) (w : World) :
  (∀ n n1, run (markProgram label annotations) n = Some n1 →
           R n (withResourceVersion n1 (S (ResourceVersion n1)))) →
  script w = [] →
  NoDup (List.map Name (store w)) →
  NoDup (List.map Name sel) →
  (∀ n, n ∈ sel → n ∈ store w) →
  let r := forNodes (fun n => wrap context (mark (Name n) label annotations)) sel
             (record CallList w) in
  (r.1 = Done tt ∨ r.1 = Panicked)
  ∧ script r.2 = []
  ∧ klog r.2 = klog w
  ∧ NoDup (List.map Name (store r.2))
  ∧ Forall2 R (store w) (store r.2).
Proof.
  intros HR Hq Hnd Hsel Hin. cbv zeta.
  apply (steady_selection R (run (markProgram label annotations))); try done.
  - apply run_keeps.
  - intros n w0 w1 o H Ho. apply wrap_passes; [|exact Ho].
    unfold mark. by apply wrap_passes.
  - intros n n1 _. apply HR.
Qed.

Lemma markAfterReboot_steady :
  (∀ n n1, run (markProgram constants.LabelAfterReboot (afterRebootAnnotations k)) n
           = Some n1 →
           R n (withResourceVersion n1 (S (ResourceVersion n1)))) →
  steady R (markAfterReboot k).
Proof.
  intros HR w Hq Hnd. unfold markAfterReboot, listing. rewrite (List_quiet w Hq).
  apply markLoop_steady; try done.
  - by do 2 apply filter_names_NoDup.
  - intros n Hn. by do 2 apply filter_subset in Hn.
Qed.

Lemma markBeforeReboot_steady (now1 now2 : Z) :
  (∀ n n1, run (markProgram constants.LabelBeforeReboot (beforeRebootAnnotations k)) n
           = Some n1 →
           R n (withResourceVersion n1 (S (ResourceVersion n1)))) →
  steady R (markBeforeReboot k now1 now2).
Proof.
  intros HR w Hq Hnd. unfold markBeforeReboot, listing. rewrite (List_quiet w Hq).
  pose proof (steady_return R R_refl (record CallList w) Hq Hnd) as Hidle.
  cbn [fst snd record store klog] in Hidle.
  destruct (outsideRebootWindow k now1 now2); [exact Hidle|].
  destruct (Nat.leb _ _); [exact Hidle|].
  destruct (Nat.eqb _ _); [exact Hidle|].
  apply markLoop_steady; try done.
  - unfold chosenNodes, rebootableNodes.
    by apply firstn_names_NoDup; do 2 apply filter_names_NoDup.
  - intros n Hn. unfold chosenNodes, rebootableNodes in Hn.
    apply (subseteq_take _ _) in Hn. by do 2 apply filter_subset in Hn.
Qed.

End SteadyPhases.





(** ** What a tick authorizes *)

Lemma hasAll_spec (n : Node) (annotations : list string) :
  hasAllAnnotations n annotations = true ↔
  ∀ a, a ∈ annotations → gomap.get (Annotations n) a = Some "true".
Proof.
  induction annotations as [|a rest IH]; cbn [hasAllAnnotations].
  - split; [intros _ a Ha; inversion Ha | done].
  - destruct (gomap.get (Annotations n) a) as [v|] eqn:Hget.
    + destruct (String.eqb_spec v constants.True) as [->|Hne].
      * rewrite IH. split.
        -- intros Hrest b Hb. apply elem_of_cons in Hb as [->|Hb]; auto.
        -- intros Hall b Hb. apply Hall. by right.
      * split; [done|]. intros Hall. exfalso. apply Hne.
        specialize (Hall a (list_elem_of_here _ _)).
        unfold constants.True. congruence.
    + split; [done|]. intros Hall.
      specialize (Hall a (list_elem_of_here _ _)). congruence.
Qed.

Lemma beforeReq_spec (l : gomap.t) :
  labels.Matches beforeRebootReq l = true
  ↔ gomap.get l constants.LabelBeforeReboot = Some "true".
Proof.
  unfold labels.Matches, beforeRebootReq, labels.hasValue.
  cbn [labels.operator labels.key labels.strValues existsb].
  destruct (gomap.get l constants.LabelBeforeReboot) as [v|]; [|split; done].
  rewrite orb_false_r.
  destruct (String.eqb_spec v constants.True) as [->|Hne]; split; try done.
  intros [= ->]. done.
Qed.

Lemma authorizedFrom_refl (k : Kontroller) (n : Node) : authorizedFrom k n n.
Proof. unfold authorizedFrom. repeat split; auto. Qed.

(** A node cleared for reboot was cleared for reboot before. *)
Lemma cleared_back (k : Kontroller) (a b : Node) :
  authorizedFrom k a b → clearedForReboot k b → clearedForReboot k a.
Proof.
  intros (Hn1 & Hl1 & Ha1) [Hlb Hhb].
  destruct (hasAllAnnotations a (beforeRebootAnnotations k)) eqn:Hall.
  - split; [by apply Hl1 | exact Hall].
  - exfalso. apply not_true_iff_false in Hall. apply Hall.
    apply hasAll_spec. intros h Hh.
    pose proof (proj1 (hasAll_spec b _) Hhb h Hh) as Hbh.
    destruct (Ha1 h Hbh) as [Hah|[_ [_ Hcl]]]; [exact Hah | by destruct Hall].
Qed.

Lemma authorizedFrom_bump (k : Kontroller) (n n1 : Node) (v : nat) :
  authorizedFrom k n n1 → authorizedFrom k n (withResourceVersion n1 v).
Proof. intros (H1 & H2 & H3). unfold authorizedFrom. cbn. by repeat split. Qed.

Lemma cleanup_authorized (k : Kontroller) (n n1 : Node) :
  cleanupMutator k n = Some n1 → authorizedFrom k n n1.
Proof.
  rewrite run_cleanupProgram. intros [= <-].
  destruct (gomap.get (Labels n) constants.LabelBeforeReboot);
    [|apply authorizedFrom_refl].
  destruct (rebootable n); [apply authorizedFrom_refl|].
  unfold authorizedFrom. rewrite !beforeReq_spec. cbn.
  split; [reflexivity|]. split.
  - rewrite get_del. by rewrite decide_True.
  - intros key. rewrite get_deleteAll.
    destruct (decide (key ∈ beforeRebootAnnotations k)); [done | by left].
Qed.

Lemma checkAfter_authorized (k : Kontroller) (annotations : list string) (n n1 : Node) :
  run (checkRebootProgram annotations constants.LabelAfterReboot constants.False) n
  = Some n1 →
  authorizedFrom k n n1.
Proof.
  rewrite run_checkRebootProgram.
  destruct (deleteAll annotations (Annotations n)) as [g|] eqn:Hg; [|done].
  intros [= <-]. unfold authorizedFrom. rewrite !beforeReq_spec. cbn.
  split; [reflexivity|]. split.
  - rewrite get_del. by rewrite decide_False.
  - intros key. destruct (decide (key = constants.AnnotationOkToReboot)) as [->|Hne].
    + rewrite lookup_insert_eq. intros H. discriminate H.
    + rewrite lookup_insert_ne by done.
      pose proof (get_deleteAll annotations (Annotations n) key) as H1.
      rewrite Hg in H1. cbn in H1. rewrite H1.
      destruct (decide (key ∈ annotations)); [done | by left].
Qed.

Lemma checkBefore_authorized (k : Kontroller) (n n1 : Node) :
  labels.Matches beforeRebootReq (Labels n) = true →
  hasAllAnnotations n (beforeRebootAnnotations k) = true →
  run (checkRebootProgram (beforeRebootAnnotations k) constants.LabelBeforeReboot
         constants.True) n
  = Some n1 →
  authorizedFrom k n n1.
Proof.
  intros Hlabel Hall. rewrite run_checkRebootProgram.
  destruct (deleteAll (beforeRebootAnnotations k) (Annotations n)) as [g|] eqn:Hg;
    [|done].
  intros [= <-]. unfold authorizedFrom. cbn.
  split; [reflexivity|]. split; [done|].
  intros key. destruct (decide (key = constants.AnnotationOkToReboot)) as [->|Hne].
  - intros _. right. by split.
  - rewrite lookup_insert_ne by done.
    pose proof (get_deleteAll (beforeRebootAnnotations k) (Annotations n) key) as H1.
    rewrite Hg in H1. cbn in H1. rewrite H1.
    destruct (decide (key ∈ beforeRebootAnnotations k)); [done | by left].
Qed.

Lemma markAfter_authorized (k : Kontroller) (annotations : list string) (n n1 : Node) :
  run (markProgram constants.LabelAfterReboot annotations) n = Some n1 →
  authorizedFrom k n n1.
Proof.
  rewrite run_markProgram.
  destruct (Labels n) as [g|] eqn:Hg; [|done]. intros [= <-].
  unfold authorizedFrom. rewrite !beforeReq_spec. cbn. rewrite Hg. cbn.
  split; [reflexivity|]. split.
  - by rewrite lookup_insert_ne.
  - intros key. rewrite get_deleteAll.
    destruct (decide (key ∈ annotations)); [done | by left].
Qed.

Lemma noNewTrue_refl (n : Node) : noNewTrue n n.
Proof. by split. Qed.

Lemma mark_noNewTrue (label : string) (annotations : list string) (n n1 : Node) (v : nat) :
  run (markProgram label annotations) n = Some n1 →
  noNewTrue n (withResourceVersion n1 v).
Proof.
  rewrite run_markProgram.
  destruct (Labels n) as [g|] eqn:Hg; [|done]. intros [= <-].
  unfold noNewTrue. cbn. split; [reflexivity|].
  intros key. rewrite get_deleteAll.
  by destruct (decide (key ∈ annotations)).
Qed.

Lemma authorized_compose (k : Kontroller) (a b c : Node) :
  authorizedFrom k a b →
  (Name c = Name b
   ∧ ∀ key, gomap.get (Annotations c) key = Some "true" →
            gomap.get (Annotations b) key = Some "true"
            ∨ (key = constants.AnnotationOkToReboot ∧ clearedForReboot k b)) →
  Name c = Name a
  ∧ ∀ key, gomap.get (Annotations c) key = Some "true" →
           gomap.get (Annotations a) key = Some "true"
           ∨ (key = constants.AnnotationOkToReboot ∧ clearedForReboot k a).
Proof.
  intros Hab (Hn2 & Ha2). pose proof Hab as (Hn1 & _ & Ha1). split; [congruence|].
  intros key Hc. destruct (Ha2 key Hc) as [Hb|[-> Hcl]]; [by apply Ha1|].
  right. split; [reflexivity|]. by apply (cleared_back k a b).
Qed.

(** X18: in a cluster where nobody else acts, a tick, whether it returns or
    panics, sets no annotation to "true" but ok-to-reboot, and ok-to-reboot
    only on a node that, when the tick began, carried the label
    before-reboot=true and had every before-reboot hook annotation at
    "true".  A node that the tick itself puts into pre-gating is therefore
    never authorized by the same tick. *)
Theorem tick_authorizes_cleared (k : Kontroller) (now1 now2 : Z) (w : World) :
  script w = [] →
  NoDup (List.map Name (store w)) →
  Forall2 (fun n n1 =>
             Name n1 = Name n
             ∧ ∀ a, gomap.get (Annotations n1) a = Some "true" →
                    gomap.get (Annotations n) a = Some "true"
                    ∨ (a = constants.AnnotationOkToReboot ∧ clearedForReboot k n))
    (store w) (store (process k now1 now2 w).2).
Proof.
  intros Hq Hnd.
  set (RC := fun n n1 : Node =>
               Name n1 = Name n
               ∧ ∀ a, gomap.get (Annotations n1) a = Some "true" →
                      gomap.get (Annotations n) a = Some "true"
                      ∨ (a = constants.AnnotationOkToReboot ∧ clearedForReboot k n)).
  pose proof (authorizedFrom_refl k) as Hrefl.
  assert (HreflC : ∀ n, RC n n) by (intros n; split; auto).
  assert (Hcomp : ∀ a b c, authorizedFrom k a b → RC b c → RC a c)
    by (intros a b c; apply authorized_compose).
  assert (Hlast : ∀ a b c, authorizedFrom k a b → noNewTrue b c → RC a c).
  { intros a b c Hab (Hn & Hbc). apply (Hcomp a b c Hab). split; [exact Hn|].
    intros key Hc. left. by apply Hbc. }
  assert (Hmark : ∀ a b c, noNewTrue a b → noNewTrue b c → noNewTrue a c).
  { intros a b c (Hn1 & H1) (Hn2 & H2). split; [congruence|]. intros key Hc. auto. }
  enough (steady RC (process k now1 now2)) as Hst by apply (Hst w Hq Hnd).
  unfold process, checkAfterReboot, checkBeforeReboot.
  apply (steady_orReturn (authorizedFrom k) RC); [exact Hcomp | exact HreflC | |].
  { apply cleanupState_steady; [exact Hrefl|].
    intros n n1 Hf. by apply authorizedFrom_bump, cleanup_authorized. }
  apply (steady_orReturn (authorizedFrom k) RC); [exact Hcomp | exact HreflC | |].
  { apply checkReboot_steady; [exact Hrefl|].
    intros n n1 _ _ Hf. by eapply authorizedFrom_bump, checkAfter_authorized. }
  apply (steady_orReturn (authorizedFrom k) RC); [exact Hcomp | exact HreflC | |].
  { apply markAfterReboot_steady; [exact Hrefl|].
    intros n n1 Hf. by eapply authorizedFrom_bump, markAfter_authorized. }
  apply (steady_orReturn (authorizedFrom k) noNewTrue);
    [exact Hlast | exact noNewTrue_refl | |].
  { apply checkReboot_steady; [exact Hrefl|].
    intros n n1 Hlabel Hall Hf. by apply authorizedFrom_bump, checkBefore_authorized. }
  apply (steady_orReturn noNewTrue noNewTrue); [exact Hmark | exact noNewTrue_refl | |].
  { apply markBeforeReboot_steady; [exact noNewTrue_refl|].
    intros n n1 Hf. by eapply mark_noNewTrue. }
  apply steady_return, noNewTrue_refl.
Qed.

Lemma tick_authorizes_cleared_witness :
  Forall2 (fun n n1 =>
             Name n1 = Name n
             ∧ ∀ a, gomap.get (Annotations n1) a = Some "true" →
                    gomap.get (Annotations n) a = Some "true"
                    ∨ (a = constants.AnnotationOkToReboot
                       ∧ clearedForReboot hooked n))
    [cleared; pending] (store (process hooked 0 0 (quiet [cleared; pending])).2).
Proof.
  apply (tick_authorizes_cleared hooked 0 0 (quiet [cleared; pending])).
  - reflexivity.
  - vm_compute. apply NoDup_cons. split; [by intros ?%list_elem_of_singleton|].
    apply NoDup_singleton.
Defined.


(** ** The pods to delete before a reboot *)

Lemma podLoop_acc (items : list pods.Pod) :
  ∀ (acc : list pods.Pod) (c : pods.Cluster),
    pods.podLoop items acc c
    = (acc ++ (pods.podLoop items [] c).1, (pods.podLoop items [] c).2).
Proof.
  induction items as [|p items IH]; intros acc c; cbn [pods.podLoop].
  - by rewrite app_nil_r.
  - destruct (gomap.get (pods.PodAnnotations p) pods.MirrorPodAnnotationKey);
      [apply IH|].
    destruct (pods.getOwnerDaemonset p c) as [[[]|e] c1]; [apply IH|].
    rewrite (IH (acc ++ [p])), (IH ([] ++ [p])). cbn. by rewrite <- app_assoc.
Qed.

Lemma podLoop_chosen (items : list pods.Pod) :
  ∀ c : pods.Cluster,
    sublist (pods.podLoop items [] c).1 items
    ∧ (∀ p, p ∈ (pods.podLoop items [] c).1 → isMirror p = false)
    ∧ (∀ p, p ∈ items → isMirror p = false → pods.OwnerReferences p = [] →
            p ∈ (pods.podLoop items [] c).1).
Proof.
  induction items as [|p items IH]; intros c; cbn [pods.podLoop].
  - split; [constructor|]. split; intros q Hq; by apply not_elem_of_nil in Hq.
  - unfold isMirror at 2.
    destruct (gomap.get (pods.PodAnnotations p) pods.MirrorPodAnnotationKey)
      as [v|] eqn:Hm.
    + destruct (IH c) as (Hsub & Hnm & Hin). split; [by apply sublist_cons|].
      split; [exact Hnm|]. intros q Hq Hmq Hown.
      apply elem_of_cons in Hq as [->|Hq]; [|by apply Hin].
      unfold isMirror in Hmq. by rewrite Hm in Hmq.
    + destruct (pods.getOwnerDaemonset p c) as [[[]|e] c1] eqn:Hown.
      * destruct (IH c1) as (Hsub & Hnm & Hin). split; [by apply sublist_cons|].
        split; [exact Hnm|]. intros q Hq Hmq Hnone.
        apply elem_of_cons in Hq as [->|Hq]; [|by apply Hin].
        unfold pods.getOwnerDaemonset in Hown. by rewrite Hnone in Hown.
      * rewrite podLoop_acc. cbn [fst snd app].
        destruct (IH c1) as (Hsub & Hnm & Hin). split; [by apply sublist_skip|].
        split.
        -- intros q Hq. apply elem_of_cons in Hq as [->|Hq]; [|by apply Hnm].
           unfold isMirror. by rewrite Hm.
        -- intros q Hq Hmq Hnone.
           apply elem_of_cons in Hq as [->|Hq]; [by left | right; by apply Hin].
Qed.

(** X19: [GetPodsForDeletion] returns an error only when the listing of the
    pods fails, whatever happens to the daemonset lookups.  Otherwise it
    returns pods of the listing in the order of the listing, all of them on
    the node and none of them a mirror pod, and among them every pod of the
    listing that is not a mirror pod and has no owner reference. *)
Theorem GetPodsForDeletion_result (node : string) (c : pods.Cluster) :
  match (pods.GetPodsForDeletion node c).1 with
  | pods.Err f =>
      (pods.listPods node c).1 = pods.Err (pods.Api Unavailable)
      ∧ f = pods.Context "listing pods on node" (pods.Api Unavailable)
  | pods.Ok chosen =>
      ∃ listed,
        (pods.listPods node c).1 = pods.Ok listed
        ∧ sublist chosen listed
        ∧ (∀ p, p ∈ chosen → isMirror p = false ∧ pods.NodeName p = node)
        ∧ (∀ p, p ∈ listed → isMirror p = false → pods.OwnerReferences p = [] →
                p ∈ chosen)
  end.
Proof.
  unfold pods.GetPodsForDeletion.
  assert (∀ listed, (pods.listPods node c).1 = pods.Ok listed →
                    ∀ p, p ∈ listed → pods.NodeName p = node) as Hnode.
  { unfold pods.listPods. destruct (pods.arrive _ c) as [[] c1]; cbn; [|done].
    intros listed [= <-] p Hp.
    apply list_elem_of_In, List.filter_In in Hp as [_ Hp]. by apply String.eqb_eq. }
  destruct (pods.listPods node c) as [[listed|e] c1] eqn:Hlist; cbn [fst] in *.
  - destruct (podLoop_chosen listed c1) as (Hsub & Hnm & Hin).
    destruct (pods.podLoop listed [] c1) as [chosen c2]. cbn [fst] in *.
    exists listed. split; [reflexivity|]. split; [exact Hsub|]. split; [|exact Hin].
    intros p Hp. split; [by apply Hnm|]. apply (Hnode listed eq_refl).
    by apply (sublist_subseteq _ _ Hsub).
  - unfold pods.listPods in Hlist. destruct (pods.arrive _ c) as [[] c0]; [done|].
    by injection Hlist as <- _.
Qed.

Lemma ownerLoop_quiet (p : pods.Pod) (refs : list pods.OwnerReference) :
  ∀ c : pods.Cluster,
    pods.outages c = [] →
    (pods.ownerLoop p refs c).1
    = (if existsb (fun r =>
            String.eqb (pods.Kind r) "DaemonSet"
            && existsb (fun d => String.eqb d.1 (pods.Namespace p)
                                 && String.eqb d.2 (pods.RefName r))
                 (pods.daemonsets c)) refs
       then pods.Ok tt else pods.Err pods.NoDaemonsetOwner)
    ∧ pods.outages (pods.ownerLoop p refs c).2 = []
    ∧ pods.daemonsets (pods.ownerLoop p refs c).2 = pods.daemonsets c.
Proof.
  induction refs as [|r refs IH]; intros c Hq; cbn [pods.ownerLoop existsb]; [done|].
  destruct (String.eqb (pods.Kind r) "DaemonSet") eqn:Hk; cbn [andb orb]; [|by apply IH].
  unfold pods.getDaemonsetController. rewrite Hk.
  unfold pods.getDaemonSet, pods.arrive. rewrite Hq. cbn [pods.daemonsets].
  destruct (existsb _ (pods.daemonsets c)) eqn:Hex; cbn [orb pods.IsNotFound negb];
    [done|].
  destruct (IH (pods.mkCluster (pods.allPods c) (pods.daemonsets c) []
                  (pods.requests c ++
                   [pods.GetDaemonSet (pods.Namespace p) (pods.RefName r)])) eq_refl)
    as (H1 & H2 & H3).
  by rewrite H1, H2, H3.
Qed.

Lemma podLoop_quiet (items : list pods.Pod) :
  ∀ c : pods.Cluster,
    pods.outages c = [] →
    (pods.podLoop items [] c).1
    = List.filter (fun p => negb (isMirror p) && negb (hasDaemonset c p)) items.
Proof.
  induction items as [|p items IH]; intros c Hq; cbn [pods.podLoop List.filter];
    [reflexivity|].
  unfold isMirror at 1.
  destruct (gomap.get (pods.PodAnnotations p) pods.MirrorPodAnnotationKey);
    cbn [negb andb]; [by apply IH|].
  assert ((pods.getOwnerDaemonset p c).1
          = (if hasDaemonset c p then pods.Ok tt
             else match pods.OwnerReferences p with
                  | [] => pods.Err pods.NoOwners
                  | _ => pods.Err pods.NoDaemonsetOwner
                  end)
          ∧ pods.outages (pods.getOwnerDaemonset p c).2 = []
          ∧ pods.daemonsets (pods.getOwnerDaemonset p c).2 = pods.daemonsets c)
    as (Hres & Hq1 & Hds).
  { unfold pods.getOwnerDaemonset, hasDaemonset.
    destruct (pods.OwnerReferences p) as [|r refs] eqn:Hrefs; [done|].
    destruct (ownerLoop_quiet p (r :: refs) c Hq) as (H1 & H2 & H3).
    rewrite H1. split; [|done].
    by destruct (existsb _ (r :: refs)). }
  destruct (pods.getOwnerDaemonset p c) as [res c1]. cbn [fst snd] in *.
  assert (∀ q, hasDaemonset c1 q = hasDaemonset c q) as Hsame
    by (intros q; unfold hasDaemonset; by rewrite Hds).
  destruct (hasDaemonset c p); cbn [negb]; subst res.
  - rewrite (IH c1 Hq1). apply List.filter_ext. intros q. by rewrite Hsame.
  - assert (∀ acc, pods.podLoop items acc c1
                   = (acc ++ (pods.podLoop items [] c1).1,
                      (pods.podLoop items [] c1).2)) as Hacc
      by (intros acc; apply podLoop_acc).
    destruct (pods.OwnerReferences p); rewrite Hacc; cbn [fst app];
      rewrite (IH c1 Hq1); f_equal; apply List.filter_ext; intros q;
      by rewrite Hsame.
Qed.

(** X20: when no call is lost, [GetPodsForDeletion] returns exactly the
    pods of the node that are not mirror pods and have no owner reference
    to a daemonset the cluster holds in their namespace, in the order of
    the listing. *)
Theorem GetPodsForDeletion_quiet (node : string) (c : pods.Cluster) :
  pods.outages c = [] →
  (pods.GetPodsForDeletion node c).1
  = pods.Ok (List.filter (fun p => negb (isMirror p) && negb (hasDaemonset c p))
               (List.filter (fun p => String.eqb (pods.NodeName p) node)
                  (pods.allPods c))).
Proof.
  intros Hq. unfold pods.GetPodsForDeletion, pods.listPods, pods.arrive.
  rewrite Hq. cbn [pods.allPods].
  pose proof (podLoop_quiet
                (List.filter (fun p => String.eqb (pods.NodeName p) node) (pods.allPods c))
                (pods.mkCluster (pods.allPods c) (pods.daemonsets c) []
                   (pods.requests c ++ [pods.ListPods node])) eq_refl) as Hloop.
  destruct (pods.podLoop _ [] _) as [chosen c2]. cbn [fst] in *. by rewrite Hloop.
Qed.

Lemma GetPodsForDeletion_quiet_witness :
  (pods.GetPodsForDeletion "n1" calm).1 = pods.Ok [webPod].
Proof.
  refine (eq_trans (GetPodsForDeletion_quiet "n1" calm eq_refl) _).
  vm_compute. reflexivity.
Defined.

Lemma podLoop_app (l1 l2 : list pods.Pod) :
  ∀ (acc : list pods.Pod) (c : pods.Cluster),
    pods.podLoop (l1 ++ l2) acc c
    = pods.podLoop l2 (pods.podLoop l1 acc c).1 (pods.podLoop l1 acc c).2.
Proof.
  induction l1 as [|p l1 IH]; intros acc c; cbn [pods.podLoop app]; [reflexivity|].
  destruct (gomap.get (pods.PodAnnotations p) pods.MirrorPodAnnotationKey);
    [apply IH|].
  destruct (pods.getOwnerDaemonset p c) as [[[]|e] c1]; apply IH.
Qed.

(** The owner references before the first one of kind DaemonSet are passed
    over without a call. *)
Lemma ownerLoop_skip (p : pods.Pod) (pre rest : list pods.OwnerReference)
    (c : pods.Cluster) :
  Forall (fun o => pods.Kind o ≠ "DaemonSet") pre →
  pods.ownerLoop p (pre ++ rest) c = pods.ownerLoop p rest c.
Proof.
  induction 1 as [|o pre Ho _ IH]; cbn [pods.ownerLoop app]; [reflexivity|].
  by destruct (String.eqb_spec (pods.Kind o) "DaemonSet").
Qed.

(** X21: when the lookup of the first daemonset owner of a pod is lost to an
    outage, wherever the pod stands in the listing and the reference among
    its owner references, the pod is put on the list of pods to delete and
    no error is returned, whether or not its daemonset exists; the other
    owner references of the pod are not consulted: the next call, if any,
    is for the pods that follow. *)
Theorem GetPodsForDeletion_lookup_outage (node : string) (c c0 c1 : pods.Cluster)
    (before after acc : list pods.Pod) (p : pods.Pod)
    (pre post : list pods.OwnerReference) (r : pods.OwnerReference)
    (more : list bool) :
  pods.listPods node c = (pods.Ok (before ++ p :: after), c0) →
  pods.podLoop before [] c0 = (acc, c1) →
  pods.outages c1 = true :: more →
  isMirror p = false →
  pods.OwnerReferences p = pre ++ r :: post →
  Forall (fun o => pods.Kind o ≠ "DaemonSet") pre →
  pods.Kind r = "DaemonSet" →
  ∃ (chosen : list pods.Pod) (c2 : pods.Cluster),
    pods.GetPodsForDeletion node c = (pods.Ok chosen, c2)
    ∧ p ∈ chosen
    ∧ pods.podLoop after (acc ++ [p])
        (pods.mkCluster (pods.allPods c1) (pods.daemonsets c1) more
           (pods.requests c1
            ++ [pods.GetDaemonSet (pods.Namespace p) (pods.RefName r)]))
      = (chosen, c2).
Proof.
  intros Hlist Hbefore Hout Hmirror Hrefs Hpre Hkind.
  unfold pods.GetPodsForDeletion. rewrite Hlist, podLoop_app, Hbefore.
  cbn [fst snd pods.podLoop].
  unfold isMirror in Hmirror.
  destruct (gomap.get (pods.PodAnnotations p) pods.MirrorPodAnnotationKey); [done|].
  unfold pods.getOwnerDaemonset. rewrite Hrefs.
  destruct (pre ++ r :: post) as [|r0 refs] eqn:Hall; [by destruct pre|].
  rewrite <- Hall, (ownerLoop_skip p pre (r :: post) c1 Hpre).
  cbn [pods.ownerLoop]. unfold pods.getDaemonsetController. rewrite Hkind.
  cbn [String.eqb Ascii.eqb Bool.eqb].
  unfold pods.getDaemonSet, pods.arrive. rewrite Hout.
  cbn [negb pods.IsNotFound].
  set (c3 := pods.mkCluster _ _ more _).
  destruct (pods.podLoop after (acc ++ [p]) c3) as [chosen c2] eqn:Hloop.
  exists chosen, c2. split; [reflexivity|]. split; [|reflexivity].
  rewrite podLoop_acc in Hloop. injection Hloop as <- _.
  apply elem_of_app. left. apply elem_of_app. right. by left.
Qed.

Lemma GetPodsForDeletion_lookup_outage_witness :
  hasDaemonset flaky agentPod = true
  ∧ (pods.GetPodsForDeletion "n1" flaky).1 = pods.Ok [agentPod].
Proof.
  split; [reflexivity|].
  destruct (GetPodsForDeletion_lookup_outage "n1" flaky
              (pods.mkCluster (pods.allPods flaky) (pods.daemonsets flaky)
                 [false; true] [pods.ListPods "n1"])
              (pods.mkCluster (pods.allPods flaky) (pods.daemonsets flaky)
                 [true]
                 [pods.ListPods "n1"; pods.GetDaemonSet "kube-system" "kube-proxy"])
              [proxyPod] [] [] agentPod
              [pods.mkOwnerReference "ReplicaSet" "agent-5d4"] []
              (pods.mkOwnerReference "DaemonSet" "agent") [])
    as (chosen & c2 & Hrun & _ & Hloop).
  - reflexivity.
  - reflexivity.
  - reflexivity.
  - reflexivity.
  - reflexivity.
  - constructor; [discriminate | constructor].
  - reflexivity.
  - rewrite Hrun. cbn in Hloop. injection Hloop as <- _. reflexivity.
Defined.
